(** * kilo: the row buffer, the highlighter, the coordinate mapper,
      the search callback and the key decoder of [kilo.c]

    A shallow embedding of the functions of [src/kilo.c] that the
    specification talks about, followed by the properties proved of them.

    Conventions of the embedding.
    - A C [int] that counts or indexes is a [Z]; signed overflow is not
      modelled.  An [unsigned short] field that the code increments
      ([E.numrows], [E.dirty]) wraps modulo 2^16, written out.
    - A [char *] buffer with its length field is a [list ascii]: [chars]
      holds [size] bytes, [render] holds [rsize] bytes, and the byte just
      after the last one is the terminating NUL (the one exception is
      noted at [editorRowInsertChar]).
    - A pointer [&E.row[k]] is the position [k].
    - A function that can trap (division by a zero tab stop), touch a row
      outside [E.row], or whose loop is given too little fuel returns
      [None]. *)

From Stdlib Require Import ZArith Ascii String List Bool Lia.
From stdpp Require Import base tactics option list.
Import ListNotations.
Open Scope Z_scope.

(** ** Characters and the C library *)

Definition NUL : ascii := "000"%char.
Definition DQUOTE : ascii := "034"%char.

Definition code (c : ascii) : Z := Z.of_N (N_of_ascii c).

(** [chars[at] = c] with [c] an [int]: the low eight bits are stored. *)
Definition char_of_int (c : Z) : ascii := ascii_of_N (Z.to_N (c mod 256)).

(** The value of a [char] promoted to [int] (a signed char). *)
Definition char_val (c : ascii) : Z :=
  if 128 <=? code c then code c - 256 else code c.

Definition cstr (s : string) : list ascii := list_ascii_of_string s.

Definition isdigit (c : ascii) : bool := (48 <=? code c) && (code c <=? 57).

Definition isalpha (c : ascii) : bool :=
  ((65 <=? code c) && (code c <=? 90)) || ((97 <=? code c) && (code c <=? 122)).

Definition isspace (c : ascii) : bool :=
  (code c =? 32) || ((9 <=? code c) && (code c <=? 13)).

(** [strchr(s, c) != NULL]: the terminator of [s] counts as a member. *)
Definition strchr (s : list ascii) (c : ascii) : bool :=
  existsb (Ascii.eqb c) s || Ascii.eqb c NUL.

Definition is_separator (c : ascii) : bool :=
  isspace c || Ascii.eqb c NUL || strchr (cstr ",.()+-/*=~%<>[];") c.

(** [strlen]: the bytes in front of the first NUL. *)
Fixpoint strlen (s : list ascii) : Z :=
  match s with
  | [] => 0
  | c :: t => if Ascii.eqb c NUL then 0 else 1 + strlen t
  end.

(** [strncmp(a, b, n) == 0].  The end of a list is its terminator. *)
Fixpoint strncmp (a b : list ascii) (n : nat) : bool :=
  match n with
  | O => true
  | S n' =>
      let ca := hd NUL a in
      let cb := hd NUL b in
      if Ascii.eqb ca cb
      then (if Ascii.eqb ca NUL then true else strncmp (tl a) (tl b) n')
      else false
  end.

(** How many bytes of [a] that comparison looks at. *)
Fixpoint strncmp_span (a b : list ascii) (n : nat) : nat :=
  match n with
  | O => O
  | S n' =>
      let ca := hd NUL a in
      let cb := hd NUL b in
      if Ascii.eqb ca cb
      then (if Ascii.eqb ca NUL then 1%nat else S (strncmp_span (tl a) (tl b) n'))
      else 1%nat
  end.

(** The bytes of a C string that the library functions see. *)
Fixpoint c_str (s : list ascii) : list ascii :=
  match s with
  | [] => []
  | c :: t => if Ascii.eqb c NUL then [] else c :: c_str t
  end.

Fixpoint is_prefix (p s : list ascii) : bool :=
  match p, s with
  | [], _ => true
  | _ :: _, [] => false
  | a :: p', b :: s' => Ascii.eqb a b && is_prefix p' s'
  end.

Fixpoint strstr_from (hay needle : list ascii) (off : Z) : option Z :=
  if is_prefix needle hay then Some off
  else match hay with
       | [] => None
       | _ :: hay' => strstr_from hay' needle (off + 1)
       end.

(** [strstr(hay, needle)], as the offset of the match. *)
Definition strstr (hay needle : list ascii) : option Z :=
  strstr_from (c_str hay) (c_str needle) 0.

(** [memset(&a[i], v, n)] on an array held as a list. *)
Fixpoint memset_from {A} (l : list A) (k i : Z) (v : A) (n : Z) : list A :=
  match l with
  | [] => []
  | x :: t =>
      (if (i <=? k) && (k <? i + n) then v else x) :: memset_from t (k + 1) i v n
  end.

Definition memset {A} (l : list A) (i : Z) (v : A) (n : Z) : list A :=
  memset_from l 0 i v n.

(** A C condition: nonzero is true. *)
Definition truthy (x : Z) : bool := negb (x =? 0).

(** ** Data *)

Definition BACKSPACE : Z := 127.
Definition ARROW_LEFT : Z := 1000.
Definition ARROW_RIGHT : Z := 1001.
Definition ARROW_UP : Z := 1002.
Definition ARROW_DOWN : Z := 1003.
Definition DEL_KEY : Z := 1004.
Definition HOME_KEY : Z := 1005.
Definition END_KEY : Z := 1006.
Definition PAGE_UP : Z := 1007.
Definition PAGE_DOWN : Z := 1008.

Inductive editorHighlight : Set :=
| HL_NORMAL
| HL_COMMENT
| HL_MLCOMMENT
| HL_FUNCTION
| HL_KEYWORD1
| HL_KEYWORD2
| HL_STRING
| HL_NUMBER
| HL_MATCH.

#[global] Instance editorHighlight_eq_dec : EqDecision editorHighlight.
Proof. solve_decision. Defined.

Definition HL_HIGHLIGHT_NUMBERS : Z := 1.
Definition HL_HIGHLIGHT_STRINGS : Z := 2.
Definition HL_HIGHLIGHT_FUNCTIONS : Z := 4.

(** [struct editorSyntax]; a comment marker may be a null pointer. *)
Record editorSyntax := mkSyntax {
  filetype : list ascii;
  filematch : list (list ascii);
  keywords : list (list ascii);
  singleline_comment_start : option (list ascii);
  multiline_comment_start : option (list ascii);
  multiline_comment_end : option (list ascii);
  flags : Z
}.

Record erow := mkRow {
  idx : Z;
  chars : list ascii;
  render : list ascii;
  hl : list editorHighlight;
  hl_open_comment : Z
}.

Definition size (r : erow) : Z := Z.of_nat (length (chars r)).
Definition rsize (r : erow) : Z := Z.of_nat (length (render r)).

(** The fields of [struct editorConfig] that the modelled functions use. *)
Record editorConfig := mkConfig {
  tab_stop : Z;
  row : list erow;
  syntax : option editorSyntax;
  cx : Z;
  cy : Z;
  rowoff : Z;
  numrows : Z;
  dirty : Z
}.

Definition C_HL_extensions : list (list ascii) :=
  [cstr ".c"; cstr ".h"; cstr ".cpp"].

Definition C_HL_keywords : list (list ascii) :=
  map cstr
    ["switch"; "if"; "while"; "for"; "break"; "continue"; "return"; "else";
     "default"; "union"; "case"; "#include"; "#ifndef"; "#define"; "#endif";
     "#pragma once"; "namespace"; "struct|"; "typedef|"; "enum|"; "class|";
     "int|"; "long|"; "double|"; "float|"; "char|"; "unsigned|"; "signed|";
     "void|"; "static|"; "using|"; "std"]%string.

(** [HLDB[0]]. *)
Definition HLDB_c : editorSyntax :=
  mkSyntax (cstr "c") C_HL_extensions C_HL_keywords
           (Some (cstr "//")) (Some (cstr "/*")) (Some (cstr "*/"))
           (Z.lor HL_HIGHLIGHT_NUMBERS
                  (Z.lor HL_HIGHLIGHT_STRINGS HL_HIGHLIGHT_FUNCTIONS)).

Definition ushort (x : Z) : Z := x mod 65536.

Definition set_row (E : editorConfig) (rows : list erow) : editorConfig :=
  mkConfig (tab_stop E) rows (syntax E) (cx E) (cy E) (rowoff E)
           (numrows E) (dirty E).

Definition set_numrows (E : editorConfig) (n : Z) : editorConfig :=
  mkConfig (tab_stop E) (row E) (syntax E) (cx E) (cy E) (rowoff E)
           n (dirty E).

Definition set_dirty (E : editorConfig) (d : Z) : editorConfig :=
  mkConfig (tab_stop E) (row E) (syntax E) (cx E) (cy E) (rowoff E)
           (numrows E) d.

Definition set_cursor (E : editorConfig) (x y off : Z) : editorConfig :=
  mkConfig (tab_stop E) (row E) (syntax E) x y off (numrows E) (dirty E).

(** [E.row[k]] *)
Definition row_at (E : editorConfig) (k : Z) : option erow :=
  if k <? 0 then None else row E !! Z.to_nat k.

(** [E.row[k] = r] *)
Definition store_row (E : editorConfig) (k : Z) (r : erow) : editorConfig :=
  set_row E (<[Z.to_nat k := r]> (row E)).

(** ** The highlighter: [editorUpdateSyntax] *)

Section Highlighter.

(** [row->render[-1]].  The scan reads [row->render[i-1]] at [i = 0]; the
    byte it finds in front of the buffer is not the program's to choose.
    It is the byte of one row during one call; where the scan is run over
    several rows, or before and after [render] is allocated anew, the one
    byte stands for all of them.  Without a profile the scan is not run
    and the byte is of no account. *)
Variable stray : ascii.

(** The state of the [while] loop of [editorUpdateSyntax], and the indices
    at which [row->render] has been read so far. *)
Record scan := mkScan {
  sc_i : Z;
  sc_prev_sep : Z;
  sc_in_string : ascii;
  sc_in_comment : Z;
  sc_hl : list editorHighlight;
  sc_reads : list Z
}.

Section Row.

Variable syn : editorSyntax.
Variable rend : list ascii.

Definition row_rsize : Z := Z.of_nat (length rend).

(** [row->render[j]]; index [rsize] holds the terminator. *)
Definition render_at (j : Z) : ascii :=
  if j <? 0 then stray else nth (Z.to_nat j) rend NUL.

(** [&row->render[i]] as a C string. *)
Definition render_from (i : Z) : list ascii := drop (Z.to_nat i) rend.

Definition span_reads (i : Z) (n : nat) : list Z :=
  map (fun k => i + Z.of_nat k) (seq 0 n).

Definition marker_len (m : option (list ascii)) : Z :=
  match m with Some s => strlen s | None => 0 end.

Definition marker_str (m : option (list ascii)) : list ascii :=
  match m with Some s => s | None => [] end.

Definition scs_len : Z := marker_len (singleline_comment_start syn).
Definition mcs_len : Z := marker_len (multiline_comment_start syn).
Definition mce_len : Z := marker_len (multiline_comment_end syn).

(** [strncmp(&row->render[i], m, len) == 0] and what it reads. *)
Definition marker_match (i : Z) (m : option (list ascii)) : bool :=
  strncmp (render_from i) (marker_str m) (Z.to_nat (marker_len m)).

Definition marker_reads (i : Z) (m : option (list ascii)) : list Z :=
  span_reads i (strncmp_span (render_from i) (marker_str m)
                             (Z.to_nat (marker_len m))).

(** [for (int j = i; row->render[j] != ' '; j--) row->hl[j] = HL_FUNCTION;]
    The walk is followed down to the read of [render[-1]]; the stores that
    the code goes on to make in front of [hl] are outside the array.
    Unless that byte is a space the code walks on, storing at [hl[-1]] and
    below: the model does not follow it there.  It agrees with the code on
    the rows where the walk is not entered or meets a space inside the
    array, and on every row when no profile is selected. *)
Fixpoint function_walk (j : nat) (h : list editorHighlight)
  : list editorHighlight * list Z :=
  if Ascii.eqb (render_at (Z.of_nat j)) " "
  then (h, [Z.of_nat j])
  else
    let h' := <[j := HL_FUNCTION]> h in
    match j with
    | O => (h', [0; -1])
    | S j' => let '(h'', rd) := function_walk j' h' in (h'', Z.of_nat j :: rd)
    end.

Definition rule_function (st : scan) : list editorHighlight * list Z :=
  let i := sc_i st in
  if truthy (flags syn) && truthy HL_HIGHLIGHT_FUNCTIONS then
    if Ascii.eqb (sc_in_string st) NUL then
      if isalpha (render_at i) then
        if Ascii.eqb (render_at (i + 1)) "(" then
          let '(h, rd) := function_walk (Z.to_nat i) (sc_hl st) in
          (h, [i; i + 1] ++ rd)
        else (sc_hl st, [i; i + 1])
      else (sc_hl st, [i])
    else (sc_hl st, [])
  else (sc_hl st, []).

Definition rule_single_comment (st : scan) (h : list editorHighlight)
  : list editorHighlight * list Z :=
  let i := sc_i st in
  if truthy scs_len && Ascii.eqb (sc_in_string st) NUL
     && negb (truthy (sc_in_comment st)) then
    (if marker_match i (singleline_comment_start syn)
     then memset h i HL_COMMENT (row_rsize - i) else h,
     marker_reads i (singleline_comment_start syn))
  else (h, []).

(** The keyword loop: the first keyword that matches at [i], as its length
    without the [|] and whether it had one, and the reads made.  An empty
    keyword has no last byte to compare with [|]: it counts as unmarked. *)
Fixpoint keyword_loop (kws : list (list ascii)) (i : Z)
  : option (Z * bool) * list Z :=
  match kws with
  | [] => (None, [])
  | kw :: rest =>
      let klen0 := strlen kw in
      let kw2 := (0 <? klen0)
                 && Ascii.eqb (nth (Z.to_nat (klen0 - 1)) kw NUL) "|" in
      let klen := if kw2 then klen0 - 1 else klen0 in
      let rd := span_reads i (strncmp_span (render_from i) kw (Z.to_nat klen)) in
      if strncmp (render_from i) kw (Z.to_nat klen) then
        if is_separator (render_at (i + klen))
        then (Some (klen, kw2), rd ++ [i + klen])
        else let '(r, rd') := keyword_loop rest i in (r, rd ++ [i + klen] ++ rd')
      else let '(r, rd') := keyword_loop rest i in (r, rd ++ rd')
  end.

(** One turn of the [while (i < row->rsize)] loop. *)
Definition scan_step (st : scan) : scan :=
  let i := sc_i st in
  let c := render_at i in
  let prev_c := render_at (i - 1) in
  let prev_hl :=
    if 0 <? i then nth (Z.to_nat (i - 1)) (sc_hl st) HL_NORMAL else HL_NORMAL in
  let '(h1, rd1) := rule_function st in
  let '(h2, rd2) := rule_single_comment st h1 in
  let log := sc_reads st ++ [i; i - 1] ++ rd1 ++ rd2 in
  let strings_on :=
    truthy (flags syn) && truthy HL_HIGHLIGHT_STRINGS in
  let numbers_on :=
    truthy (flags syn) && truthy HL_HIGHLIGHT_NUMBERS in
  let comments_on :=
    truthy mcs_len && truthy mce_len && Ascii.eqb (sc_in_string st) NUL in
  if comments_on && truthy (sc_in_comment st) then
    let h3 := <[Z.to_nat i := HL_COMMENT]> h2 in
    let log' := log ++ marker_reads i (multiline_comment_end syn) in
    if marker_match i (multiline_comment_end syn)
    then mkScan (i + mce_len) 1 (sc_in_string st) 0
                (memset h3 i HL_MLCOMMENT mce_len) log'
    else mkScan (i + 1) (sc_prev_sep st) (sc_in_string st) (sc_in_comment st)
                h3 log'
  else if comments_on && marker_match i (multiline_comment_start syn) then
    mkScan (i + mcs_len) (sc_prev_sep st) (sc_in_string st) 1
           (memset h2 i HL_MLCOMMENT mcs_len)
           (log ++ marker_reads i (multiline_comment_start syn))
  else
    let log := if comments_on
               then log ++ marker_reads i (multiline_comment_start syn)
               else log in
    if strings_on && negb (Ascii.eqb (sc_in_string st) NUL) then
      let h3 := <[Z.to_nat i := HL_STRING]> h2 in
      if Ascii.eqb c "\" && (i + 1 <? row_rsize) then
        mkScan (i + 2) (sc_prev_sep st) (sc_in_string st) (sc_in_comment st)
               (<[Z.to_nat (i + 1) := HL_STRING]> h3) log
      else
        mkScan (i + 1) 1
               (if Ascii.eqb c (sc_in_string st) then NUL else sc_in_string st)
               (sc_in_comment st) h3 log
    else if strings_on && (Ascii.eqb c DQUOTE || Ascii.eqb c "'") then
      mkScan (i + 1) (sc_prev_sep st) c (sc_in_comment st)
             (<[Z.to_nat i := HL_STRING]> h2) log
    else if numbers_on
            && ((isdigit c
                 && (truthy (sc_prev_sep st) || bool_decide (prev_hl = HL_NUMBER)))
                || (Ascii.eqb c "." && bool_decide (prev_hl = HL_NUMBER))
                || ((Ascii.eqb c "x" || Ascii.eqb c "b") && Ascii.eqb prev_c "0"))
    then
      mkScan (i + 1) 0 (sc_in_string st) (sc_in_comment st)
             (<[Z.to_nat i := HL_NUMBER]> h2) log
    else
      let '(found, rdk) :=
        if truthy (sc_prev_sep st) then keyword_loop (keywords syn) i
        else (None, []) in
      match found with
      | Some (klen, kw2) =>
          mkScan (i + klen) 0 (sc_in_string st) (sc_in_comment st)
                 (memset h2 i (if kw2 then HL_KEYWORD2 else HL_KEYWORD1) klen)
                 (log ++ rdk)
      | None =>
          mkScan (i + 1) (if is_separator c then 1 else 0)
                 (sc_in_string st) (sc_in_comment st) h2 (log ++ rdk)
      end.

(** The loop, [fuel] turns of it at most. *)
Fixpoint scan_loop (fuel : nat) (st : scan) : option scan :=
  if sc_i st <? row_rsize then
    match fuel with
    | O => None
    | S fuel' => scan_loop fuel' (scan_step st)
    end
  else Some st.

(** The state in which the loop is entered: [hl] has just been cleared. *)
Definition scan_init (in_comment : Z) : scan :=
  mkScan 0 1 NUL in_comment (replicate (length rend) HL_NORMAL) [].

(** Every turn either moves [i] forward or takes a keyword of length zero,
    after which the next turn moves: twice [rsize] turns and one do. *)
Definition syntax_pass (in_comment : Z) : option scan :=
  scan_loop (2 * length rend + 2) (scan_init in_comment).

End Row.

End Highlighter.

(** ** Rows and the buffer *)

Definition TAB : ascii := "009"%char.
Definition LF : ascii := "010"%char.
Definition CR : ascii := "013"%char.

Definition set_chars (r : erow) (cs : list ascii) : erow :=
  mkRow (idx r) cs (render r) (hl r) (hl_open_comment r).

Definition set_render (r : erow) (rs : list ascii) : erow :=
  mkRow (idx r) (chars r) rs (hl r) (hl_open_comment r).

Definition set_hl (r : erow) (h : list editorHighlight) : erow :=
  mkRow (idx r) (chars r) (render r) h (hl_open_comment r).

Definition set_idx (r : erow) (k : Z) : erow :=
  mkRow k (chars r) (render r) (hl r) (hl_open_comment r).

(** [while (idx % E.tab_stop != 0) row->render[idx++] = ' ';] with [idx]
    the length of what has been written. *)
Fixpoint tab_fill (fuel : nat) (ts : Z) (out : list ascii)
  : option (list ascii) :=
  if Z.rem (Z.of_nat (length out)) ts =? 0 then Some out
  else match fuel with
       | O => None
       | S fuel' => tab_fill fuel' ts (out ++ [" "%char])
       end.

(** The second loop of [editorUpdateRow]; [idx % 0] traps. *)
Fixpoint expand_tabs (ts : Z) (cs out : list ascii) : option (list ascii) :=
  match cs with
  | [] => Some out
  | c :: cs' =>
      if Ascii.eqb c TAB then
        if ts =? 0 then None
        else out' ← tab_fill (Z.to_nat ts) ts (out ++ [" "%char]);
             expand_tabs ts cs' out'
      else expand_tabs ts cs' (out ++ [c])
  end.

(** [E.row] between the [memmove] of [editorInsertRow] and its call of
    [editorUpdateRow]: the rows from [at] on moved up and renumbered, and
    in the gap the new row, holding [s], no [render], no [hl], and the
    [hl_open_comment] that the slot held before: that of the row that was
    there, or for a slot that [realloc] has just added whatever it holds,
    [junk]. *)
Definition rows_opened (junk : Z) (E : editorConfig) (at_ : Z) (s : list ascii)
  : list erow :=
  let k := Z.to_nat at_ in
  take k (row E)
  ++ mkRow at_ s [] []
           (match row E !! k with Some r => hl_open_comment r | None => junk end)
  :: map (fun r => set_idx r (idx r + 1)) (drop k (row E)).

Section Editor.

Variable stray : ascii.

(** What [realloc] leaves in the [hl_open_comment] of a row slot that has
    never been written. *)
Variable junk : Z.

(** [int in_comment = (row->idx > 0 && E.row[row->idx-1].hl_open_comment);] *)
Definition comment_seed (E : editorConfig) (r : erow) : option Z :=
  if 0 <? idx r then
    prev ← row_at E (idx r - 1);
    Some (if truthy (hl_open_comment prev) then 1 else 0)
  else Some 0.

Fixpoint editorUpdateSyntax_rec (fuel : nat) (E : editorConfig) (p : Z)
  : option editorConfig :=
  match fuel with
  | O => None
  | S fuel' =>
      r ← row_at E p;
      match syntax E with
      | None =>
          Some (store_row E p
                  (set_hl r (replicate (length (render r)) HL_NORMAL)))
      | Some syn =>
          in_comment ← comment_seed E r;
          st ← syntax_pass stray syn (render r) in_comment;
          let changed := negb (hl_open_comment r =? sc_in_comment st) in
          let E' := store_row E p
                      (mkRow (idx r) (chars r) (render r) (sc_hl st)
                             (sc_in_comment st)) in
          if changed && (idx r + 1 <? numrows E)
          then editorUpdateSyntax_rec fuel' E' (idx r + 1)
          else Some E'
      end
  end.

(** [editorUpdateSyntax(&E.row[p])]: the recursion moves one row down
    each time, so one more call than there are rows is enough. *)
Definition editorUpdateSyntax (E : editorConfig) (p : Z) : option editorConfig :=
  editorUpdateSyntax_rec (S (length (row E))) E p.

Definition editorUpdateRow (E : editorConfig) (p : Z) : option editorConfig :=
  r ← row_at E p;
  rs ← expand_tabs (tab_stop E) (chars r) [];
  editorUpdateSyntax (store_row E p (set_render r rs)) p.

(** The loop of [editorSelectSyntaxHighlight] over the rows:
    [for (filerow = 0; filerow < E.numrows; filerow++)
       editorUpdateSyntax(&E.row[filerow]);]
    with [n] turns to spend. *)
Fixpoint highlight_rows (n : nat) (filerow : Z) (E : editorConfig)
  : option editorConfig :=
  if filerow <? numrows E then
    match n with
    | O => None
    | S n' =>
        E' ← editorUpdateSyntax E filerow; highlight_rows n' (filerow + 1) E'
    end
  else Some E.

Definition highlight_all (E : editorConfig) : option editorConfig :=
  highlight_rows (Z.to_nat (numrows E)) 0 E.

Definition editorInsertRow (E : editorConfig) (at_ : Z) (s : list ascii)
  : option editorConfig :=
  if (at_ <? 0) || (numrows E <? at_) then Some E
  else
    E1 ← editorUpdateRow (set_row E (rows_opened junk E at_ s)) at_;
    Some (set_dirty (set_numrows E1 (ushort (numrows E1 + 1)))
                    (ushort (dirty E1 + 1))).

Definition editorDelRow (E : editorConfig) (at_ : Z) : editorConfig :=
  if (at_ <? 0) || (numrows E <=? at_) then E
  else
    let k := Z.to_nat at_ in
    let moved := map (fun r => set_idx r (idx r - 1)) (drop (S k) (row E)) in
    set_dirty (set_numrows (set_row E (take k (row E) ++ moved))
                           (ushort (numrows E - 1)))
              (ushort (dirty E + 1)).

(** [editorRowInsertChar(&E.row[p], at, c)].  The bound the code tests is
    [row->rsize], which exceeds [row->size] on a row with a tab.  At the
    position [row->size + 1] the [memmove] moves no byte: the row grows by
    one, its last byte is the terminator it had, and [c] is stored where
    the new terminator belongs, outside the [size] bytes of the row.
    Beyond that position the [memmove] count is negative, and the model
    stops there. *)
Definition editorRowInsertChar (E : editorConfig) (p at_ c : Z)
  : option editorConfig :=
  r ← row_at E p;
  let at' := if (at_ <? 0) || (rsize r <? at_) then rsize r else at_ in
  if size r + 1 <? at' then None
  else
    let k := Z.to_nat at' in
    let cs := if size r <? at' then chars r ++ [NUL]
              else take k (chars r) ++ char_of_int c :: drop k (chars r) in
    E1 ← editorUpdateRow (store_row E p (set_chars r cs)) p;
    Some (set_dirty E1 (ushort (dirty E1 + 1))).

Definition editorRowAppendString (E : editorConfig) (p : Z) (s : list ascii)
  : option editorConfig :=
  r ← row_at E p;
  E1 ← editorUpdateRow (store_row E p (set_chars r (chars r ++ s))) p;
  Some (set_dirty E1 (ushort (dirty E1 + 1))).

Definition editorRowDelChar (E : editorConfig) (p at_ : Z)
  : option editorConfig :=
  r ← row_at E p;
  if (at_ <? 0) || (size r <=? at_) then Some E
  else
    let k := Z.to_nat at_ in
    let cs := take k (chars r) ++ drop (S k) (chars r) in
    E1 ← editorUpdateRow (store_row E p (set_chars r cs)) p;
    Some (set_dirty E1 (ushort (dirty E1 + 1))).

(** ** File input and output *)

Definition editorRowsToString (E : editorConfig) : list ascii :=
  concat (map (fun r => chars r ++ [LF]) (take (Z.to_nat (numrows E)) (row E))).

(** The lines that successive calls of [getline] return: each with its
    newline, the last one without when the file does not end in one. *)
Fixpoint getlines (fp cur : list ascii) : list (list ascii) :=
  match fp with
  | [] => match cur with [] => [] | _ => [cur] end
  | c :: fp' =>
      if Ascii.eqb c LF then (cur ++ [c]) :: getlines fp' []
      else getlines fp' (cur ++ [c])
  end.

(** [while (linelen > 0 && (line[linelen - 1] == '\n' ||
                            line[linelen - 1] == '\r')) linelen--;] *)
Fixpoint strip_eol_rev (rl : list ascii) : list ascii :=
  match rl with
  | [] => []
  | c :: rl' => if Ascii.eqb c LF || Ascii.eqb c CR then strip_eol_rev rl' else rl
  end.

Definition strip_eol (line : list ascii) : list ascii :=
  rev (strip_eol_rev (rev line)).

Fixpoint insert_lines (lines : list (list ascii)) (E : editorConfig)
  : option editorConfig :=
  match lines with
  | [] => Some E
  | line :: rest =>
      E' ← editorInsertRow E (numrows E) (strip_eol line);
      insert_lines rest E'
  end.

(** [editorOpen], from the [getline] loop on: [fp] is what the file holds.
    The file name and the profile it selects are in [E] already. *)
Definition editorOpen (E : editorConfig) (fp : list ascii) : option editorConfig :=
  E' ← insert_lines (getlines fp []) E;
  Some (set_dirty E' 0).

(** ** Coordinates *)

(** The body of the loop of [editorRowCxToRx], for the bytes [j], [j+1],
    ... ; [rx % 0] traps. *)
Fixpoint cx_to_rx_loop (ts : Z) (cs : list ascii) (j n : nat) (rx : Z)
  : option Z :=
  match n with
  | O => Some rx
  | S n' =>
      if Ascii.eqb (nth j cs NUL) TAB then
        if ts =? 0 then None
        else cx_to_rx_loop ts cs (S j) n' (rx + ((ts - 1) - Z.rem rx ts) + 1)
      else cx_to_rx_loop ts cs (S j) n' (rx + 1)
  end.

Definition editorRowCxToRx (E : editorConfig) (r : erow) (cx_ : Z) : option Z :=
  cx_to_rx_loop (tab_stop E) (chars r) 0 (Z.to_nat cx_) 0.

Fixpoint rx_to_cx_loop (ts : Z) (cs : list ascii) (cx_ : Z) (cur_rx rx : Z)
  : option Z :=
  match cs with
  | [] => Some cx_
  | c :: cs' =>
      if Ascii.eqb c TAB then
        if ts =? 0 then None
        else
          let cur := cur_rx + ((ts - 1) - Z.rem cur_rx ts) + 1 in
          if rx <? cur then Some cx_ else rx_to_cx_loop ts cs' (cx_ + 1) cur rx
      else
        let cur := cur_rx + 1 in
        if rx <? cur then Some cx_ else rx_to_cx_loop ts cs' (cx_ + 1) cur rx
  end.

Definition editorRowRxToCx (E : editorConfig) (r : erow) (rx : Z) : option Z :=
  rx_to_cx_loop (tab_stop E) (chars r) 0 0 rx.

End Editor.

(** ** Search: [editorFindCallback] *)

(** The [static] variables of the callback. *)
Record findState := mkFind {
  last_match : Z;
  direction : Z;
  saved_hl_line : Z;
  saved_hl : option (list editorHighlight)
}.

(** [memcpy(dst, src, n)] on arrays held as lists. *)
Definition memcpy {A} (dst src : list A) (n : Z) : list A :=
  take (Z.to_nat n) src ++ drop (Z.to_nat n) dst.

(** The [for (i = 0; i < E.numrows; i++)] loop, [n] turns of it: the row
    on which [strstr] first succeeds and the offset of the match. *)
Fixpoint find_loop (n : nat) (E : editorConfig) (query : list ascii)
         (dir current : Z) : option (option (Z * Z)) :=
  match n with
  | O => Some None
  | S n' =>
      let current := current + dir in
      let current := if current =? -1 then numrows E - 1
                     else if current =? numrows E then 0 else current in
      r ← row_at E current;
      match strstr (render r) query with
      | Some off => Some (Some (current, off))
      | None => find_loop n' E query dir current
      end
  end.

Definition editorFindCallback (E : editorConfig) (fs : findState)
           (query : list ascii) (key : Z) : option (editorConfig * findState) :=
  E0 ← match saved_hl fs with
       | Some saved =>
           r ← row_at E (saved_hl_line fs);
           Some (store_row E (saved_hl_line fs)
                   (set_hl r (memcpy (hl r) saved (rsize r))))
       | None => Some E
       end;
  let fs0 := mkFind (last_match fs) (direction fs) (saved_hl_line fs) None in
  if (key =? 13) || (key =? 27) then
    Some (E0, mkFind (-1) 1 (saved_hl_line fs0) None)
  else
    let '(lm, dir) :=
      if (key =? ARROW_RIGHT) || (key =? ARROW_DOWN) then (last_match fs0, 1)
      else if (key =? ARROW_LEFT) || (key =? ARROW_UP) then (last_match fs0, -1)
      else (-1, 1) in
    let dir := if lm =? -1 then 1 else dir in
    found ← find_loop (Z.to_nat (numrows E0)) E0 query dir lm;
    match found with
    | None => Some (E0, mkFind lm dir (saved_hl_line fs0) None)
    | Some (current, off) =>
        r ← row_at E0 current;
        x ← editorRowRxToCx E0 r off;
        let E1 := set_cursor E0 (ushort x) (ushort current) (numrows E0) in
        let marked := memset (hl r) off HL_MATCH (strlen query) in
        Some (store_row E1 current (set_hl r marked),
              mkFind current dir current (Some (take (Z.to_nat (rsize r)) (hl r))))
    end.

(** ** The key decoder: [editorReadKey] *)

(** What one call of [read(STDIN_FILENO, &c, 1)] gives: a byte, nothing
    before the timeout (0), or an error (-1) with its [errno]. *)
Inductive read_result :=
| Got (c : ascii)
| Nothing
| Failed (errno : Z).

Definition EAGAIN : Z := 11.

(** The terminal as the [read] calls to come; past the end of the list
    every call times out. *)
Definition read1 (inp : list read_result) : read_result * list read_result :=
  match inp with
  | [] => (Nothing, [])
  | r :: rest => (r, rest)
  end.

Inductive key_result :=
| Key (k : Z) (last_input_char : Z) (rest : list read_result)
| Die (s : string)
| Waiting.

Definition ESC : ascii := "027"%char.

(** [seq[1] >= '0' && seq[1] <= '9'] *)
Definition digit_byte (c : ascii) : bool :=
  (char_val "0" <=? char_val c) && (char_val c <=? char_val "9").

(** The body of [if (c == '\x1b')]. *)
Definition decode_escape (lic : Z) (inp : list read_result) : key_result :=
  match read1 inp with
  | (Got s0, inp1) =>
      match read1 inp1 with
      | (Got s1, inp2) =>
          if Ascii.eqb s0 "[" then
            if digit_byte s1 then
              match read1 inp2 with
              | (Got s2, inp3) =>
                  if Ascii.eqb s2 "~" then
                    if Ascii.eqb s1 "1" then Key HOME_KEY lic inp3
                    else if Ascii.eqb s1 "3" then Key DEL_KEY lic inp3
                    else if Ascii.eqb s1 "4" then Key END_KEY lic inp3
                    else if Ascii.eqb s1 "5" then Key PAGE_UP lic inp3
                    else if Ascii.eqb s1 "6" then Key PAGE_DOWN lic inp3
                    else if Ascii.eqb s1 "7" then Key HOME_KEY lic inp3
                    else if Ascii.eqb s1 "8" then Key END_KEY lic inp3
                    else Key 27 lic inp3
                  else Key 27 lic inp3
              | (_, inp3) => Key 27 lic inp3
              end
            else
              if Ascii.eqb s1 "A" then Key ARROW_UP lic inp2
              else if Ascii.eqb s1 "B" then Key ARROW_DOWN lic inp2
              else if Ascii.eqb s1 "C" then Key ARROW_RIGHT lic inp2
              else if Ascii.eqb s1 "D" then Key ARROW_LEFT lic inp2
              else if Ascii.eqb s1 "H" then Key HOME_KEY lic inp2
              else if Ascii.eqb s1 "F" then Key END_KEY lic inp2
              else Key 27 lic inp2
          else if Ascii.eqb s0 "O" then
            if Ascii.eqb s1 "H" then Key HOME_KEY lic inp2
            else if Ascii.eqb s1 "F" then Key END_KEY lic inp2
            else Key 27 lic inp2
          else Key 27 lic inp2
      | (_, inp2) => Key 27 lic inp2
      end
  | (_, inp1) => Key 27 lic inp1
  end.

(** [editorReadKey]: [lic] is [last_input_char].  The first loop spins
    until a byte arrives; on a terminal that has no more to give it never
    leaves, which is [Waiting]. *)
Fixpoint editorReadKey (lic : Z) (inp : list read_result) : key_result :=
  match inp with
  | [] => Waiting
  | Got c :: rest =>
      if Ascii.eqb c ESC then decode_escape lic rest
      else
        let v := char_val c in
        Key v (if (31 <? v) && (v <? 127) then v else lic) rest
  | Nothing :: rest => editorReadKey lic rest
  | Failed e :: rest =>
      if e =? EAGAIN then editorReadKey lic rest else Die "read"
  end.

(** ** Vocabulary of the properties *)

(** Twice the distance to the end of the row, and one more while a keyword
    may still be taken at the present position: what every turn of the
    scan brings down. *)
Definition scan_measure (rend : list ascii) (st : scan) : Z :=
  2 * (row_rsize rend - sc_i st) + (if truthy (sc_prev_sep st) then 1 else 0).

(** What of a row the highlighter reads and never writes. *)
Definition text_of (r : erow) : Z * list ascii * list ascii :=
  (idx r, chars r, render r).

(** Every row's [idx] is its offset in [E.row]. *)
Definition indexed (E : editorConfig) : Prop :=
  forall (k : nat) (r : erow), row E !! k = Some r -> idx r = Z.of_nat k.

(** [E.numrows] counts the rows of [E.row]. *)
Definition counted (E : editorConfig) : Prop :=
  numrows E = Z.of_nat (length (row E)).

(** The value [in_comment] starts from on row [j]. *)
Definition seed_at (E : editorConfig) (j : nat) : Z :=
  match j with
  | O => 0
  | S j' =>
      match row E !! j' with
      | Some prev => if truthy (hl_open_comment prev) then 1 else 0
      | None => 0
      end
  end.

(** Row [r], the [j]th, carries what a pass of the highlighter over its
    [render] leaves, given the state its predecessor ends in. *)
Definition row_current (stray : ascii) (E : editorConfig) (j : nat) (r : erow)
  : Prop :=
  match syntax E with
  | None => hl r = replicate (length (render r)) HL_NORMAL
  | Some syn =>
      exists st, syntax_pass stray syn (render r) (seed_at E j) = Some st
                 /\ hl r = sc_hl st /\ hl_open_comment r = sc_in_comment st
  end.

Definition current_at (stray : ascii) (E : editorConfig) (j : nat) : Prop :=
  forall r, row E !! j = Some r -> row_current stray E j r.

Definition up_to_date (stray : ascii) (E : editorConfig) : Prop :=
  forall j, current_at stray E j.

(** The edits that go through [editorUpdateRow] on a row of the buffer. *)
Inductive edit :=
| InsertChar (p at_ c : Z)
| DelChar (p at_ : Z)
| AppendString (p : Z) (s : list ascii).

Definition apply_edit (stray : ascii) (E : editorConfig) (e : edit)
  : option editorConfig :=
  match e with
  | InsertChar p at_ c => editorRowInsertChar stray E p at_ c
  | DelChar p at_ => editorRowDelChar stray E p at_
  | AppendString p s => editorRowAppendString stray E p s
  end.

Fixpoint apply_edits (stray : ascii) (E : editorConfig) (es : list edit)
  : option editorConfig :=
  match es with
  | [] => Some E
  | e :: es' => E' ← apply_edit stray E e; apply_edits stray E' es'
  end.

(** Two buffers hold the same text under the same profile; their
    highlighting may differ. *)
Definition same_text (E E' : editorConfig) : Prop :=
  tab_stop E = tab_stop E' /\ syntax E = syntax E' /\ numrows E = numrows E'
  /\ map text_of (row E) = map text_of (row E').

(** [initEditor], for the fields of the model. *)
Definition initEditor : editorConfig := mkConfig 4 [] None 0 0 0 0 0.

(** The same with the C profile selected. *)
Definition initEditor_c : editorConfig :=
  mkConfig 4 [] (Some HLDB_c) 0 0 0 0 0.

(** A row content that a file can hold as one line and give back: no
    newline in it and no carriage return at its end. *)
Definition storable (cs : list ascii) : Prop :=
  (LF ∉ cs) /\ (last cs <> Some CR).

(** ** Buffers used as examples *)

(** Two rows, ["ab"] and the empty row, no profile. *)
Definition buffer_ab : editorConfig :=
  mkConfig 4
    [mkRow 0 (cstr "ab") (cstr "ab") [HL_NORMAL; HL_NORMAL] 0;
     mkRow 1 [] [] [] 0]
    None 0 0 0 2 2.

(** One row, ["a"] followed by a carriage return: what is left of a row
    ["ab"] after [r] and Enter on its second column, which is
    [editorRowDelChar] and [editorInsertChar] of the byte 13. *)
Definition buffer_cr : editorConfig :=
  mkConfig 4 [mkRow 0 ["a"%char; CR] ["a"%char; CR] [HL_NORMAL; HL_NORMAL] 0]
           None 0 0 0 1 3.

(** A C file of two lines, as [editorOpen] loads it, and the same after a
    block comment has been opened on its first line by two keystrokes. *)
Definition c_file : list ascii := cstr "a" ++ [LF] ++ cstr "b */" ++ [LF].

Definition c_loaded : editorConfig :=
  default initEditor_c (editorOpen NUL 0 initEditor_c c_file).

Definition c_edits : list edit := [InsertChar 0 0 42; InsertChar 0 0 47].

Definition c_edited : editorConfig :=
  default c_loaded (apply_edits NUL c_loaded c_edits).

(** Two C files in which a double quote keeps [/*] from opening a comment:
    Enter on column 3 of the first row of [split_file] puts the [/*] at
    the head of a new row, and Backspace at the head of the second row of
    [join_file] puts its [/*] behind the quote. *)
Definition split_file : list ascii :=
  [DQUOTE] ++ cstr "a /* b" ++ [LF] ++ cstr "y" ++ [LF].

Definition join_file : list ascii :=
  [DQUOTE] ++ [LF] ++ cstr "/* x" ++ [LF] ++ cstr "c" ++ [LF].

(** A call of [read] that gives no byte. *)
Definition no_byte (r : read_result) : Prop :=
  match r with Got _ => False | _ => True end.

(** What follows the escape byte is not a sequence the decoder knows: a
    byte is missing, the first byte is neither [[] nor [O], the byte after
    it is not one of the letters, the digit is not followed by [~], or it
    is a digit to which no key belongs. *)
Inductive malformed : list read_result -> Prop :=
| first_missing : malformed []
| first_lost r rest : no_byte r -> malformed (r :: rest)
| second_missing c0 : malformed [Got c0]
| second_lost c0 r rest : no_byte r -> malformed (Got c0 :: r :: rest)
| unknown_intro c0 c1 rest :
    c0 <> "["%char -> c0 <> "O"%char -> malformed (Got c0 :: Got c1 :: rest)
| unknown_letter c1 rest :
    digit_byte c1 = false ->
    c1 ∉ ["A"; "B"; "C"; "D"; "H"; "F"]%char ->
    malformed (Got "["%char :: Got c1 :: rest)
| unknown_letter_O c1 rest :
    c1 ∉ ["H"; "F"]%char -> malformed (Got "O"%char :: Got c1 :: rest)
| tilde_missing d : digit_byte d = true -> malformed [Got "["%char; Got d]
| tilde_lost d r rest :
    digit_byte d = true -> no_byte r ->
    malformed (Got "["%char :: Got d :: r :: rest)
| tilde_wrong d c rest :
    digit_byte d = true -> c <> "~"%char ->
    malformed (Got "["%char :: Got d :: Got c :: rest)
| digit_unmapped d rest :
    digit_byte d = true ->
    d ∉ ["1"; "3"; "4"; "5"; "6"; "7"; "8"]%char ->
    malformed (Got "["%char :: Got d :: Got "~"%char :: rest).

(** The keys [editorReadKey] makes of an escape sequence. *)
Definition escape_keys : list Z :=
  [27; ARROW_UP; ARROW_DOWN; ARROW_RIGHT; ARROW_LEFT; HOME_KEY; END_KEY;
   DEL_KEY; PAGE_UP; PAGE_DOWN].

(** [row->render] is what [editorUpdateRow] makes of [row->chars]. *)
Definition rendered (E : editorConfig) (r : erow) : Prop :=
  expand_tabs (tab_stop E) (chars r) [] = Some (render r).

(** Row [k] exists and [strstr] finds the query in its [render]. *)
Definition row_contains (E : editorConfig) (query : list ascii) (k : Z) : bool :=
  match row_at E k with
  | Some r => match strstr (render r) query with Some _ => true | None => false end
  | None => false
  end.

(** The rows of a buffer of [n] rows in the order a search from the
    anchor [a] in the direction [dir] comes to them: the one just past the
    anchor first, round the end of the buffer, the anchor itself last. *)
Definition probe_order (n dir a : Z) : list Z :=
  map (fun i => (a + dir * (Z.of_nat i + 1)) mod n) (seq 0 (Z.to_nat n)).

(** Three rows ["foo"], ["bar"], ["foo"]. *)
Definition buffer_foo : editorConfig :=
  mkConfig 4
    [mkRow 0 (cstr "foo") (cstr "foo") [HL_NORMAL; HL_NORMAL; HL_NORMAL] 0;
     mkRow 1 (cstr "bar") (cstr "bar") [HL_NORMAL; HL_NORMAL; HL_NORMAL] 0;
     mkRow 2 (cstr "foo") (cstr "foo") [HL_NORMAL; HL_NORMAL; HL_NORMAL] 0]
    None 0 0 0 3 0.

(** The callback's variables as they are initialised. *)
Definition find_init : findState := mkFind (-1) 1 0 None.

(** The callback called for each key of a search session in turn. *)
Fixpoint find_session (E : editorConfig) (fs : findState) (query : list ascii)
         (keys : list Z) : option (editorConfig * findState) :=
  match keys with
  | [] => Some (E, fs)
  | key :: rest =>
      '(E', fs') ← editorFindCallback E fs query key;
      find_session E' fs' query rest
  end.

(** The file of the scenario of section 8 of the specification. *)
Definition scenario_file : list ascii :=
  cstr "int x = 1; // note" ++ [LF] ++ cstr "/* block" ++ [LF]
  ++ cstr "still in block" ++ [LF] ++ cstr "end */ done" ++ [LF].

(** An index at which the model of the scan reads [row->render]: the
    byte in front of the array (the model follows the walk of the
    function-name rule no further down), the array, its terminator. *)
Definition read_within (rend : list ascii) (j : Z) : Prop :=
  -1 <= j <= row_rsize rend.

(** ** More of the editor: the profile of a file name, editing at the
       cursor, cursor movement and scrolling *)

(** One step of the column count of [editorRowCxToRx] and
    [editorRowRxToCx] over the byte [c]:
    [if (c == '\t') rx += (E.tab_stop - 1) - (rx % E.tab_stop); rx++;] *)
Definition rx_step (ts : Z) (rx : Z) (c : ascii) : Z :=
  if Ascii.eqb c TAB then rx + ((ts - 1) - Z.rem rx ts) + 1 else rx + 1.

(** The column count over a whole list of bytes. *)
Definition rx_over (ts : Z) (cs : list ascii) (rx : Z) : Z :=
  fold_left (rx_step ts) cs rx.

Definition set_syntax (E : editorConfig) (s : option editorSyntax)
  : editorConfig :=
  mkConfig (tab_stop E) (row E) s (cx E) (cy E) (rowoff E) (numrows E) (dirty E).

Definition set_cx (E : editorConfig) (x : Z) : editorConfig :=
  set_cursor E x (cy E) (rowoff E).

Definition set_cy (E : editorConfig) (y : Z) : editorConfig :=
  set_cursor E (cx E) y (rowoff E).

Definition set_rowoff (E : editorConfig) (off : Z) : editorConfig :=
  set_cursor E (cx E) (cy E) off.

(** [strcmp(a, b) == 0]: the comparison stops at the terminator of [a] at
    the latest. *)
Definition strcmp (a b : list ascii) : bool := strncmp a b (S (length a)).

(** [strchr(s, c)] as the rest of the string from the first [c] on. *)
Fixpoint strchr_from (s : list ascii) (c : ascii) : option (list ascii) :=
  match s with
  | [] => if Ascii.eqb c NUL then Some [] else None
  | x :: t =>
      if Ascii.eqb x c then Some s
      else if Ascii.eqb x NUL then None
      else strchr_from t c
  end.

(** The file name [editorOpen] keeps.  [name] holds the bytes of
    [strdup(filename)] in front of the terminator.
    [while (E.filename[1] == '/') E.filename += 2;]
    The byte after the terminator is outside the string: a loop that comes
    to read it has no result. *)
Fixpoint skip_slash (name : list ascii) : option (list ascii) :=
  match name with
  | [] => None
  | [_] => Some name
  | _ :: c1 :: rest => if Ascii.eqb c1 "/" then skip_slash rest else Some name
  end.

(** [while (E.filename[1] == '.') E.filename += 3;] *)
Fixpoint skip_dot (name : list ascii) : option (list ascii) :=
  match name with
  | [] => None
  | [_] => Some name
  | _ :: c1 :: rest =>
      if Ascii.eqb c1 "." then
        match rest with
        | [] => None
        | _ :: rest' => skip_dot rest'
        end
      else Some name
  end.

Definition open_filename (name : list ascii) : option (list ascii) :=
  n ← skip_slash name; skip_dot n.

(** [HLDB] *)
Definition HLDB : list editorSyntax := [HLDB_c].

(** The test of [editorSelectSyntaxHighlight] on one [filematch] entry:
    [(is_ext && ext && !strcmp(ext, s->filematch[i])) ||
     (!is_ext && strstr(E.filename, s->filematch[i]))] *)
Definition filematch_hit (filename : list ascii) (ext : option (list ascii))
           (fm : list ascii) : bool :=
  let is_ext := Ascii.eqb (hd NUL fm) "." in
  (is_ext && match ext with Some e => strcmp e fm | None => false end)
  || (negb is_ext
      && match strstr filename fm with Some _ => true | None => false end).

(** The two loops of [editorSelectSyntaxHighlight]: the first entry of
    [HLDB] one of whose [filematch] patterns hits. *)
Fixpoint select_syntax (db : list editorSyntax) (filename : list ascii)
         (ext : option (list ascii)) : option editorSyntax :=
  match db with
  | [] => None
  | s :: db' =>
      if existsb (filematch_hit filename ext) (filematch s) then Some s
      else select_syntax db' filename ext
  end.

Section Cursor.

Variable stray : ascii.
Variable junk : Z.

(** [editorSelectSyntaxHighlight]; [filename] is [E.filename], which the
    record of the model does not hold. *)
Definition editorSelectSyntaxHighlight (E : editorConfig)
           (filename : option (list ascii)) : option editorConfig :=
  let E0 := set_syntax E None in
  match filename with
  | None => Some E0
  | Some name =>
      match select_syntax HLDB name (strchr_from name ".") with
      | Some s => highlight_all stray (set_syntax E0 (Some s))
      | None => Some E0
      end
  end.

(** [editorInsertChar] *)
Definition editorInsertChar (E : editorConfig) (c : Z) : option editorConfig :=
  E1 ← (if cy E =? numrows E then editorInsertRow stray junk E (numrows E) []
        else Some E);
  E2 ← editorRowInsertChar stray E1 (cy E1) (cx E1) c;
  Some (set_cx E2 (ushort (cx E2 + 1))).

(** [editorInsertNewLine].  With [E.cx] beyond the end of the row the
    length handed to [editorInsertRow] is negative, which as a [size_t]
    is more than can be allocated: the model stops there. *)
Definition editorInsertNewLine (E : editorConfig) : option editorConfig :=
  E2 ← (if cx E =? 0 then editorInsertRow stray junk E (cy E) []
        else
          r ← row_at E (cy E);
          if size r <? cx E then None
          else
            E1 ← editorInsertRow stray junk E (cy E + 1)
                   (drop (Z.to_nat (cx E)) (chars r));
            r1 ← row_at E1 (cy E1);
            editorUpdateRow stray
              (store_row E1 (cy E1)
                 (set_chars r1 (take (Z.to_nat (cx E1)) (chars r1))))
              (cy E1));
  Some (set_cursor E2 0 (ushort (cy E2 + 1)) (rowoff E2)).

(** [editorDelChar] *)
Definition editorDelChar (E : editorConfig) : option editorConfig :=
  if cy E =? numrows E then Some E
  else if (cx E =? 0) && (cy E =? 0) then Some E
  else if 0 <? cx E then
    E1 ← editorRowDelChar stray E (cy E) (cx E - 1);
    Some (set_cx E1 (ushort (cx E1 - 1)))
  else
    r ← row_at E (cy E);
    prev ← row_at E (cy E - 1);
    let E0 := set_cx E (ushort (size prev)) in
    E1 ← editorRowAppendString stray E0 (cy E0 - 1) (chars r);
    let E2 := editorDelRow E1 (cy E1) in
    Some (set_cy E2 (ushort (cy E2 - 1))).

End Cursor.

(** [(E.cy >= E.numrows) ? NULL : &E.row[E.cy]], with the row read. *)
Definition cursor_row (E : editorConfig) : option (option erow) :=
  if numrows E <=? cy E then Some None
  else r ← row_at E (cy E); Some (Some r).

(** The [switch] of [editorMoveCursor]; [mode] is [E.mode], which the
    record of the model does not hold, and [row0] the row the cursor is on
    when the function is entered.  The keys [h], [j], [k], [l] are 104,
    106, 107, 108. *)
Definition cursor_switch (mode : Z) (E : editorConfig) (row0 : option erow)
           (key : Z) : option editorConfig :=
  if (key =? 104) || (key =? ARROW_LEFT) then
    if negb (cx E =? 0) then Some (set_cx E (ushort (cx E - 1)))
    else if 0 <? cy E then
      let y := ushort (cy E - 1) in
      r ← row_at E y;
      Some (set_cursor E (ushort (size r)) y (rowoff E))
    else Some E
  else if (key =? 108) || (key =? ARROW_RIGHT) then
    match row0 with
    | Some r =>
        if cx E <? size r - 1 then Some (set_cx E (ushort (cx E + 1)))
        else Some E
    | None => Some E
    end
  else if (key =? 107) || (key =? ARROW_UP) then
    if negb (cy E =? 0) then Some (set_cy E (ushort (cy E - 1)))
    else Some E
  else if (key =? 106) || (key =? ARROW_DOWN) then
    if (mode =? 1) && (cy E <? numrows E)
    then Some (set_cy E (ushort (cy E + 1)))
    else if (mode =? 0) && (cy E <? numrows E - 1)
    then Some (set_cy E (ushort (cy E + 1)))
    else Some E
  else Some E.

(** [editorMoveCursor]: the switch, and then the column brought back
    within the row the cursor has come to. *)
Definition editorMoveCursor (mode : Z) (E : editorConfig) (key : Z)
  : option editorConfig :=
  row0 ← cursor_row E;
  E1 ← cursor_switch mode E row0 key;
  row1 ← cursor_row E1;
  let rowlen := match row1 with Some r => size r | None => 0 end in
  Some (if rowlen <? cx E1 then set_cx E1 (ushort rowlen) else E1).

(** The case ['r'] of [editorProcessKeypress] in normal mode; [c] is the
    key that its call of [editorReadKey] returns:
    [editorRowDelChar(&E.row[E.cy], E.cx); editorInsertChar(c);
     editorMoveCursor(ARROW_LEFT);] *)
Definition normal_mode_r (stray : ascii) (junk : Z) (E : editorConfig) (c : Z)
  : option editorConfig :=
  E1 ← editorRowDelChar stray E (cy E) (cx E);
  E2 ← editorInsertChar stray junk E1 c;
  editorMoveCursor 0 E2 ARROW_LEFT.

(** The fields of [struct editorConfig] that only [editorScroll] and the
    drawing use. *)
Record editorView := mkView {
  line_indent : Z;
  rx : Z;
  coloff : Z;
  screenrows : Z;
  screencols : Z
}.

(** [editorScroll] *)
Definition editorScroll (E : editorConfig) (V : editorView)
  : option (editorConfig * editorView) :=
  rx1 ← (if cy E <? numrows E then
           r ← row_at E (cy E);
           x ← editorRowCxToRx E r (cx E);
           Some (ushort (x + line_indent V))
         else Some (line_indent V));
  let off1 := if cy E <? rowoff E then cy E else rowoff E in
  let off2 := if off1 + screenrows V <=? cy E
              then ushort (cy E - screenrows V + 1) else off1 in
  let col1 := if rx1 <? coloff V then rx1 else coloff V in
  let col2 := if col1 + screencols V <=? rx1
              then ushort (rx1 - screencols V + 1) else col1 in
  Some (set_rowoff E off2,
        mkView (line_indent V) rx1 col2 (screenrows V) (screencols V)).

(** ** Vocabulary of the further properties *)

(** The content of the buffer, row by row. *)
Definition text (E : editorConfig) : list (list ascii) := map chars (row E).

(** A file name at which both loops of [editorOpen] stop at once: it is not
    empty and its second byte is neither a slash nor a dot. *)
Definition settled (name : list ascii) : Prop :=
  match name with
  | [] => False
  | [_] => True
  | _ :: c1 :: _ => c1 <> "/"%char /\ c1 <> "."%char
  end.

(** A call of [read] that the first loop of [editorReadKey] lets pass:
    nothing before the timeout, or a failure with [errno] at [EAGAIN]. *)
Definition idle (r : read_result) : Prop :=
  r = Nothing \/ r = Failed EAGAIN.

(** Every row's [render] is what [editorUpdateRow] makes of its [chars]. *)
Definition rows_rendered (E : editorConfig) : Prop :=
  forall (j : nat) (r : erow), row E !! j = Some r -> rendered E r.

(** The state the editor keeps the buffer in between two commands: rows
    numbered by their offsets, [E.numrows] of them, each rendered from its
    [chars], under a positive tab stop. *)
Definition consistent (E : editorConfig) : Prop :=
  indexed E /\ counted E /\ rows_rendered E /\ 0 < tab_stop E.

(** The buffers agree on everything but the rows, [E.numrows] and
    [E.dirty]. *)
Definition same_frame (E E' : editorConfig) : Prop :=
  tab_stop E' = tab_stop E /\ syntax E' = syntax E
  /\ cx E' = cx E /\ cy E' = cy E /\ rowoff E' = rowoff E.

(** A file that holds the lines [ls], each ended by a newline, or when its
    flag is set by a carriage return and a newline, and after them the
    bytes [rest] with no newline at the end. *)
Definition file_of (ls : list (list ascii * bool)) (rest : list ascii)
  : list ascii :=
  concat (map (fun p : list ascii * bool =>
                 fst p ++ (if snd p then [CR; LF] else [LF])) ls)
  ++ rest.

(** Every row has one [hl] entry for each byte of [render], as
    [editorUpdateSyntax] allocates it. *)
Definition rows_shaped (E : editorConfig) : Prop :=
  forall (k : nat) (r : erow),
    row E !! k = Some r -> length (hl r) = length (render r).

(** The callback called through a search session: once for each key, with
    the query as it stands after that key. *)
Fixpoint find_calls (E : editorConfig) (fs : findState)
         (calls : list (list ascii * Z)) : option (editorConfig * findState) :=
  match calls with
  | [] => Some (E, fs)
  | (query, key) :: rest =>
      '(E', fs') ← editorFindCallback E fs query key;
      find_calls E' fs' rest
  end.

(** What a search session has made of the buffer [E] it started on: the
    rows are those of [E], but for the row whose highlighting the callback
    has saved, which differs from the row of [E] in its [hl] only; what is
    saved is the [hl] of that row of [E]; and the anchor is a row of the
    buffer or -1. *)
Definition find_inv (E Ei : editorConfig) (fs : findState) : Prop :=
  tab_stop Ei = tab_stop E /\ numrows Ei = numrows E
  /\ (last_match fs = -1 \/ 0 <= last_match fs < numrows E)
  /\ match saved_hl fs with
     | None => row Ei = row E
     | Some s =>
         exists (k : nat) (r : erow) (h : list editorHighlight),
           saved_hl_line fs = Z.of_nat k /\ row E !! k = Some r
           /\ s = hl r /\ length h = length (hl r)
           /\ row Ei = <[k := set_hl r h]> (row E)
     end.

(** A C file whose first line opens a block comment that its second line
    is inside of, and the buffer [editorOpen] makes of it. *)
Definition comment_file : list ascii :=
  cstr "/*" ++ [LF] ++ cstr "plain text" ++ [LF].

Definition comment_loaded : editorConfig :=
  default initEditor_c (editorOpen NUL 0 initEditor_c comment_file).

(** * Properties *)

(** ** The scan of one row ends *)

Lemma strlen_nonneg (s : list ascii) : 0 <= strlen s.
Proof. induction s as [|c s IH]; simpl; [lia | destruct (Ascii.eqb c NUL); lia]. Qed.

Lemma truthy_nonzero (x : Z) : truthy x = true <-> x <> 0.
Proof. unfold truthy. destruct (Z.eqb_spec x 0); simpl; split; intros; congruence. Qed.

Section ScanFacts.

Variable stray : ascii.
Variable syn : editorSyntax.
Variable rend : list ascii.

Lemma marker_len_nonneg (m : option (list ascii)) : 0 <= marker_len m.
Proof. destruct m; simpl; [apply strlen_nonneg | lia]. Qed.

Lemma keyword_loop_klen (kws : list (list ascii)) (i klen : Z) (kw2 : bool) :
  fst (keyword_loop stray rend kws i) = Some (klen, kw2) -> 0 <= klen.
Proof.
  induction kws as [|kw rest IH]; simpl; [discriminate|].
  pose proof (strlen_nonneg kw) as Hlen.
  repeat case_match; simpl in *; intros; simplify_eq; try lia; auto.
Qed.

Lemma scan_step_progress (st : scan) :
  let st' := scan_step stray syn rend st in
  sc_i st + 1 <= sc_i st'
  \/ (sc_i st' = sc_i st /\ truthy (sc_prev_sep st) = true /\ sc_prev_sep st' = 0).
Proof.
  pose proof (marker_len_nonneg (multiline_comment_start syn)) as Hs.
  pose proof (marker_len_nonneg (multiline_comment_end syn)) as He.
  unfold scan_step.
  destruct (rule_function stray syn rend st) as [h1 rd1].
  destruct (rule_single_comment syn rend st h1) as [h2 rd2].
  destruct (truthy (mcs_len syn)) eqn:Hmcs;
    destruct (truthy (mce_len syn)) eqn:Hmce;
    try apply truthy_nonzero in Hmcs; try apply truthy_nonzero in Hmce;
    unfold mcs_len, mce_len in *.
  all: destruct (truthy (sc_prev_sep st)) eqn:Hsep;
    [destruct (keyword_loop stray rend (keywords syn) (sc_i st))
       as [[[klen kw2]|] rdk] eqn:Hkw;
     [pose proof (keyword_loop_klen (keywords syn) (sc_i st) klen kw2) as Hk;
      rewrite Hkw in Hk; specialize (Hk eq_refl)|] |].
  all: cbn [andb].
  all: repeat match goal with
         | |- context [if ?b then _ else _] =>
             lazymatch b with
             | context [if _ then _ else _] => fail
             | _ => destruct b
             end
         end; simpl; try lia.
Qed.

Lemma scan_step_measure (st : scan) :
  scan_measure rend (scan_step stray syn rend st) < scan_measure rend st.
Proof.
  unfold scan_measure.
  destruct (scan_step_progress st) as [H | (H1 & H2 & H3)].
  - repeat case_match; lia.
  - rewrite H1, H2, H3. simpl. lia.
Qed.

Lemma scan_loop_total (fuel : nat) (st : scan) :
  scan_measure rend st < Z.of_nat fuel ->
  is_Some (scan_loop stray syn rend fuel st).
Proof.
  revert st. induction fuel as [|fuel IH]; intros st Hm; simpl.
  - destruct (Z.ltb_spec (sc_i st) (row_rsize rend)); [|eauto].
    unfold scan_measure in Hm. repeat case_match; lia.
  - destruct (Z.ltb_spec (sc_i st) (row_rsize rend)); [|eauto].
    apply IH. pose proof (scan_step_measure st). lia.
Qed.

(** Whatever the row and the state it is entered in, the pass returns. *)
Lemma syntax_pass_total (in_comment : Z) :
  is_Some (syntax_pass stray syn rend in_comment).
Proof.
  apply scan_loop_total. unfold scan_measure, scan_init, row_rsize. simpl. lia.
Qed.

End ScanFacts.

(** ** Rendering *)

Lemma tab_fill_total (ts : Z) (fuel : nat) :
  0 < ts ->
  forall out, (- Z.of_nat (length out)) mod ts <= Z.of_nat fuel ->
              is_Some (tab_fill fuel ts out).
Proof.
  intros Hts. induction fuel as [|fuel IH]; intros out Hd; simpl.
  - rewrite Z.rem_mod_nonneg by lia.
    destruct (Z.eqb_spec (Z.of_nat (length out) mod ts) 0) as [|Hne]; [eauto|].
    exfalso. apply Hne.
    pose proof (Z.mod_pos_bound (- Z.of_nat (length out)) ts Hts).
    assert ((- Z.of_nat (length out)) mod ts = 0) as H0 by lia.
    apply Z.mod_opp_l_z in H0; [|lia]. by rewrite Z.opp_involutive in H0.
  - rewrite Z.rem_mod_nonneg by lia.
    destruct (Z.eqb_spec (Z.of_nat (length out) mod ts) 0) as [|Hne]; [eauto|].
    apply IH. rewrite length_app. simpl.
    rewrite Z.mod_opp_l_nz in Hd by lia.
    replace (Z.of_nat (length out + 1)) with (Z.of_nat (length out) + 1) by lia.
    destruct (Z.eq_dec ((Z.of_nat (length out) + 1) mod ts) 0) as [Hz|Hnz].
    + rewrite Z.mod_opp_l_z by lia. lia.
    + rewrite Z.mod_opp_l_nz by lia.
      assert ((Z.of_nat (length out) + 1) mod ts
              = Z.of_nat (length out) mod ts + 1); [|lia].
      pose proof (Z.mod_pos_bound (Z.of_nat (length out)) ts Hts).
      rewrite <- (Z.mod_small (Z.of_nat (length out) mod ts + 1) ts).
      * by rewrite Z.add_mod_idemp_l by lia.
      * split; [lia|].
        destruct (Z.eq_dec (Z.of_nat (length out) mod ts + 1) ts) as [He|];
          [|lia].
        exfalso. apply Hnz. rewrite <- Z.add_mod_idemp_l by lia.
        rewrite He. apply Z.mod_same. lia.
Qed.

(** With a positive tab stop a row can always be rendered. *)
Lemma expand_tabs_total (ts : Z) (cs : list ascii) :
  0 < ts -> forall out, is_Some (expand_tabs ts cs out).
Proof.
  intros Hts. induction cs as [|c cs IH]; intros out; simpl; [eauto|].
  destruct (Ascii.eqb c TAB); [|apply IH].
  destruct (Z.eqb_spec ts 0); [lia|].
  destruct (tab_fill_total ts (Z.to_nat ts) Hts (out ++ [" "%char]))
    as [out' Hout].
  - pose proof (Z.mod_pos_bound (- Z.of_nat (length (out ++ [" "%char]))) ts Hts).
    lia.
  - rewrite Hout. simpl. apply IH.
Qed.

(** ** The cascade of [editorUpdateSyntax] *)

Section Cascade.

Variable stray : ascii.

Lemma row_at_nat (E : editorConfig) (j : nat) :
  row_at E (Z.of_nat j) = row E !! j.
Proof.
  unfold row_at. destruct (Z.ltb_spec (Z.of_nat j) 0); [lia|].
  by rewrite Nat2Z.id.
Qed.

Lemma store_row_nat (E : editorConfig) (j : nat) (r : erow) :
  store_row E (Z.of_nat j) r = set_row E (<[j := r]> (row E)).
Proof. unfold store_row. by rewrite Nat2Z.id. Qed.

Lemma comment_seed_at (E : editorConfig) (j : nat) (r : erow) :
  indexed E -> row E !! j = Some r -> comment_seed E r = Some (seed_at E j).
Proof.
  intros Hidx Hr. unfold comment_seed. rewrite (Hidx j r Hr).
  destruct j as [|j]; simpl.
  - reflexivity.
  - destruct (Z.ltb_spec 0 (Z.of_nat (S j))); [|lia].
    replace (Z.of_nat (S j) - 1) with (Z.of_nat j) by lia.
    rewrite row_at_nat.
    destruct (row E !! j) as [prev|] eqn:Hp; simpl; [done|].
    apply lookup_ge_None in Hp. apply lookup_lt_Some in Hr. lia.
Qed.

(** Storing at [j] a row with the same text leaves the text of the buffer
    as it was. *)
Lemma texts_store (E : editorConfig) (j : nat) (r r' : erow) :
  row E !! j = Some r -> text_of r' = text_of r ->
  map text_of (<[j := r']> (row E)) = map text_of (row E).
Proof.
  intros Hr Ht. change (map text_of) with (fmap (M:=list) text_of).
  rewrite list_fmap_insert, Ht. apply list_insert_id.
  by rewrite list_lookup_fmap, Hr.
Qed.

Lemma indexed_store (E : editorConfig) (j : nat) (r r' : erow) :
  indexed E -> row E !! j = Some r -> idx r' = idx r ->
  indexed (set_row E (<[j := r']> (row E))).
Proof.
  intros Hidx Hr Hi k x. simpl. intros Hk.
  destruct (decide (j = k)) as [->|Hne].
  - rewrite list_lookup_insert_eq in Hk by (by eapply lookup_lt_Some).
    simplify_eq. rewrite Hi. by apply Hidx.
  - rewrite list_lookup_insert_ne in Hk by done. by apply Hidx.
Qed.

(** A row other than [j] and its successor does not see a store at [j]. *)
Lemma current_at_store_far (E : editorConfig) (j i : nat) (r' : erow) :
  i <> j -> i <> S j ->
  current_at stray (set_row E (<[j := r']> (row E))) i <-> current_at stray E i.
Proof.
  intros H1 H2. unfold current_at, row_current. simpl.
  rewrite list_lookup_insert_ne by done.
  assert (seed_at (set_row E (<[j:=r']> (row E))) i = seed_at E i) as ->; [|done].
  destruct i as [|i]; simpl; [done|].
  rewrite list_lookup_insert_ne by lia. done.
Qed.

(** The successor of [j] does not see it either while the truth of
    [hl_open_comment] stays. *)
Lemma current_at_store_next (E : editorConfig) (j : nat) (r r' : erow) :
  row E !! j = Some r ->
  truthy (hl_open_comment r') = truthy (hl_open_comment r) ->
  current_at stray (set_row E (<[j := r']> (row E))) (S j)
  <-> current_at stray E (S j).
Proof.
  intros Hr Ht. unfold current_at, row_current. simpl.
  rewrite list_lookup_insert_ne by lia.
  rewrite list_lookup_insert_eq by (by eapply lookup_lt_Some).
  rewrite Hr, Ht. done.
Qed.

Lemma seed_at_store (E : editorConfig) (j i : nat) (r' : erow) :
  i <> S j -> seed_at (set_row E (<[j := r']> (row E))) i = seed_at E i.
Proof.
  intros Hne. destruct i as [|i]; simpl; [done|].
  rewrite list_lookup_insert_ne by lia. done.
Qed.

Lemma current_at_store_self (E : editorConfig) (j : nat) (r r' : erow) :
  row E !! j = Some r ->
  row_current stray E j r' ->
  current_at stray (set_row E (<[j := r']> (row E))) j.
Proof.
  intros Hr Hc x. simpl.
  rewrite list_lookup_insert_eq by (by eapply lookup_lt_Some).
  intros [= <-]. unfold row_current in *. simpl.
  rewrite seed_at_store by lia. done.
Qed.

(** What one call of [editorUpdateSyntax] on row [j] achieves: it returns
    and the text stays; and when the rows in front of [j] are current, the
    rows up to [j] are current afterwards, and so is every later row of
    the buffer reached through rows that were current before. *)
Lemma editorUpdateSyntax_rec_spec (fuel : nat) :
  forall (E : editorConfig) (j : nat),
    indexed E ->
    numrows E <= Z.of_nat (length (row E)) ->
    (j < length (row E))%nat ->
    (length (row E) - j < fuel)%nat ->
    exists rows',
      editorUpdateSyntax_rec stray fuel E (Z.of_nat j) = Some (set_row E rows')
      /\ map text_of rows' = map text_of (row E)
      /\ ((forall i, (i < j)%nat -> current_at stray E i) ->
          forall i, ((i <= j)%nat
                     \/ (Z.of_nat i < numrows E
                         /\ forall m, (j < m <= i)%nat -> current_at stray E m)) ->
                    current_at stray (set_row E rows') i).
Proof.
  induction fuel as [|fuel IH]; intros E j Hidx Hnum Hj Hfuel; [lia|].
  simpl. rewrite row_at_nat.
  destruct (row E !! j) as [r|] eqn:Hr;
    [|apply lookup_ge_None in Hr; lia].
  simpl. rewrite store_row_nat.
  destruct (syntax E) as [syn|] eqn:Hsyn.
  - rewrite (comment_seed_at E j r Hidx Hr). simpl.
    destruct (syntax_pass_total stray syn (render r) (seed_at E j)) as [st Hst].
    rewrite Hst. simpl. rewrite store_row_nat.
    set (r' := mkRow (idx r) (chars r) (render r) (sc_hl st) (sc_in_comment st)).
    set (E1 := set_row E (<[j := r']> (row E))).
    assert (Htext : map text_of (<[j := r']> (row E)) = map text_of (row E))
      by (by eapply texts_store).
    assert (Hself : current_at stray E1 j).
    { eapply current_at_store_self; [done|].
      unfold row_current. rewrite Hsyn. by exists st. }
    assert (Hbefore : (forall i, (i < j)%nat -> current_at stray E i) ->
                      forall i, (i <= j)%nat -> current_at stray E1 i).
    { intros Hpre i Hi. destruct (decide (i = j)) as [->|]; [done|].
      apply current_at_store_far; [lia..|]. apply Hpre. lia. }
    assert (Hfar : forall i, (S j < i)%nat ->
                             current_at stray E i -> current_at stray E1 i).
    { intros i Hi Hc. apply current_at_store_far; [lia..|done]. }
    rewrite (Hidx j r Hr).
    destruct (negb (hl_open_comment r =? sc_in_comment st)) eqn:Hch; simpl.
    + destruct (Z.ltb_spec (Z.of_nat j + 1) (numrows E)) as [Hnext|Hlast].
      * replace (Z.of_nat j + 1) with (Z.of_nat (S j)) by lia.
        destruct (IH E1 (S j)) as (rows' & Hrun & Htext' & Hcur).
        { by eapply indexed_store. }
        { subst E1. simpl. rewrite length_insert. done. }
        { subst E1. simpl. rewrite length_insert. lia. }
        { subst E1. simpl. rewrite length_insert. lia. }
        exists rows'. split; [exact Hrun|]. split.
        { rewrite Htext'. exact Htext. }
        intros Hpre.
        specialize (Hcur (fun i Hi => Hbefore Hpre i ltac:(lia))).
        intros i [Hi|[Hin Hi]].
        -- apply (Hcur i). left. lia.
        -- apply (Hcur i). destruct (decide (i <= S j)%nat); [by left|].
           right. split; [done|].
           intros m Hm. apply Hfar; [lia|]. apply Hi. lia.
      * exists (<[j := r']> (row E)). split; [done|]. split; [done|].
        intros Hpre i [Hi|[Hin Hi]].
        -- by apply Hbefore.
        -- destruct (decide (i <= j)%nat); [by apply Hbefore|].
           destruct (decide (i = S j)) as [->|]; [lia|].
           apply Hfar; [lia|]. apply Hi. lia.
    + exists (<[j := r']> (row E)). split; [done|]. split; [done|].
      apply negb_false_iff, Z.eqb_eq in Hch.
      intros Hpre i [Hi|[Hin Hi]].
      * by apply Hbefore.
      * destruct (decide (i <= j)%nat); [by apply Hbefore|].
        destruct (decide (i = S j)) as [->|].
        { eapply current_at_store_next; [done| |apply Hi; lia].
          simpl. by rewrite Hch. }
        apply Hfar; [lia|]. apply Hi. lia.
  - set (r' := set_hl r (replicate (length (render r)) HL_NORMAL)).
    exists (<[j := r']> (row E)). split; [done|]. split.
    { by eapply texts_store. }
    assert (Hself : current_at stray (set_row E (<[j := r']> (row E))) j).
    { eapply current_at_store_self; [done|].
      unfold row_current. by rewrite Hsyn. }
    assert (Hany : forall i, i <> j -> current_at stray E i ->
                             current_at stray (set_row E (<[j := r']> (row E))) i).
    { intros i Hi Hc x. simpl. rewrite list_lookup_insert_ne by done.
      intros Hl. specialize (Hc x Hl). unfold row_current in *.
      simpl. by rewrite Hsyn in *. }
    intros Hpre i [Hi|[Hin Hi]].
    + destruct (decide (i = j)) as [->|]; [done|]. apply Hany; [done|].
      apply Hpre. lia.
    + destruct (decide (i = j)) as [->|]; [done|]. apply Hany; [done|].
      destruct (decide (i < j)%nat); [by apply Hpre|]. apply Hi. lia.
Qed.

(** [editorUpdateSyntax] proper. *)
Lemma editorUpdateSyntax_spec (E : editorConfig) (j : nat) :
  indexed E ->
  numrows E <= Z.of_nat (length (row E)) ->
  (j < length (row E))%nat ->
  exists rows',
    editorUpdateSyntax stray E (Z.of_nat j) = Some (set_row E rows')
    /\ map text_of rows' = map text_of (row E)
    /\ ((forall i, (i < j)%nat -> current_at stray E i) ->
        forall i, ((i <= j)%nat
                   \/ (Z.of_nat i < numrows E
                       /\ forall m, (j < m <= i)%nat -> current_at stray E m)) ->
                  current_at stray (set_row E rows') i).
Proof.
  intros. apply editorUpdateSyntax_rec_spec; auto. lia.
Qed.

Lemma texts_length (l l' : list erow) :
  map text_of l = map text_of l' -> length l = length l'.
Proof. intros H. apply (f_equal length) in H. by rewrite !length_map in H. Qed.

Lemma texts_chars (l l' : list erow) :
  map text_of l = map text_of l' -> map chars l = map chars l'.
Proof.
  intros H. apply (f_equal (map (fun t : Z * list ascii * list ascii => t.1.2))) in H.
  by rewrite !map_map in H.
Qed.

Lemma texts_lookup (l l' : list erow) (k : nat) (r' : erow) :
  map text_of l' = map text_of l -> l' !! k = Some r' ->
  exists r, l !! k = Some r /\ text_of r' = text_of r.
Proof.
  intros Ht Hk.
  assert (map text_of l' !! k = Some (text_of r')) as Hm
    by (change (map text_of) with (fmap (M:=list) text_of);
        by rewrite list_lookup_fmap, Hk).
  rewrite Ht in Hm. change (map text_of) with (fmap (M:=list) text_of) in Hm.
  rewrite list_lookup_fmap in Hm.
  destruct (l !! k) as [r|] eqn:Hr; simpl in Hm; [|done].
  exists r. split; [done|]. congruence.
Qed.

Lemma texts_indexed (E E' : editorConfig) :
  indexed E -> map text_of (row E') = map text_of (row E) -> indexed E'.
Proof.
  intros Hidx Ht k r' Hk.
  destruct (texts_lookup _ _ _ _ Ht Hk) as (r & Hr & Heq).
  injection Heq as Hi _ _. rewrite Hi. by apply Hidx.
Qed.



(** Two buffers with the same text, both current, are highlighted alike. *)
Lemma up_to_date_unique (E1 E2 : editorConfig) :
  counted E1 -> same_text E1 E2 ->
  up_to_date stray E1 -> up_to_date stray E2 ->
  map hl (row E1) = map hl (row E2).
Proof.
  intros Hcnt (_ & Hsyn & Hnum & Ht) H1 H2.
  pose proof (texts_length _ _ Ht) as Hlen.
  assert (Hrows : forall j r1 r2,
             row E1 !! j = Some r1 -> row E2 !! j = Some r2 ->
             hl r1 = hl r2
             /\ (is_Some (syntax E1) -> hl_open_comment r1 = hl_open_comment r2)).
  { induction j as [|j IH]; intros r1 r2 Hr1 Hr2.
    - pose proof (lookup_lt_Some _ _ _ Hr1) as Hlt.
      destruct (texts_lookup _ _ _ _ Ht Hr1) as (r & Hr & Heq).
      rewrite Hr2 in Hr. injection Hr as <-. injection Heq as _ _ Hrend.
      specialize (H1 0%nat r1). specialize (H2 0%nat r2).
      unfold row_current in *. rewrite <- Hsyn in H2.
      destruct (syntax E1) as [syn|].
      + destruct H1 as (st1 & Hp1 & Hh1 & Hf1); [done|].
        destruct H2 as (st2 & Hp2 & Hh2 & Hf2); [done|].
        simpl in Hp1, Hp2. rewrite Hrend in Hp1. simplify_eq.
        split; [congruence|]. intros _. congruence.
      + split; [|by intros []]. rewrite H1, H2 by done.
        by rewrite Hrend.
    - pose proof (lookup_lt_Some _ _ _ Hr1) as Hlt.
      destruct (texts_lookup _ _ _ _ Ht Hr1) as (r & Hr & Heq).
      rewrite Hr2 in Hr. injection Hr as <-. injection Heq as _ _ Hrend.
      specialize (H1 (S j) r1). specialize (H2 (S j) r2).
      unfold row_current in *. rewrite <- Hsyn in H2.
      destruct (syntax E1) as [syn|] eqn:Hs.
      + destruct H1 as (st1 & Hp1 & Hh1 & Hf1); [done|].
        destruct H2 as (st2 & Hp2 & Hh2 & Hf2); [done|].
        assert (seed_at E1 (S j) = seed_at E2 (S j)) as Hseed.
        { simpl. destruct (row E1 !! j) as [p1|] eqn:Hp;
            [|apply lookup_ge_None in Hp; lia].
          destruct (row E2 !! j) as [p2|] eqn:Hq;
            [|apply lookup_ge_None in Hq; lia].
          destruct (IH p1 p2 eq_refl eq_refl) as [_ Hflag].
          by rewrite Hflag. }
        rewrite Hseed, Hrend in Hp1. simplify_eq.
        split; [congruence|]. intros _. congruence.
      + split; [|by intros []]. rewrite H1, H2 by done.
        by rewrite Hrend. }
  apply list_eq. intros j.
  change (map hl) with (fmap (M:=list) hl). rewrite !list_lookup_fmap.
  destruct (row E1 !! j) as [r1|] eqn:Hr1, (row E2 !! j) as [r2|] eqn:Hr2;
    simpl.
  - f_equal. by apply (Hrows j).
  - apply lookup_lt_Some in Hr1. apply lookup_ge_None in Hr2. lia.
  - apply lookup_lt_Some in Hr2. apply lookup_ge_None in Hr1. lia.
  - done.
Qed.

(** Replacing the text of row [j] leaves the other rows current as long
    as the row keeps its [hl_open_comment]. *)
Lemma current_at_retext (E : editorConfig) (j i : nat) (r r' : erow) :
  row E !! j = Some r -> hl_open_comment r' = hl_open_comment r ->
  i <> j -> current_at stray E i ->
  current_at stray (set_row E (<[j := r']> (row E))) i.
Proof.
  intros Hr Hf Hne Hc. destruct (decide (i = S j)) as [->|].
  - eapply current_at_store_next; [done|by rewrite Hf|done].
  - by apply current_at_store_far.
Qed.

(** [editorUpdateRow] on row [j]: it returns when the tabs can be
    expanded, the row is rendered afresh, and when the other rows are
    current the rows of the buffer are all current afterwards. *)
Lemma editorUpdateRow_spec (E : editorConfig) (j : nat) (r : erow)
      (rs : list ascii) :
  indexed E -> numrows E <= Z.of_nat (length (row E)) ->
  row E !! j = Some r ->
  expand_tabs (tab_stop E) (chars r) [] = Some rs ->
  exists rows',
    editorUpdateRow stray E (Z.of_nat j) = Some (set_row E rows')
    /\ map text_of rows' = map text_of (<[j := set_render r rs]> (row E))
    /\ ((forall i, i <> j -> current_at stray E i) ->
        forall i, (i <= j)%nat \/ Z.of_nat i < numrows E ->
                  current_at stray (set_row E rows') i).
Proof.
  intros Hidx Hnum Hr Hrs. unfold editorUpdateRow.
  rewrite row_at_nat, Hr. simpl. rewrite Hrs. simpl. rewrite store_row_nat.
  set (E1 := set_row E (<[j := set_render r rs]> (row E))).
  pose proof (lookup_lt_Some _ _ _ Hr) as Hj.
  destruct (editorUpdateSyntax_spec E1 j) as (rows' & Hrun & Ht & Hc).
  - by eapply indexed_store.
  - subst E1. simpl. by rewrite length_insert.
  - subst E1. simpl. by rewrite length_insert.
  - exists rows'. split; [exact Hrun|]. split; [exact Ht|].
    intros Hcur i Hi. apply Hc.
    { intros k Hk. eapply current_at_retext; [done|done|lia|].
      apply Hcur. lia. }
    destruct (decide (i <= j)%nat); [by left|right].
    split; [subst E1; simpl; lia|].
    intros m Hm. eapply current_at_retext; [done|done|lia|]. apply Hcur. lia.
Qed.

Lemma up_to_date_set_dirty (E : editorConfig) (d : Z) :
  up_to_date stray E -> up_to_date stray (set_dirty E d).
Proof. intros H j. exact (H j). Qed.

(** The same after the [chars] of row [j] have been replaced, which is
    what every edit of a row comes to. *)
Lemma edit_row_spec (E E' : editorConfig) (j : nat) (r : erow)
      (cs : list ascii) :
  indexed E -> counted E -> up_to_date stray E ->
  row E !! j = Some r ->
  editorUpdateRow stray (store_row E (Z.of_nat j) (set_chars r cs)) (Z.of_nat j)
  = Some E' ->
  indexed E' /\ counted E' /\ up_to_date stray E'
  /\ tab_stop E' = tab_stop E /\ syntax E' = syntax E
  /\ numrows E' = numrows E /\ dirty E' = dirty E
  /\ map chars (row E') = <[j := cs]> (map chars (row E))
  /\ (forall r', row E' !! j = Some r' -> rendered E' r').
Proof.
  intros Hidx Hcnt Hup Hr Hrun. rewrite store_row_nat in Hrun.
  set (E1 := set_row E (<[j := set_chars r cs]> (row E))) in *.
  pose proof (lookup_lt_Some _ _ _ Hr) as Hj.
  assert (Hr1 : row E1 !! j = Some (set_chars r cs))
    by (subst E1; simpl; by rewrite list_lookup_insert_eq).
  assert (Hidx1 : indexed E1) by (by eapply indexed_store).
  destruct (expand_tabs (tab_stop E1) (chars (set_chars r cs)) [])
    as [rs|] eqn:Hrs.
  2:{ unfold editorUpdateRow in Hrun. rewrite row_at_nat, Hr1 in Hrun.
      cbn [mbind option_bind] in Hrun. by rewrite Hrs in Hrun. }
  destruct (editorUpdateRow_spec E1 j (set_chars r cs) rs)
    as (rows' & Hrun' & Ht & Hc); auto.
  - subst E1. simpl. rewrite length_insert. rewrite Hcnt. lia.
  - assert (Hcur : forall i, i <> j -> current_at stray E1 i).
    { intros i Hi. eapply current_at_retext; [done|done|done|apply Hup]. }
    specialize (Hc Hcur).
    rewrite Hrun' in Hrun. injection Hrun as <-.
    assert (Hlen : length rows' = length (row E)).
    { apply texts_length in Ht. subst E1. simpl in Ht.
      by rewrite !length_insert in Ht. }
    split; [|split; [|split; [|split; [|split; [|split; [|split; [|split]]]]]]];
      try done.
    + intros k x Hk. simpl in Hk.
      destruct (texts_lookup _ _ _ _ Ht Hk) as (y & Hy & Heq).
      injection Heq as Hi _ _. rewrite Hi. subst E1. simpl in Hy.
      destruct (decide (k = j)) as [->|].
      * rewrite list_lookup_insert_eq in Hy
          by (rewrite length_insert; lia).
        injection Hy as <-. simpl. by apply Hidx.
      * rewrite list_lookup_insert_ne in Hy by done.
        rewrite list_lookup_insert_ne in Hy by done. by apply Hidx.
    + unfold counted in *. simpl. by rewrite Hlen.
    + intros i x Hx. apply (Hc i); [|done]. right. simpl in *.
      apply lookup_lt_Some in Hx. rewrite Hcnt. lia.
    + simpl. rewrite (texts_chars _ _ Ht). subst E1. simpl.
      rewrite list_insert_insert_eq.
      change (map chars) with (fmap (M:=list) chars).
      by rewrite list_fmap_insert.
    + intros r' Hr'. simpl in Hr'.
      destruct (texts_lookup _ _ _ _ Ht Hr') as (y & Hy & Heq).
      subst E1. simpl in Hy. rewrite list_insert_insert_eq in Hy.
      rewrite list_lookup_insert_eq in Hy by done. injection Hy as <-.
      injection Heq as _ Hch Hre. unfold rendered. simpl in *.
      by rewrite Hch, Hre.
Qed.

(** With a positive tab stop that call does return. *)
Lemma edit_row_total (E : editorConfig) (j : nat) (r : erow) (cs : list ascii) :
  indexed E -> counted E -> 0 < tab_stop E ->
  row E !! j = Some r ->
  is_Some (editorUpdateRow stray (store_row E (Z.of_nat j) (set_chars r cs))
                           (Z.of_nat j)).
Proof.
  intros Hidx Hcnt Hts Hr. rewrite store_row_nat.
  set (E1 := set_row E (<[j := set_chars r cs]> (row E))).
  pose proof (lookup_lt_Some _ _ _ Hr) as Hj.
  destruct (expand_tabs_total (tab_stop E1) (chars (set_chars r cs)) Hts [])
    as [rs Hrs].
  destruct (editorUpdateRow_spec E1 j (set_chars r cs) rs)
    as (rows' & Hrun' & _).
  - by eapply indexed_store.
  - subst E1. simpl. rewrite length_insert. rewrite Hcnt. lia.
  - subst E1; simpl; by rewrite list_lookup_insert_eq.
  - done.
  - by rewrite Hrun'.
Qed.

Lemma row_at_Some (E : editorConfig) (p : Z) (r : erow) :
  row_at E p = Some r ->
  p = Z.of_nat (Z.to_nat p) /\ row E !! Z.to_nat p = Some r.
Proof.
  unfold row_at. destruct (Z.ltb_spec p 0); [done|]. intros Hl.
  split; [lia|done].
Qed.

Lemma apply_edit_spec (E E' : editorConfig) (e : edit) :
  indexed E -> counted E -> up_to_date stray E ->
  apply_edit stray E e = Some E' ->
  indexed E' /\ counted E' /\ up_to_date stray E'
  /\ tab_stop E' = tab_stop E /\ syntax E' = syntax E
  /\ numrows E' = numrows E.
Proof.
  intros Hidx Hcnt Hup Hrun.
  destruct e as [p at_ c|p at_|p s]; simpl in Hrun.
  - unfold editorRowInsertChar in Hrun.
    destruct (row_at E p) as [r|] eqn:Hr; [|done]. simpl in Hrun.
    apply row_at_Some in Hr as [Hp Hr].
    case_match; [done|].
    match type of Hrun with
    | context [editorUpdateRow _ ?X _] =>
        destruct (editorUpdateRow stray X p) as [E1|] eqn:Hu; [|done]
    end.
    simpl in Hrun. injection Hrun as <-. rewrite Hp in Hu.
    destruct (edit_row_spec _ _ _ _ _ Hidx Hcnt Hup Hr Hu)
      as (?&?&?&?&?&?&_).
    repeat split; auto using up_to_date_set_dirty.
  - unfold editorRowDelChar in Hrun.
    destruct (row_at E p) as [r|] eqn:Hr; [|done]. simpl in Hrun.
    apply row_at_Some in Hr as [Hp Hr].
    case_match; [by injection Hrun as <-|].
    match type of Hrun with
    | context [editorUpdateRow _ ?X _] =>
        destruct (editorUpdateRow stray X p) as [E1|] eqn:Hu; [|done]
    end.
    simpl in Hrun. injection Hrun as <-. rewrite Hp in Hu.
    destruct (edit_row_spec _ _ _ _ _ Hidx Hcnt Hup Hr Hu)
      as (?&?&?&?&?&?&_).
    repeat split; auto using up_to_date_set_dirty.
  - unfold editorRowAppendString in Hrun.
    destruct (row_at E p) as [r|] eqn:Hr; [|done]. simpl in Hrun.
    apply row_at_Some in Hr as [Hp Hr].
    match type of Hrun with
    | context [editorUpdateRow _ ?X _] =>
        destruct (editorUpdateRow stray X p) as [E1|] eqn:Hu; [|done]
    end.
    simpl in Hrun. injection Hrun as <-. rewrite Hp in Hu.
    destruct (edit_row_spec _ _ _ _ _ Hidx Hcnt Hup Hr Hu)
      as (?&?&?&?&?&?&_).
    repeat split; auto using up_to_date_set_dirty.
Qed.

Lemma apply_edits_spec (es : list edit) :
  forall E E',
    indexed E -> counted E -> up_to_date stray E ->
    apply_edits stray E es = Some E' ->
    indexed E' /\ counted E' /\ up_to_date stray E'
    /\ tab_stop E' = tab_stop E /\ syntax E' = syntax E
    /\ numrows E' = numrows E.
Proof.
  induction es as [|e es IH]; intros E E' Hidx Hcnt Hup Hrun; simpl in Hrun.
  - injection Hrun as <-. auto 10.
  - destruct (apply_edit stray E e) as [E1|] eqn:He; [|done]. simpl in Hrun.
    destruct (apply_edit_spec _ _ _ Hidx Hcnt Hup He) as (?&?&?&?&?&?).
    destruct (IH _ _ ltac:(done) ltac:(done) ltac:(done) Hrun)
      as (?&?&?&?&?&?).
    repeat split; auto; congruence.
Qed.

End Cascade.

(** ** Row insertion *)

Section Insert.

Variable stray : ascii.
Variable junk : Z.

Lemma rows_opened_lookup (E : editorConfig) (at_ : Z) (s : list ascii)
      (i : nat) (x : erow) :
  0 <= at_ <= Z.of_nat (length (row E)) ->
  rows_opened junk E at_ s !! i = Some x ->
  ((i < Z.to_nat at_)%nat /\ row E !! i = Some x)
  \/ (i = Z.to_nat at_ /\ idx x = at_ /\ chars x = s)
  \/ ((Z.to_nat at_ < i)%nat
      /\ exists r, row E !! (i - 1)%nat = Some r /\ x = set_idx r (idx r + 1)).
Proof.
  intros Hat. unfold rows_opened.
  set (k := Z.to_nat at_).
  assert (length (take k (row E)) = k) as Hlen
    by (rewrite length_take; lia).
  rewrite lookup_app, Hlen.
  destruct (take k (row E) !! i) as [y|] eqn:Hy.
  - intros [= <-]. left. apply lookup_take_Some in Hy. tauto.
  - apply lookup_ge_None in Hy. rewrite Hlen in Hy.
    destruct (i - k)%nat as [|d] eqn:Hd; simpl.
    + intros [= <-]. right. left. simpl. split; [lia|done].
    + change (map ?f) with (fmap (M:=list) f). rewrite list_lookup_fmap, lookup_drop.
      destruct (row E !! (k + d)%nat) as [r|] eqn:Hr; simpl; [|done].
      intros [= <-]. right. right. split; [lia|].
      exists r. split; [|done]. by replace (i - 1)%nat with (k + d)%nat by lia.
Qed.

Lemma rows_opened_indexed (E : editorConfig) (at_ : Z) (s : list ascii) :
  indexed E -> 0 <= at_ <= Z.of_nat (length (row E)) ->
  indexed (set_row E (rows_opened junk E at_ s)).
Proof.
  intros Hidx Hat i x Hx. simpl in Hx.
  destruct (rows_opened_lookup _ _ _ _ _ Hat Hx)
    as [[Hi Hr]|[(-> & Hi & _)|(Hi & r & Hr & ->)]].
  - by apply Hidx.
  - lia.
  - simpl. rewrite (Hidx _ _ Hr). lia.
Qed.

Lemma rows_opened_length (E : editorConfig) (at_ : Z) (s : list ascii) :
  0 <= at_ <= Z.of_nat (length (row E)) ->
  length (rows_opened junk E at_ s) = S (length (row E)).
Proof.
  intros Hat. unfold rows_opened.
  rewrite length_app, length_take. simpl. rewrite length_map, length_drop. lia.
Qed.

Lemma rows_opened_chars (E : editorConfig) (at_ : Z) (s : list ascii) :
  map chars (rows_opened junk E at_ s)
  = take (Z.to_nat at_) (map chars (row E))
    ++ s :: drop (Z.to_nat at_) (map chars (row E)).
Proof.
  unfold rows_opened. rewrite map_app. simpl. rewrite map_map. simpl.
  change (map ?f) with (fmap (M:=list) f).
  by rewrite fmap_take, fmap_drop.
Qed.

(** [editorInsertRow] with [at] in range.  It returns; the row array is
    the opened one, the new row rendered and the highlighter run from it. *)
Lemma editorInsertRow_spec (E : editorConfig) (at_ : Z) (s rs : list ascii) :
  indexed E -> counted E -> numrows E < 65535 ->
  0 <= at_ <= numrows E ->
  expand_tabs (tab_stop E) s [] = Some rs ->
  let k := Z.to_nat at_ in
  let Em := set_row E (rows_opened junk E at_ s) in
  exists rows' fresh,
    editorInsertRow stray junk E at_ s
    = Some (set_dirty (set_numrows (set_row E rows') (numrows E + 1))
                      (ushort (dirty E + 1)))
    /\ row Em !! k = Some fresh /\ chars fresh = s
    /\ map text_of rows' = map text_of (<[k := set_render fresh rs]> (row Em))
    /\ ((forall i, i <> k -> current_at stray Em i) ->
        forall i, (i <= k)%nat \/ Z.of_nat i < numrows E ->
                  current_at stray (set_row E rows') i).
Proof.
  intros Hidx Hcnt Hmax Hat Hrs k Em. unfold editorInsertRow.
  destruct (Z.ltb_spec at_ 0); [lia|].
  destruct (Z.ltb_spec (numrows E) at_); [lia|]. simpl.
  fold Em.
  rewrite Hcnt in Hat.
  assert (Hfresh : exists fresh, row Em !! k = Some fresh /\ chars fresh = s).
  { subst Em. simpl. unfold rows_opened. fold k.
    eexists. split.
    - rewrite lookup_app_r by (rewrite length_take; lia).
      rewrite length_take. replace (k - k `min` length (row E))%nat with 0%nat by lia.
      reflexivity.
    - reflexivity. }
  destruct Hfresh as (fresh & Hf & Hs).
  destruct (editorUpdateRow_spec stray Em k fresh rs)
    as (rows' & Hrun & Ht & Hc).
  - by apply rows_opened_indexed.
  - subst Em. simpl. rewrite rows_opened_length by done. rewrite Hcnt. lia.
  - exact Hf.
  - by rewrite Hs.
  - replace (Z.of_nat k) with at_ in Hrun by (subst k; lia).
    rewrite Hrun. simpl. exists rows', fresh.
    split; [|done]. unfold ushort at 1.
    rewrite Z.mod_small by (unfold counted in Hcnt; lia).
    reflexivity.
Qed.

End Insert.


Lemma initEditor_indexed : indexed initEditor.
Proof. intros k r Hk. by destruct k. Qed.



(** ** Loading *)

Section Load.

Variable stray : ascii.
Variable junk : Z.

Lemma current_at_ext (E E' : editorConfig) (i : nat) :
  row E' = row E -> syntax E' = syntax E ->
  current_at stray E i -> current_at stray E' i.
Proof.
  intros Hr Hs Hc x Hx. unfold current_at, row_current, seed_at in *.
  rewrite Hr in *. rewrite Hs. by apply Hc.
Qed.

Lemma rows_opened_end (E : editorConfig) (s : list ascii) :
  counted E ->
  rows_opened junk E (numrows E) s
  = row E ++ [mkRow (numrows E) s [] [] junk].
Proof.
  intros Hcnt. unfold rows_opened. rewrite Hcnt, Nat2Z.id.
  rewrite firstn_all, drop_all, lookup_ge_None_2 by lia. done.
Qed.

(** Appending a row, which is all that loading does, keeps the buffer
    numbered, counted and current. *)
Lemma editorInsertRow_end (E : editorConfig) (s : list ascii) :
  indexed E -> counted E -> numrows E < 65535 -> 0 < tab_stop E ->
  exists E',
    editorInsertRow stray junk E (numrows E) s = Some E'
    /\ indexed E' /\ counted E' /\ numrows E' = numrows E + 1
    /\ tab_stop E' = tab_stop E /\ syntax E' = syntax E
    /\ map chars (row E') = map chars (row E) ++ [s]
    /\ (up_to_date stray E -> up_to_date stray E').
Proof.
  intros Hidx Hcnt Hmax Hts.
  assert (Hat : 0 <= numrows E <= numrows E)
    by (unfold counted in Hcnt; lia).
  destruct (expand_tabs_total (tab_stop E) s Hts []) as [rs Hrs].
  destruct (editorInsertRow_spec stray junk E (numrows E) s rs
              Hidx Hcnt Hmax Hat Hrs)
    as (rows' & fresh & Hrun & Hf & Hs & Ht & Hc).
  assert (Hat' : 0 <= numrows E <= Z.of_nat (length (row E)))
    by (unfold counted in Hcnt; lia).
  pose proof (texts_length _ _ Ht) as Hlen.
  rewrite length_insert in Hlen. simpl in Hlen.
  rewrite rows_opened_length in Hlen by done.
  eexists. split; [exact Hrun|]. simpl.
  split; [|split; [|split; [|split; [|split; [|split]]]]]; try done.
  - apply (texts_indexed
             (set_row E (<[Z.to_nat (numrows E) := set_render fresh rs]>
                           (rows_opened junk E (numrows E) s)))); [|exact Ht].
    eapply (indexed_store (set_row E (rows_opened junk E (numrows E) s)));
      [by apply rows_opened_indexed|exact Hf|done].
  - unfold counted in *. simpl. rewrite Hlen, Hcnt. lia.
  - rewrite (texts_chars _ _ Ht). simpl.
    change (map chars) with (fmap (M:=list) chars).
    rewrite list_fmap_insert. simpl.
    rewrite list_insert_id by (rewrite list_lookup_fmap; simpl in Hf; by rewrite Hf).
    rewrite rows_opened_end by done. by rewrite fmap_app.
  - intros Hup i.
    eapply (current_at_ext (set_row E rows')); [done|done|].
    destruct (decide (i <= Z.to_nat (numrows E))%nat) as [Hi|Hi].
    2:{ intros x Hx. simpl in Hx. apply lookup_lt_Some in Hx.
        unfold counted in Hcnt. lia. }
    apply Hc; [|by left].
    intros m Hm x. simpl. rewrite rows_opened_end by done.
    unfold counted in Hcnt.
    destruct (decide (m < length (row E))%nat) as [Hlt|Hge].
    + rewrite lookup_app_l by done. intros Hx.
      specialize (Hup m x Hx). unfold row_current in *. simpl.
      assert (seed_at (set_row E (row E ++ [mkRow (numrows E) s [] [] junk])) m
              = seed_at E m) as ->; [|done].
      destruct m as [|m]; simpl; [done|]. by rewrite lookup_app_l by lia.
    + rewrite lookup_ge_None_2; [done|]. rewrite length_app. simpl. lia.
Qed.

Lemma insert_lines_spec (lines : list (list ascii)) :
  forall E,
    indexed E -> counted E ->
    numrows E + Z.of_nat (length lines) < 65536 -> 0 < tab_stop E ->
    exists E',
      insert_lines stray junk lines E = Some E'
      /\ indexed E' /\ counted E'
      /\ tab_stop E' = tab_stop E /\ syntax E' = syntax E
      /\ map chars (row E') = map chars (row E) ++ map strip_eol lines
      /\ (up_to_date stray E -> up_to_date stray E').
Proof.
  induction lines as [|line lines IH]; intros E Hidx Hcnt Hmax Hts; simpl.
  - exists E. rewrite app_nil_r. auto 10.
  - simpl in Hmax.
    destruct (editorInsertRow_end E (strip_eol line))
      as (E1 & Hrun & Hidx1 & Hcnt1 & Hn1 & Hts1 & Hsyn1 & Hch1 & Hup1);
      [done|done|lia|done|].
    rewrite Hrun. simpl.
    destruct (IH E1) as (E' & Hrun' & ? & ? & Hts' & Hsyn' & Hch' & Hup');
      [done|done|lia|lia|].
    exists E'. split; [exact Hrun'|].
    split; [done|]. split; [done|]. split; [congruence|]. split; [congruence|].
    split; [|auto]. rewrite Hch', Hch1, <- app_assoc. done.
Qed.

Lemma getlines_line (l rest cur : list ascii) :
  LF ∉ l ->
  getlines (l ++ LF :: rest) cur = (cur ++ l ++ [LF]) :: getlines rest [].
Proof.
  revert cur. induction l as [|c l IH]; intros cur Hl; simpl.
  - done.
  - apply not_elem_of_cons in Hl as [Hc Hl].
    destruct (Ascii.eqb_spec c LF) as [->|_]; [done|].
    rewrite IH by done. by rewrite <- app_assoc.
Qed.

(** What [editorRowsToString] writes is read back line by line. *)
Lemma getlines_rows (ls : list (list ascii)) :
  Forall (fun l => LF ∉ l) ls ->
  getlines (concat (map (fun l => l ++ [LF]) ls)) []
  = map (fun l => l ++ [LF]) ls.
Proof.
  induction 1 as [|l ls Hl _ IH]; simpl; [done|].
  rewrite <- app_assoc. simpl. rewrite getlines_line by done.
  by rewrite IH.
Qed.

Lemma strip_eol_line (l : list ascii) :
  storable l -> strip_eol (l ++ [LF]) = l.
Proof.
  intros [Hlf Hcr]. unfold strip_eol. rewrite rev_app_distr. simpl.
  destruct (rev l) as [|c rl] eqn:Hrev; simpl.
  - by rewrite <- (rev_involutive l), Hrev.
  - assert (l = rev rl ++ [c]) as Hl
      by (by rewrite <- (rev_involutive l), Hrev).
    destruct (Ascii.eqb_spec c LF) as [->|_].
    { exfalso. apply Hlf. rewrite Hl. apply elem_of_app. right.
      by apply list_elem_of_singleton. }
    destruct (Ascii.eqb_spec c CR) as [->|_].
    { exfalso. apply Hcr. rewrite Hl. by rewrite last_snoc. }
    simpl. by rewrite Hl.
Qed.

(** A buffer that [editorOpen] has filled from empty is numbered, counted
    and current. *)
Lemma editorOpen_spec (E0 E : editorConfig) (fp : list ascii) :
  row E0 = [] -> numrows E0 = 0 -> 0 < tab_stop E0 ->
  Z.of_nat (length (getlines fp [])) < 65536 ->
  editorOpen stray junk E0 fp = Some E ->
  indexed E /\ counted E /\ up_to_date stray E.
Proof.
  intros Hr0 Hn0 Hts Hlen Hrun. unfold editorOpen in Hrun.
  destruct (insert_lines_spec (getlines fp []) E0)
    as (E' & Hrun' & Hidx & Hcnt & _ & _ & _ & Hup).
  - intros k r. by rewrite Hr0.
  - unfold counted. by rewrite Hr0, Hn0.
  - lia.
  - done.
  - rewrite Hrun' in Hrun. simpl in Hrun. injection Hrun as <-.
    split; [exact Hidx|]. split; [exact Hcnt|].
    apply up_to_date_set_dirty, Hup. intros j r. by rewrite Hr0.
Qed.

End Load.

(** ** The cascade and the rows below *)

(** The two keystrokes of [c_edits] open a comment on row 0, and the
    propagation recolours row 1. *)
Example c_edited_rows :
  map hl (row c_loaded)
  = [[HL_NORMAL]; [HL_NORMAL; HL_NORMAL; HL_NORMAL; HL_NORMAL]]
  /\ map hl (row c_edited)
     = [[HL_MLCOMMENT; HL_MLCOMMENT; HL_COMMENT];
        [HL_COMMENT; HL_COMMENT; HL_MLCOMMENT; HL_MLCOMMENT]].
Proof. split; vm_compute; reflexivity. Qed.

(** C1. The propagation does not always reach the rows below.  Both
    files load into a buffer that a pass over all the rows leaves as it
    is.  Enter on column 3 of the first row of [split_file] makes [/* b] a
    row of its own: [editorInsertRow] runs [editorUpdateRow] on the new
    row before it counts it in [E.numrows], the test
    [row->idx + 1 < E.numrows] fails for it, and the row [y] below keeps
    [HL_NORMAL] where a pass over all the rows from row 0 gives
    [HL_COMMENT].  Backspace at the head of the second row of [join_file]
    moves its [/*] behind the quote of the first row, whose
    [hl_open_comment] does not change, and [editorDelRow] removes the row
    without running the highlighter: the row [c] keeps [HL_COMMENT] where
    a pass over all the rows gives [HL_NORMAL]. *)
Theorem cascade_misses_rows (stray : ascii) (junk : Z) :
  (exists E0 E1 E2,
      editorOpen stray junk initEditor_c split_file = Some E0
      /\ highlight_all stray E0 = Some E0
      /\ editorInsertNewLine stray junk (set_cursor E0 3 0 0) = Some E1
      /\ map chars (row E1) = [[DQUOTE; "a"; " "]%char; cstr "/* b"; cstr "y"]
      /\ map hl (row E1)
         = [[HL_STRING; HL_STRING; HL_STRING];
            [HL_MLCOMMENT; HL_MLCOMMENT; HL_COMMENT; HL_COMMENT];
            [HL_NORMAL]]
      /\ highlight_all stray E1 = Some E2
      /\ map hl (row E2)
         = [[HL_STRING; HL_STRING; HL_STRING];
            [HL_MLCOMMENT; HL_MLCOMMENT; HL_COMMENT; HL_COMMENT];
            [HL_COMMENT]])
  /\ (exists E0 E1 E2,
         editorOpen stray junk initEditor_c join_file = Some E0
         /\ highlight_all stray E0 = Some E0
         /\ editorDelChar stray (set_cursor E0 0 1 0) = Some E1
         /\ map chars (row E1) = [DQUOTE :: cstr "/* x"; cstr "c"]
         /\ map hl (row E1)
            = [[HL_STRING; HL_STRING; HL_STRING; HL_STRING; HL_STRING];
               [HL_COMMENT]]
         /\ highlight_all stray E1 = Some E2
         /\ map hl (row E2)
            = [[HL_STRING; HL_STRING; HL_STRING; HL_STRING; HL_STRING];
               [HL_NORMAL]]).
Proof.
  split.
  - destruct junk as [|[p|p|]|p]; eexists _, _, _;
      (split; [vm_compute; reflexivity|]);
      (split; [vm_compute; reflexivity|]);
      (split; [vm_compute; reflexivity|]);
      (split; [vm_compute; reflexivity|]);
      (split; [vm_compute; reflexivity|]);
      (split; [vm_compute; reflexivity|]); vm_compute; reflexivity.
  - destruct junk as [|[p|p|]|p]; eexists _, _, _;
      (split; [vm_compute; reflexivity|]);
      (split; [vm_compute; reflexivity|]);
      (split; [vm_compute; reflexivity|]);
      (split; [vm_compute; reflexivity|]);
      (split; [vm_compute; reflexivity|]);
      (split; [vm_compute; reflexivity|]); vm_compute; reflexivity.
Qed.

(** ** Saving and loading *)

(** C4 (as amended). A buffer whose rows hold no newline and do not end
    in a carriage return.  [editorRowsToString] writes each row's [chars]
    followed by a newline, the last row's too; [editorOpen] on that text,
    from an empty buffer with no syntax profile selected, returns with the
    same row contents in the same order and with [dirty] at zero.  (Under
    a profile every loaded row goes through the scan, whose function-name
    rule can store in front of [hl].) *)
Theorem save_load_roundtrip (stray : ascii) (junk : Z) (E E0 : editorConfig) :
  syntax E0 = None ->
  counted E -> numrows E < 65536 ->
  Forall storable (map chars (row E)) ->
  row E0 = [] -> numrows E0 = 0 -> 0 < tab_stop E0 ->
  editorRowsToString E = concat (map (fun r => chars r ++ [LF]) (row E))
  /\ exists E', editorOpen stray junk E0 (editorRowsToString E) = Some E'
                /\ map chars (row E') = map chars (row E)
                /\ dirty E' = 0.
Proof.
  intros _ Hcnt Hmax Hst Hr0 Hn0 Hts.
  assert (Htxt : editorRowsToString E
                 = concat (map (fun r => chars r ++ [LF]) (row E))).
  { unfold editorRowsToString. rewrite Hcnt, Nat2Z.id. by rewrite firstn_all. }
  split; [exact Htxt|].
  unfold editorOpen. rewrite Htxt.
  replace (map (fun r => chars r ++ [LF]) (row E))
    with (map (fun l => l ++ [LF]) (map chars (row E)))
    by (by rewrite map_map).
  rewrite getlines_rows.
  2:{ eapply Forall_impl; [exact Hst|]. by intros l [? _]. }
  destruct (insert_lines_spec stray junk
              (map (fun l => l ++ [LF]) (map chars (row E))) E0)
    as (E' & Hrun & _ & _ & _ & _ & Hch & _).
  - intros k r. by rewrite Hr0.
  - unfold counted. by rewrite Hr0, Hn0.
  - rewrite !length_map. unfold counted in Hcnt. lia.
  - done.
  - rewrite Hrun. simpl. eexists. split; [done|]. simpl. split; [|done].
    rewrite Hch, Hr0. simpl. rewrite map_map.
    clear -Hst. induction Hst as [|l ls Hl _ IH]; simpl; [done|].
    by rewrite strip_eol_line, IH.
Qed.

Lemma save_load_roundtrip_witness :
  exists E', editorOpen NUL 0 initEditor (editorRowsToString buffer_ab) = Some E'
             /\ map chars (row E') = [cstr "ab"; []]
             /\ dirty E' = 0.
Proof.
  destruct (save_load_roundtrip NUL 0 buffer_ab initEditor) as [_ H].
  - reflexivity.
  - reflexivity.
  - simpl; lia.
  - repeat constructor; simpl; try discriminate.
    + intros H. repeat (apply elem_of_cons in H as [H|H]; [discriminate|]).
      by apply elem_of_nil in H.
    + intros H. by apply elem_of_nil in H.
  - reflexivity.
  - reflexivity.
  - simpl; lia.
  - exact H.
Defined.

(** [buffer_cr] is a buffer the editor gets to. *)
Lemma buffer_cr_reached :
  (E1 ← editorInsertRow NUL 0 initEditor 0 (cstr "ab");
   E2 ← editorRowDelChar NUL E1 0 1;
   editorRowInsertChar NUL E2 0 1 13) = Some buffer_cr.
Proof. reflexivity. Qed.

(** C4 as stated fails: a row that ends in a carriage return comes back
    from the file without it. *)
Lemma save_load_drops_cr :
  exists E', editorOpen NUL 0 initEditor (editorRowsToString buffer_cr) = Some E'
             /\ map chars (row E') = [cstr "a"]
             /\ map chars (row E') <> map chars (row buffer_cr).
Proof. eexists. split; [reflexivity|]. split; [reflexivity|]. discriminate. Qed.

(** ** Coordinates *)

Lemma cx_to_rx_loop_app (ts : Z) (cs : list ascii) (n m : nat) :
  forall j rx,
    cx_to_rx_loop ts cs j (n + m) rx
    = cx_to_rx_loop ts cs j n rx ≫= cx_to_rx_loop ts cs (j + n) m.
Proof.
  induction n as [|n IH]; intros j rx; simpl.
  - by rewrite Nat.add_0_r.
  - replace (j + S n)%nat with (S j + n)%nat by lia.
    repeat case_match; try done; apply IH.
Qed.

Lemma cx_to_rx_loop_grows (ts : Z) (cs : list ascii) (n : nat) :
  0 < ts ->
  forall j rx, 0 <= rx ->
    exists rx', cx_to_rx_loop ts cs j n rx = Some rx' /\ rx <= rx'.
Proof.
  intros Hts. induction n as [|n IH]; intros j rx Hrx; simpl.
  - exists rx. split; [done|lia].
  - pose proof (Z.rem_bound_pos rx ts Hrx Hts) as Hrem.
    destruct (Ascii.eqb (nth j cs NUL) TAB).
    + destruct (Z.eqb_spec ts 0); [lia|].
      destruct (IH (S j) (rx + (ts - 1 - Z.rem rx ts) + 1)) as (rx' & -> & ?);
        [lia|].
      exists rx'. split; [done|lia].
    + destruct (IH (S j) (rx + 1)) as (rx' & -> & ?); [lia|].
      exists rx'. split; [done|lia].
Qed.

(** C8. With a positive tab stop, [editorRowCxToRx] does not decrease as
    [cx] grows within the row.  It starts from 0 and scans the bytes in
    front of [cx]: a tab takes the column to the next multiple of the tab
    stop, any other byte takes it one further. *)
Theorem raw_to_rendered_monotone (E : editorConfig) (r : erow) :
  0 < tab_stop E ->
  (forall cx1 cx2, 0 <= cx1 <= cx2 -> cx2 <= size r ->
     exists rx1 rx2,
       editorRowCxToRx E r cx1 = Some rx1
       /\ editorRowCxToRx E r cx2 = Some rx2 /\ rx1 <= rx2)
  /\ editorRowCxToRx E r 0 = Some 0
  /\ (forall cx_ c, 0 <= cx_ -> chars r !! Z.to_nat cx_ = Some c ->
        exists rx,
          editorRowCxToRx E r cx_ = Some rx /\ 0 <= rx
          /\ editorRowCxToRx E r (cx_ + 1)
             = Some (if Ascii.eqb c TAB
                     then tab_stop E * (rx / tab_stop E + 1)
                     else rx + 1)).
Proof.
  intros Hts. unfold editorRowCxToRx. split; [|split].
  - intros cx1 cx2 H12 _.
    replace (Z.to_nat cx2) with (Z.to_nat cx1 + Z.to_nat (cx2 - cx1))%nat by lia.
    rewrite cx_to_rx_loop_app.
    destruct (cx_to_rx_loop_grows (tab_stop E) (chars r) (Z.to_nat cx1) Hts
                                  0%nat 0) as (rx1 & H1 & Hp); [lia|].
    rewrite H1. simpl.
    destruct (cx_to_rx_loop_grows (tab_stop E) (chars r)
                                  (Z.to_nat (cx2 - cx1)) Hts
                                  (Z.to_nat cx1) rx1) as (rx2 & H2 & Hle);
      [lia|].
    exists rx1, rx2. auto.
  - reflexivity.
  - intros cx_ c Hcx Hc.
    destruct (cx_to_rx_loop_grows (tab_stop E) (chars r) (Z.to_nat cx_) Hts
                                  0%nat 0) as (rx & H1 & Hp); [lia|].
    exists rx. split; [done|]. split; [done|].
    replace (Z.to_nat (cx_ + 1)) with (Z.to_nat cx_ + 1)%nat by lia.
    rewrite cx_to_rx_loop_app, H1. simpl.
    rewrite (nth_lookup_Some _ _ NUL _ Hc).
    destruct (Ascii.eqb c TAB); [|done].
    destruct (Z.eqb_spec (tab_stop E) 0); [lia|]. f_equal.
    rewrite Z.rem_mod_nonneg by lia.
    pose proof (Z.div_mod rx (tab_stop E) ltac:(lia)). lia.
Qed.

Lemma raw_to_rendered_monotone_witness :
  exists rx1 rx2,
    editorRowCxToRx initEditor (mkRow 0 [TAB; "a"%char] [] [] 0) 1 = Some rx1
    /\ editorRowCxToRx initEditor (mkRow 0 [TAB; "a"%char] [] [] 0) 2 = Some rx2
    /\ rx1 <= rx2.
Proof.
  destruct (raw_to_rendered_monotone initEditor (mkRow 0 [TAB; "a"%char] [] [] 0))
    as [Hmono _].
  - simpl; lia.
  - apply (Hmono 1 2); [lia|]. unfold size. simpl. lia.
Defined.

(** ** The key decoder *)

Ltac neq_to_eqb :=
  repeat match goal with
         | H : _ ∉ _ :: _ |- _ => apply not_elem_of_cons in H as [? H]
         | H : _ ∉ [] |- _ => clear H
         | H : _ <> _ :> ascii |- _ => apply Ascii.eqb_neq in H
         end.

Lemma decode_escape_key (lic : Z) (rest : list read_result) :
  exists k rest', decode_escape lic rest = Key k lic rest' /\ k ∈ escape_keys.
Proof.
  unfold decode_escape, read1, escape_keys.
  repeat case_match; simplify_eq;
    eexists _, _; (split; [reflexivity|]);
    unfold ARROW_UP, ARROW_DOWN, ARROW_RIGHT, ARROW_LEFT, HOME_KEY, END_KEY,
      DEL_KEY, PAGE_UP, PAGE_DOWN;
    repeat (first [apply list_elem_of_here | apply list_elem_of_further]).
Qed.

Lemma decode_escape_malformed (lic : Z) (rest : list read_result) :
  malformed rest -> exists rest', decode_escape lic rest = Key 27 lic rest'.
Proof.
  intros Hm. unfold decode_escape, read1.
  inversion Hm; subst; neq_to_eqb;
    repeat match goal with
           | r : read_result, H : no_byte ?r |- _ => destruct r; [done| |]
           end;
    simpl;
    repeat match goal with
           | H : _ = _ :> bool |- _ => rewrite H; clear H
           end;
    simpl; eauto.
Qed.

(** C9. Whatever the terminal sends after the byte 0x1b, and whatever
    [read] returns, [editorReadKey] returns a key: it neither dies nor
    waits.  The key is Escape or one of the arrow, Home, End, Delete and
    Page keys, and it is Escape when what follows is malformed. *)
Theorem escape_never_fails (lic : Z) (rest : list read_result) :
  exists k rest',
    editorReadKey lic (Got ESC :: rest) = Key k lic rest'
    /\ k ∈ escape_keys
    /\ (malformed rest -> k = 27).
Proof.
  change (editorReadKey lic (Got ESC :: rest)) with (decode_escape lic rest).
  destruct (decode_escape_key lic rest) as (k & rest' & Hk & Hin).
  exists k, rest'. split; [done|]. split; [done|].
  intros Hm. destruct (decode_escape_malformed lic rest Hm) as (r & Hr).
  congruence.
Qed.

Lemma escape_never_fails_witness :
  exists k rest',
    editorReadKey 0 [Got ESC; Got "["%char; Got "9"%char; Got "~"%char]
    = Key k 0 rest'
    /\ k = 27.
Proof.
  destruct (escape_never_fails 0 [Got "["%char; Got "9"%char; Got "~"%char])
    as (k & rest' & Hk & _ & Hm).
  exists k, rest'. split; [exact Hk|]. apply Hm.
  apply digit_unmapped; [reflexivity|].
  repeat (apply not_elem_of_cons; split; [discriminate|]).
  apply not_elem_of_nil.
Defined.

(** ** Inserting a character *)

Lemma tab_fill_length (ts : Z) (fuel : nat) :
  forall out out', tab_fill fuel ts out = Some out' ->
                   (length out <= length out')%nat.
Proof.
  induction fuel as [|fuel IH]; intros out out'; simpl; case_match;
    intros Hf; simplify_eq; try lia.
  apply IH in Hf. rewrite length_app in Hf. simpl in Hf. lia.
Qed.

Lemma expand_tabs_length (ts : Z) (cs : list ascii) :
  forall out rs, expand_tabs ts cs out = Some rs ->
                 (length out + length cs <= length rs)%nat.
Proof.
  induction cs as [|c cs IH]; intros out rs; simpl.
  - intros [= <-]. lia.
  - repeat case_match; try done.
    + destruct (tab_fill (Z.to_nat ts) ts (out ++ [" "%char])) as [out'|] eqn:Hf;
        [|done].
      simpl. intros Hrs. apply IH in Hrs. apply tab_fill_length in Hf.
      rewrite length_app in Hf. simpl in Hf. lia.
    + intros Hrs. apply IH in Hrs. rewrite length_app in Hrs. simpl in Hrs. lia.
Qed.

Lemma rendered_size (E : editorConfig) (r : erow) :
  rendered E r -> size r <= rsize r.
Proof.
  intros Hr. apply expand_tabs_length in Hr. unfold size, rsize.
  simpl in Hr. lia.
Qed.

(** C6 (as amended). A row of a numbered, counted, current buffer with
    no syntax profile selected and a positive tab stop, rendered from its
    [chars].  For [0 <= at <= size] [editorRowInsertChar] inserts the
    character at [at]; for [at < 0] and for [at > rsize] it takes the
    position [rsize], which for a row whose [rsize] is its [size] is the
    end of the row.  The content is then one longer, the character sits at
    that position with the others in their order around it, the other rows
    keep theirs, [render] and the highlighting are derived again and
    [dirty] is one more, modulo 2^16.  (Under a profile the row goes
    through the scan, whose function-name rule can store in front of
    [hl].) *)
Theorem insert_char_position (stray : ascii) (E : editorConfig) (j : nat)
        (r : erow) (at_ c p : Z) :
  syntax E = None ->
  indexed E -> counted E -> up_to_date stray E -> 0 < tab_stop E ->
  row E !! j = Some r -> rendered E r ->
  (0 <= at_ <= size r /\ p = at_)
  \/ ((at_ < 0 \/ rsize r < at_) /\ rsize r = size r /\ p = size r) ->
  exists E' r',
    editorRowInsertChar stray E (Z.of_nat j) at_ c = Some E'
    /\ row E' !! j = Some r'
    /\ chars r' = take (Z.to_nat p) (chars r)
                  ++ char_of_int c :: drop (Z.to_nat p) (chars r)
    /\ size r' = size r + 1
    /\ map chars (row E') = <[j := chars r']> (map chars (row E))
    /\ rendered E' r'
    /\ up_to_date stray E'
    /\ dirty E' = ushort (dirty E + 1).
Proof.
  intros _ Hidx Hcnt Hup Hts Hr Hrend Hp.
  pose proof (rendered_size E r Hrend) as Hsz.
  unfold editorRowInsertChar. rewrite row_at_nat, Hr. simpl.
  assert ((if (at_ <? 0) || (rsize r <? at_) then rsize r else at_) = p
          /\ 0 <= p <= size r) as [-> Hpr].
  { destruct Hp as [[Hat ->]|(Hat & Heq & ->)].
    - destruct (Z.ltb_spec at_ 0); [lia|].
      destruct (Z.ltb_spec (rsize r) at_); [lia|]. simpl. lia.
    - unfold size in *.
      destruct (Z.ltb_spec at_ 0); simpl; [lia|].
      destruct (Z.ltb_spec (rsize r) at_); simpl; lia. }
  destruct (Z.ltb_spec (size r + 1) p); [lia|].
  destruct (Z.ltb_spec (size r) p); [lia|].
  set (cs := take (Z.to_nat p) (chars r)
             ++ char_of_int c :: drop (Z.to_nat p) (chars r)).
  destruct (edit_row_total stray E j r cs Hidx Hcnt Hts Hr) as [E1 Hrun].
  rewrite Hrun. simpl.
  destruct (edit_row_spec stray E E1 j r cs Hidx Hcnt Hup Hr Hrun)
    as (Hidx1 & Hcnt1 & Hup1 & Hts1 & Hsyn1 & Hn1 & Hd1 & Hch1 & Hren1).
  assert (Hj : (j < length (row E1))%nat).
  { apply (f_equal length) in Hch1.
    rewrite length_insert, !length_map in Hch1.
    apply lookup_lt_Some in Hr. lia. }
  destruct (lookup_lt_is_Some_2 _ _ Hj) as [r' Hr'].
  assert (Hcs : chars r' = cs).
  { assert (map chars (row E1) !! j = Some (chars r')) as Hm
      by (change (map chars) with (fmap (M:=list) chars);
          by rewrite list_lookup_fmap, Hr').
    rewrite Hch1, list_lookup_insert_eq in Hm
      by (rewrite length_map; by eapply lookup_lt_Some).
    congruence. }
  exists (set_dirty E1 (ushort (dirty E1 + 1))), r'.
  split; [done|]. split; [exact Hr'|]. split; [exact Hcs|].
  split.
  { unfold size. rewrite Hcs. subst cs. rewrite length_app. simpl.
    rewrite length_take, length_drop. unfold size in Hpr. lia. }
  split; [by rewrite Hcs|]. split; [exact (Hren1 r' Hr')|].
  split; [by apply up_to_date_set_dirty|]. simpl. by rewrite Hd1.
Qed.

Lemma buffer_ab_indexed : indexed buffer_ab.
Proof. intros [|[|k]] r Hk; simpl in Hk; by simplify_eq. Qed.

Lemma buffer_ab_up_to_date : up_to_date NUL buffer_ab.
Proof. intros [|[|k]] r Hk; simpl in Hk; by simplify_eq. Qed.

Lemma insert_char_position_witness :
  exists E' r',
    editorRowInsertChar NUL buffer_ab 0 1 120 = Some E'
    /\ row E' !! 0%nat = Some r'
    /\ chars r' = cstr "axb".
Proof.
  destruct (insert_char_position NUL buffer_ab 0
              (mkRow 0 (cstr "ab") (cstr "ab") [HL_NORMAL; HL_NORMAL] 0)
              1 120 1)
    as (E' & r' & Hrun & Hr & Hc & _).
  - reflexivity.
  - exact buffer_ab_indexed.
  - reflexivity.
  - exact buffer_ab_up_to_date.
  - simpl; lia.
  - reflexivity.
  - reflexivity.
  - left. unfold size. simpl. lia.
  - exists E', r'. auto.
Defined.

(** C6 as stated fails: a negative [at] is not clamped to 0, the
    character goes to the end of the row. *)
Lemma insert_char_negative_at :
  exists E',
    editorRowInsertChar NUL buffer_ab 0 (-1) 120 = Some E'
    /\ map chars (row E') = [cstr "abx"; []]
    /\ map chars (row E') <> [cstr "xab"; []].
Proof. eexists. split; [reflexivity|]. split; [reflexivity|]. discriminate. Qed.

(** On a row with a tab [rsize] exceeds [size].  At the position
    [size + 1] the row gets the terminator it had as its last byte; at a
    position beyond, the [memmove] count is negative. *)
Example insert_char_beyond_size :
  exists E1 E2,
    editorInsertRow NUL 0 initEditor 0 [TAB] = Some E1
    /\ editorRowInsertChar NUL E1 0 2 120 = Some E2
    /\ map chars (row E2) = [[TAB; NUL]]
    /\ map render (row E2) = [cstr "    " ++ [NUL]]
    /\ editorRowInsertChar NUL E1 0 3 120 = None.
Proof. eexists _, _. repeat split; reflexivity. Qed.

(** ** Search *)

Lemma rx_to_cx_loop_total (ts : Z) (cs : list ascii) :
  0 < ts -> forall c cur rx, is_Some (rx_to_cx_loop ts cs c cur rx).
Proof.
  intros Hts. induction cs as [|x cs IH]; intros c cur rx; simpl; [eauto|].
  destruct (Z.eqb_spec ts 0); [lia|]. repeat case_match; eauto.
Qed.

Lemma row_contains_ext (E E' : editorConfig) (query : list ascii) (k : Z) :
  map render (row E') = map render (row E) ->
  row_contains E' query k = row_contains E query k.
Proof.
  intros Hr. unfold row_contains, row_at. destruct (k <? 0); [done|].
  assert (render <$> row E' !! Z.to_nat k = render <$> row E !! Z.to_nat k) as H.
  { rewrite <- !list_lookup_fmap. change (fmap (M:=list) render) with (map render).
    by rewrite Hr. }
  destruct (row E' !! Z.to_nat k), (row E !! Z.to_nat k); simpl in H;
    simplify_eq; try done. by rewrite H.
Qed.

Lemma find_ext {A} (f g : A -> bool) (l : list A) :
  (forall x, f x = g x) -> List.find f l = List.find g l.
Proof.
  intros Hfg. induction l as [|x l IH]; simpl; [done|].
  by rewrite Hfg, IH.
Qed.

(** The step of the loop from one row to the next, round the ends. *)
Lemma find_wrap (n dir cur : Z) :
  0 < n -> dir = 1 \/ dir = -1 -> -1 <= cur < n -> (cur = -1 -> dir = 1) ->
  (if cur + dir =? -1 then n - 1
   else if cur + dir =? n then 0 else cur + dir) = (cur + dir) mod n.
Proof.
  intros Hn Hdir Hcur Hm.
  destruct (Z.eqb_spec (cur + dir) (-1)) as [He|Hne].
  - rewrite He. apply (Z.mod_unique (-1) n (-1) (n - 1)); lia.
  - destruct (Z.eqb_spec (cur + dir) n) as [He|Hne'].
    + rewrite He. by rewrite Z.mod_same by lia.
    + rewrite Z.mod_small; [done|]. lia.
Qed.

(** The loop of the callback finds the first row, in probing order from
    [cur], that contains the query. *)
Lemma find_loop_spec (E : editorConfig) (query : list ascii) (dir : Z) (k : nat) :
  counted E -> 0 < numrows E -> dir = 1 \/ dir = -1 ->
  forall cur, -1 <= cur < numrows E -> (cur = -1 -> dir = 1) ->
    exists res,
      find_loop k E query dir cur = Some res
      /\ fst <$> res
         = List.find (row_contains E query)
             (map (fun i => (cur + dir * (Z.of_nat i + 1)) mod numrows E)
                  (seq 0 k)).
Proof.
  intros Hcnt Hn Hdir. induction k as [|k IH]; intros cur Hcur Hm; simpl.
  - by exists None.
  - rewrite (find_wrap (numrows E) dir cur) by done.
    replace (cur + dir * (Z.of_nat 0 + 1)) with (cur + dir) by lia.
    set (c := (cur + dir) mod numrows E).
    pose proof (Z.mod_pos_bound (cur + dir) (numrows E) Hn) as Hc. fold c in Hc.
    unfold row_contains at 1.
    destruct (row_at E c) as [r|] eqn:Hr.
    2:{ unfold row_at in Hr. destruct (Z.ltb_spec c 0); [lia|].
        apply lookup_ge_None in Hr. unfold counted in Hcnt. lia. }
    simpl. destruct (strstr (render r) query) as [off|] eqn:Hs.
    + by exists (Some (c, off)).
    + destruct (IH c) as (res & Hres & Hfind); [lia|lia|].
      exists res. split; [done|]. rewrite Hfind. f_equal.
      rewrite <- seq_shift, map_map. apply map_ext. intros i. subst c.
      rewrite Z.add_mod_idemp_l by lia. f_equal. lia.
Qed.

(** The callback on an arrow key, with a match behind it: the next match
    is the first row in probing order that contains the query; without
    one, the anchor stays. *)
Lemma find_arrow_spec (E : editorConfig) (fs : findState) (query : list ascii)
      (key dir : Z) :
  counted E -> 0 < tab_stop E ->
  0 <= last_match fs < numrows E ->
  (is_Some (saved_hl fs) -> 0 <= saved_hl_line fs < numrows E) ->
  ((key = ARROW_RIGHT \/ key = ARROW_DOWN) /\ dir = 1)
  \/ ((key = ARROW_LEFT \/ key = ARROW_UP) /\ dir = -1) ->
  exists E' fs',
    editorFindCallback E fs query key = Some (E', fs')
    /\ last_match fs'
       = default (last_match fs)
           (List.find (row_contains E query)
                      (probe_order (numrows E) dir (last_match fs))).
Proof.
  intros Hcnt Hts Hlm Hsaved Hkey. unfold editorFindCallback.
  assert (exists E0,
             match saved_hl fs with
             | Some saved =>
                 r ← row_at E (saved_hl_line fs);
                 Some (store_row E (saved_hl_line fs)
                         (set_hl r (memcpy (hl r) saved (rsize r))))
             | None => Some E
             end = Some E0
             /\ numrows E0 = numrows E /\ tab_stop E0 = tab_stop E
             /\ counted E0
             /\ map render (row E0) = map render (row E)) as (E0 & -> & Hn0 & Hts0 & Hcnt0 & Hr0).
  { destruct (saved_hl fs) as [saved|]; [|by exists E].
    destruct (Hsaved ltac:(eauto)) as [Hlo Hhi].
    unfold row_at. destruct (Z.ltb_spec (saved_hl_line fs) 0); [lia|].
    destruct (row E !! Z.to_nat (saved_hl_line fs)) as [r|] eqn:Hr.
    2:{ apply lookup_ge_None in Hr. unfold counted in Hcnt. lia. }
    simpl. eexists. split; [done|]. unfold store_row, counted in *. simpl.
    rewrite length_insert. split; [done|]. split; [done|]. split; [done|].
    change (map render) with (fmap (M:=list) render).
    rewrite list_fmap_insert. simpl. apply list_insert_id.
    by rewrite list_lookup_fmap, Hr. }
  simpl.
  assert ((key =? 13) || (key =? 27) = false) as ->.
  { unfold ARROW_RIGHT, ARROW_DOWN, ARROW_LEFT, ARROW_UP in Hkey.
    destruct (Z.eqb_spec key 13), (Z.eqb_spec key 27); simpl; lia. }
  assert ((if (key =? ARROW_RIGHT) || (key =? ARROW_DOWN)
           then (last_match fs, 1)
           else if (key =? ARROW_LEFT) || (key =? ARROW_UP)
                then (last_match fs, -1) else (-1, 1))
          = (last_match fs, dir)) as ->.
  { unfold ARROW_RIGHT, ARROW_DOWN, ARROW_LEFT, ARROW_UP in *.
    destruct (Z.eqb_spec key 1001), (Z.eqb_spec key 1003),
      (Z.eqb_spec key 1000), (Z.eqb_spec key 1002); simpl;
      f_equal; lia. }
  destruct (Z.eqb_spec (last_match fs) (-1)); [lia|].
  destruct (find_loop_spec E0 query dir (Z.to_nat (numrows E0)))
    with (cur := last_match fs) as (res & Hres & Hfind);
    [done|lia|lia|lia|lia|].
  rewrite Hres. simpl.
  assert (Hsame : List.find (row_contains E query)
                    (probe_order (numrows E) dir (last_match fs))
                  = fst <$> res).
  { rewrite Hfind, Hn0. unfold probe_order. apply find_ext.
    intros x. symmetry. by apply row_contains_ext. }
  rewrite Hsame.
  destruct res as [[current off]|]; simpl.
  - assert (is_Some (row_at E0 current)) as [r Hr].
    { symmetry in Hfind. simpl in Hfind. apply find_some in Hfind as [_ Hc].
      unfold row_contains in Hc. destruct (row_at E0 current); [eauto|done]. }
    rewrite Hr. simpl.
    destruct (rx_to_cx_loop_total (tab_stop E0) (chars r) ltac:(lia) 0 0 off)
      as [x Hx].
    unfold editorRowRxToCx. rewrite Hx. simpl. eauto.
  - eauto.
Qed.

Lemma probe_order_lookup (n dir a : Z) (i : nat) :
  (i < Z.to_nat n)%nat ->
  probe_order n dir a !! i = Some ((a + dir * (Z.of_nat i + 1)) mod n).
Proof.
  intros Hi. unfold probe_order.
  change (map ?f) with (fmap (M:=list) f).
  rewrite list_lookup_fmap, lookup_seq_lt by done. done.
Qed.

(** C5. The search treats the buffer as a ring.  On the rows ["foo"],
    ["bar"], ["foo"] and the query ["foo"], a search that has matched row
    0 and then, forward, row 2, matches row 0 on the next forward step.
    In general an arrow key takes the match to the first row that contains
    the query, counting from the row just past the anchor in the direction
    of the key and round the end of the buffer: forward from the last row
    the first row probed is row 0, backward from row 0 it is the last. *)
Theorem find_wraps_around :
  (exists E2 fs2,
      find_session buffer_foo find_init (cstr "foo") [111; ARROW_DOWN]
      = Some (E2, fs2)
      /\ last_match fs2 = 2 /\ direction fs2 = 1
      /\ exists E3 fs3,
          editorFindCallback E2 fs2 (cstr "foo") ARROW_DOWN = Some (E3, fs3)
          /\ last_match fs3 = 0 /\ cy E3 = 0)
  /\ (forall (E : editorConfig) (fs : findState) (query : list ascii)
             (key dir : Z),
         counted E -> 0 < tab_stop E ->
         0 <= last_match fs < numrows E ->
         (is_Some (saved_hl fs) -> 0 <= saved_hl_line fs < numrows E) ->
         ((key = ARROW_RIGHT \/ key = ARROW_DOWN) /\ dir = 1)
         \/ ((key = ARROW_LEFT \/ key = ARROW_UP) /\ dir = -1) ->
         exists E' fs',
           editorFindCallback E fs query key = Some (E', fs')
           /\ last_match fs'
              = default (last_match fs)
                  (List.find (row_contains E query)
                             (probe_order (numrows E) dir (last_match fs))))
  /\ (forall n a i, 0 <= a < n -> 0 <= i < n ->
         probe_order n 1 a !! Z.to_nat i = Some ((a + (i + 1)) mod n)
         /\ probe_order n (-1) a !! Z.to_nat i = Some ((a - (i + 1)) mod n))
  /\ (forall n, 0 < n ->
         probe_order n 1 (n - 1) !! 0%nat = Some 0
         /\ probe_order n (-1) 0 !! 0%nat = Some (n - 1)).
Proof.
  split; [|split; [|split]].
  - eexists _, _. split; [vm_compute; reflexivity|].
    split; [reflexivity|]. split; [reflexivity|].
    eexists _, _. split; [vm_compute; reflexivity|]. split; reflexivity.
  - intros. by apply find_arrow_spec.
  - intros n a i Ha Hi. rewrite !probe_order_lookup by lia.
    rewrite Z2Nat.id by lia. split; f_equal; f_equal; lia.
  - intros n Hn. rewrite !probe_order_lookup by lia. split; f_equal.
    + replace (n - 1 + 1 * (Z.of_nat 0 + 1)) with n by lia.
      apply Z.mod_same. lia.
    + symmetry. apply (Z.mod_unique _ n (-1) (n - 1)); lia.
Qed.

Lemma find_wraps_around_witness :
  exists E' fs',
    editorFindCallback buffer_foo (mkFind 2 1 2 None) (cstr "foo") ARROW_RIGHT
    = Some (E', fs')
    /\ last_match fs' = 0.
Proof.
  destruct find_wraps_around as (_ & Hgen & _).
  destruct (Hgen buffer_foo (mkFind 2 1 2 None) (cstr "foo") ARROW_RIGHT 1)
    as (E' & fs' & Hrun & Hlm).
  - reflexivity.
  - simpl; lia.
  - simpl; lia.
  - simpl. by intros [? ?].
  - left. split; [by left|reflexivity].
  - exists E', fs'. split; [exact Hrun|]. rewrite Hlm. reflexivity.
Defined.

(** ** What the highlighter computes on particular rows *)

(** C2 (what the code computes). The four lines of the scenario, loaded
    under the C profile.  Row 0 is [HL_COMMENT] from the [//] on and row 3
    is [HL_NORMAL] after the [*/], as the claim says.  But inside the
    block comment the code writes [HL_COMMENT], not [HL_MLCOMMENT]: only
    the two bytes of [/*] and of [*/] carry [HL_MLCOMMENT], so row 1 is
    not entirely [HL_MLCOMMENT], row 2 has none of it, and the bytes of
    row 3 in front of [*/] are [HL_COMMENT] too. *)
Theorem scenario_classification (stray : ascii) (junk : Z) :
  exists E,
    editorOpen stray junk initEditor_c scenario_file = Some E
    /\ map chars (row E)
       = [cstr "int x = 1; // note"; cstr "/* block"; cstr "still in block";
          cstr "end */ done"]
    /\ map hl (row E)
       = [replicate 3 HL_KEYWORD2 ++ replicate 5 HL_NORMAL ++ [HL_NUMBER]
          ++ replicate 2 HL_NORMAL ++ replicate 7 HL_COMMENT;
          replicate 2 HL_MLCOMMENT ++ replicate 6 HL_COMMENT;
          replicate 14 HL_COMMENT;
          replicate 4 HL_COMMENT ++ replicate 2 HL_MLCOMMENT
          ++ replicate 5 HL_NORMAL].
Proof.
  destruct junk as [|[p|p|]|p]; eexists;
    (split; [vm_compute; reflexivity|split; reflexivity]).
Qed.

(** C3 (what the code computes). On the row [//1] under the C profile the
    marker [//] matches at position 0, outside any string or comment, and
    the row is filled with [HL_COMMENT]; but the scan goes on, and the
    number rule makes the last byte [HL_NUMBER].  On the row [// /*] the
    scan goes on to open a block comment behind the [//]. *)
Theorem single_comment_not_final (stray : ascii) :
  marker_match (cstr "//1") 0 (singleline_comment_start HLDB_c) = true
  /\ (exists st, syntax_pass stray HLDB_c (cstr "//1") 0 = Some st
                 /\ sc_hl st = [HL_COMMENT; HL_COMMENT; HL_NUMBER])
  /\ (exists st, syntax_pass stray HLDB_c (cstr "// /*") 0 = Some st
                 /\ sc_hl st = [HL_COMMENT; HL_COMMENT; HL_COMMENT;
                                HL_MLCOMMENT; HL_MLCOMMENT]
                 /\ sc_in_comment st = 1).
Proof.
  split; [reflexivity|]. split; eexists; (split; [vm_compute; reflexivity|]);
    repeat split; reflexivity.
Qed.

(** ** The reads of [row->render] *)

Section Reads.

Variable stray : ascii.
Variable syn : editorSyntax.
Variable rend : list ascii.

Lemma scan_step_reads (st : scan) :
  exists rest,
    sc_reads (scan_step stray syn rend st)
    = sc_reads st ++ [sc_i st; sc_i st - 1] ++ rest.
Proof.
  unfold scan_step.
  destruct (rule_function stray syn rend st) as [h1 rd1].
  destruct (rule_single_comment syn rend st h1) as [h2 rd2].
  repeat match goal with
         | |- context [if ?b then _ else _] =>
             lazymatch b with
             | context [if _ then _ else _] => fail
             | _ => destruct b
             end
         | |- context [let '(_, _) := ?p in _] => destruct p as [[[? ?]|] ?]
         end; simpl; rewrite <- ?app_assoc; simpl; eexists; reflexivity.
Qed.

Lemma scan_loop_reads (fuel : nat) :
  forall st st' x,
    scan_loop stray syn rend fuel st = Some st' ->
    x ∈ sc_reads st -> x ∈ sc_reads st'.
Proof.
  induction fuel as [|fuel IH]; intros st st' x; simpl.
  - case_match; [done|]. by intros [= <-].
  - case_match; [|by intros [= <-]].
    intros Hrun Hx. apply (IH _ _ _ Hrun).
    destruct (scan_step_reads st) as [rest ->].
    apply elem_of_app. by left.
Qed.

End Reads.

(** ** The reads of [row->render] stay within [-1] and [rsize] *)

Lemma strncmp_span_bound (n : nat) :
  forall a b, (strncmp_span a b n <= S (length a))%nat.
Proof.
  induction n as [|n IH]; intros a b; simpl; [lia|].
  destruct a as [|x a]; simpl.
  - repeat case_match; lia.
  - repeat case_match; try lia. specialize (IH a (tl b)). lia.
Qed.

(** A comparison that succeeds over [n] bytes none of which is NUL has
    stayed within the first string. *)
Lemma strncmp_within (n : nat) :
  forall a b, strncmp a b n = true -> Z.of_nat n <= strlen b ->
              (n <= length a)%nat.
Proof.
  induction n as [|n IH]; intros a b; [simpl; lia|].
  cbn [strncmp]. destruct b as [|y b]; cbn [strlen hd tl]; [lia|].
  destruct (Ascii.eqb_spec y NUL) as [->|Hy]; [lia|].
  destruct a as [|x a]; cbn [hd tl length].
  - destruct (Ascii.eqb_spec NUL y) as [<-|]; [done|by intros].
  - destruct (Ascii.eqb_spec x y) as [->|]; [|by intros].
    destruct (Ascii.eqb_spec y NUL); [done|].
    intros Hm Hn. apply IH in Hm; lia.
Qed.

Section ReadBounds.

Variable stray : ascii.
Variable syn : editorSyntax.
Variable rend : list ascii.

Lemma span_reads_within (i : Z) (n : nat) :
  0 <= i -> i + Z.of_nat n <= row_rsize rend + 1 ->
  Forall (read_within rend) (span_reads i n).
Proof.
  intros Hi Hn. apply Forall_forall. intros j Hj.
  apply list_elem_of_In, in_map_iff in Hj as (k & <- & Hk).
  apply in_seq in Hk. unfold read_within. lia.
Qed.

Lemma compare_reads_within (i : Z) (pat : list ascii) (n : nat) :
  0 <= i <= row_rsize rend ->
  Forall (read_within rend) (span_reads i (strncmp_span (render_from rend i) pat n)).
Proof.
  intros Hi. apply span_reads_within; [lia|].
  pose proof (strncmp_span_bound n (render_from rend i) pat) as Hs.
  unfold render_from in *. rewrite length_drop in Hs.
  unfold row_rsize in *. lia.
Qed.

Lemma function_walk_within (j : nat) :
  forall h, Z.of_nat j <= row_rsize rend ->
            Forall (read_within rend) (snd (function_walk stray rend j h)).
Proof.
  induction j as [|j IH]; intros h Hj; simpl.
  - case_match; simpl; repeat constructor; unfold read_within, row_rsize in *; lia.
  - case_match; simpl.
    + repeat constructor; unfold read_within; lia.
    + specialize (IH (<[S j := HL_FUNCTION]> h) ltac:(lia)).
      destruct (function_walk stray rend j (<[S j:=HL_FUNCTION]> h)) as [h' rd].
      simpl in *. constructor; [unfold read_within; lia|done].
Qed.

Lemma keyword_loop_within (kws : list (list ascii)) (i : Z) :
  0 <= i <= row_rsize rend ->
  Forall (read_within rend) (snd (keyword_loop stray rend kws i))
  /\ (forall klen kw2, fst (keyword_loop stray rend kws i) = Some (klen, kw2) ->
                       i + klen <= row_rsize rend).
Proof.
  intros Hi. induction kws as [|kw rest [IH1 IH2]]; simpl.
  - split; [constructor|discriminate].
  - pose proof (strlen_nonneg kw) as Hlen.
    set (klen0 := strlen kw) in *.
    set (kw2 := (0 <? klen0) && Ascii.eqb (nth (Z.to_nat (klen0 - 1)) kw NUL) "|").
    set (klen := if kw2 then klen0 - 1 else klen0).
    assert (0 <= klen <= klen0) as Hk.
    { subst klen kw2. destruct (Z.ltb_spec 0 klen0); simpl; [|lia].
      case_match; lia. }
    pose proof (compare_reads_within i kw (Z.to_nat klen) Hi) as Hrd.
    destruct (strncmp (render_from rend i) kw (Z.to_nat klen)) eqn:Hm.
    + apply strncmp_within in Hm; [|subst klen0; lia].
      unfold render_from in Hm. rewrite length_drop in Hm.
      assert (i + klen <= row_rsize rend) as Hin
        by (unfold row_rsize in *; lia).
      destruct (is_separator (render_at stray rend (i + klen))); simpl.
      * split.
        -- apply Forall_app. split; [done|].
           repeat constructor; unfold read_within; lia.
        -- intros ? ? [= <- <-]. done.
      * destruct (keyword_loop stray rend rest i) as [r rd']. simpl in *.
        split; [|done].
        apply Forall_app. split; [done|]. constructor; [unfold read_within; lia|done].
    + destruct (keyword_loop stray rend rest i) as [r rd']. simpl in *.
      split; [|done]. apply Forall_app. by split.
Qed.

Lemma marker_match_within (i : Z) (m : option (list ascii)) :
  0 <= i <= row_rsize rend -> marker_match rend i m = true ->
  i + marker_len m <= row_rsize rend.
Proof.
  intros Hi Hm. unfold marker_match in Hm.
  pose proof (marker_len_nonneg m) as Hlen.
  apply strncmp_within in Hm.
  - unfold render_from in Hm. rewrite length_drop in Hm.
    unfold row_rsize in *. lia.
  - destruct m; simpl in *; lia.
Qed.

(** One turn from a position inside the row: [i] stays inside, and the
    reads added are at [-1] at the lowest and at [rsize] at the highest. *)
Lemma scan_step_within (st : scan) :
  0 <= sc_i st < row_rsize rend ->
  Forall (read_within rend) (sc_reads st) ->
  0 <= sc_i (scan_step stray syn rend st) <= row_rsize rend
  /\ Forall (read_within rend) (sc_reads (scan_step stray syn rend st)).
Proof.
  intros Hi Hlog.
  assert (Hi' : 0 <= sc_i st <= row_rsize rend) by lia.
  pose proof (marker_len_nonneg (multiline_comment_start syn)) as Hs.
  pose proof (marker_len_nonneg (multiline_comment_end syn)) as He.
  pose proof (fun pat n => compare_reads_within (sc_i st) pat n Hi') as Hcmp.
  pose proof (marker_match_within (sc_i st) (multiline_comment_start syn) Hi')
    as Hms.
  pose proof (marker_match_within (sc_i st) (multiline_comment_end syn) Hi')
    as Hme.
  pose proof (keyword_loop_within (keywords syn) (sc_i st) Hi') as [Hk1 Hk2].
  pose proof (function_walk_within (Z.to_nat (sc_i st)) (sc_hl st)
                ltac:(lia)) as Hw.
  assert (Hnear : Forall (read_within rend) [sc_i st; sc_i st - 1])
    by (repeat constructor; unfold read_within; lia).
  assert (Hfn : Forall (read_within rend) (snd (rule_function stray syn rend st))).
  { unfold rule_function.
    destruct (function_walk stray rend (Z.to_nat (sc_i st)) (sc_hl st))
      as [h rd].
    repeat case_match; simpl in *; repeat constructor;
      try (unfold read_within; lia); done. }
  assert (Hsc : forall h, Forall (read_within rend) (snd (rule_single_comment syn rend st h))).
  { intros h. unfold rule_single_comment, marker_reads.
    case_match; simpl; [apply Hcmp|constructor]. }
  unfold scan_step.
  destruct (rule_function stray syn rend st) as [h1 rd1].
  specialize (Hsc h1).
  destruct (rule_single_comment syn rend st h1) as [h2 rd2].
  simpl in Hfn, Hsc.
  assert (Hlog' : Forall (read_within rend)
                    (sc_reads st ++ [sc_i st; sc_i st - 1] ++ rd1 ++ rd2))
    by (repeat (apply Forall_app; split); done).
  unfold mcs_len, mce_len, marker_reads.
  destruct (keyword_loop stray rend (keywords syn) (sc_i st))
    as [[[klen kw2]|] rdk] eqn:Hkw; simpl in Hk1, Hk2;
    [specialize (Hk2 klen kw2 eq_refl);
     pose proof (keyword_loop_klen stray rend (keywords syn) (sc_i st) klen kw2)
       as Hk0; rewrite Hkw in Hk0; specialize (Hk0 eq_refl)|].
  all: repeat match goal with
         | |- context [if ?b then _ else _] =>
             lazymatch b with
             | context [if _ then _ else _] => fail
             | _ => destruct b eqn:?
             end
         end; simpl;
    repeat match goal with
           | H : _ && _ = true |- _ => apply andb_true_iff in H as [? ?]
           end;
    repeat match goal with
           | H : true = true -> _ |- _ => specialize (H eq_refl)
           | H : marker_match _ _ _ = true -> _,
             H' : marker_match _ _ _ = true |- _ => specialize (H H')
           end;
    (split; [lia|]);
    repeat first [exact Hlog' | assumption | apply Hcmp
                 | apply Forall_app; split | apply Forall_nil | exact I].
Qed.

Lemma scan_loop_within (fuel : nat) :
  forall st st',
    0 <= sc_i st <= row_rsize rend ->
    Forall (read_within rend) (sc_reads st) ->
    scan_loop stray syn rend fuel st = Some st' ->
    Forall (read_within rend) (sc_reads st').
Proof.
  induction fuel as [|fuel IH]; intros st st' Hi Hlog; simpl.
  - case_match; [done|]. by intros [= <-].
  - destruct (Z.ltb_spec (sc_i st) (row_rsize rend)); [|by intros [= <-]].
    destruct (scan_step_within st) as [Hi' Hlog']; [lia|done|].
    by apply IH.
Qed.

End ReadBounds.

(** C10 (what the code does). On every row that is not empty, under any
    profile and whatever state the row is entered in, a pass of the
    highlighter reads [row->render[-1]]: the first turn of the scan
    evaluates [row->render[i-1]] with [i = 0].  At the other end the
    claim holds: no read is beyond [rsize], the index of the terminator. *)
Theorem render_read_below_zero (stray : ascii) (syn : editorSyntax)
        (rend : list ascii) (in_comment : Z) :
  rend <> [] ->
  exists st, syntax_pass stray syn rend in_comment = Some st
             /\ -1 ∈ sc_reads st
             /\ Forall (fun j => j <= Z.of_nat (length rend)) (sc_reads st).
Proof.
  intros Hne.
  destruct (syntax_pass_total stray syn rend in_comment) as [st Hst].
  exists st. split; [exact Hst|]. split.
  2:{ eapply Forall_impl.
      - eapply (scan_loop_within stray syn rend); [| |exact Hst].
        + unfold row_rsize. simpl. lia.
        + constructor.
      - intros j [_ Hj]. exact Hj. }
  unfold syntax_pass in Hst.
  replace (2 * length rend + 2)%nat with (S (2 * length rend + 1)) in Hst by lia.
  simpl in Hst. unfold row_rsize in Hst.
  destruct (Z.ltb_spec 0 (Z.of_nat (length rend))) as [_|Hz].
  2:{ destruct rend; [done|simpl in Hz; lia]. }
  eapply scan_loop_reads; [exact Hst|].
  destruct (scan_step_reads stray syn rend (scan_init rend in_comment))
    as [rest ->].
  simpl. apply list_elem_of_further, list_elem_of_here.
Qed.

Lemma render_read_below_zero_witness :
  exists st, syntax_pass NUL HLDB_c (cstr "a") 0 = Some st /\ -1 ∈ sc_reads st.
Proof.
  destruct (render_read_below_zero NUL HLDB_c (cstr "a") 0) as (st & H1 & H2 & _).
  - discriminate.
  - by exists st.
Defined.

(** On the row [f(x)] the function-name rule walks left from [f] and,
    finding no space, reads [row->render[-1]] as well: two reads below
    the array in one pass. *)
Example function_walk_below_zero (stray : ascii) :
  exists st, syntax_pass stray HLDB_c (cstr "f(x)") 0 = Some st
             /\ filter (fun j => j < 0) (sc_reads st) = [-1; -1]
             /\ fst (function_walk stray (cstr "f(x)") 0
                                   (replicate 4 HL_NORMAL))
                = [HL_FUNCTION; HL_NORMAL; HL_NORMAL; HL_NORMAL]
             /\ snd (function_walk stray (cstr "f(x)") 0
                                   (replicate 4 HL_NORMAL))
                = [0; -1].
Proof.
  eexists. split; [vm_compute; reflexivity|].
  split; [|split]; vm_compute; reflexivity.
Qed.


(** * Further properties *)

(** ** The two coordinate maps *)

Lemma cx_to_rx_loop_fold (ts : Z) (cs : list ascii) (n : nat) :
  ts <> 0 ->
  forall j rx, (j + n <= length cs)%nat ->
    cx_to_rx_loop ts cs j n rx = Some (rx_over ts (take n (drop j cs)) rx).
Proof.
  intros Hts. induction n as [|n IH]; intros j rx Hn; simpl.
  - done.
  - destruct (drop j cs) as [|c rest] eqn:Hd.
    { apply (f_equal length) in Hd. rewrite length_drop in Hd. simpl in Hd. lia. }
    assert (nth j cs NUL = c) as ->.
    { apply nth_lookup_Some with (d := NUL).
      by rewrite <- (Nat.add_0_r j), <- lookup_drop, Hd. }
    assert (drop (S j) cs = rest) as Hr.
    { replace (S j) with (j + 1)%nat by lia. by rewrite <- drop_drop, Hd. }
    simpl. unfold rx_over. simpl. unfold rx_step at 2.
    destruct (Ascii.eqb c TAB).
    + destruct (Z.eqb_spec ts 0); [done|]. rewrite IH by lia. by rewrite Hr.
    + rewrite IH by lia. by rewrite Hr.
Qed.

Lemma rx_step_grows (ts rx : Z) (c : ascii) :
  0 < ts -> 0 <= rx -> rx < rx_step ts rx c.
Proof.
  intros Hts Hrx. unfold rx_step.
  pose proof (Z.rem_bound_pos rx ts Hrx Hts). destruct (Ascii.eqb c TAB); lia.
Qed.

Lemma rx_over_grows (ts : Z) (cs : list ascii) :
  0 < ts -> forall rx, 0 <= rx -> rx + Z.of_nat (length cs) <= rx_over ts cs rx.
Proof.
  intros Hts. unfold rx_over.
  induction cs as [|c cs IH]; intros rx Hrx; simpl; [lia|].
  pose proof (rx_step_grows ts rx c Hts Hrx).
  specialize (IH (rx_step ts rx c) ltac:(lia)). lia.
Qed.

Lemma rx_over_app (ts : Z) (cs1 cs2 : list ascii) (rx : Z) :
  rx_over ts (cs1 ++ cs2) rx = rx_over ts cs2 (rx_over ts cs1 rx).
Proof. unfold rx_over. by rewrite fold_left_app. Qed.

Lemma rx_to_cx_loop_cons (ts : Z) (c : ascii) (cs : list ascii) (c0 cur rx : Z) :
  ts <> 0 ->
  rx_to_cx_loop ts (c :: cs) c0 cur rx
  = if rx <? rx_step ts cur c then Some c0
    else rx_to_cx_loop ts cs (c0 + 1) (rx_step ts cur c) rx.
Proof.
  intros Hts. simpl. unfold rx_step.
  destruct (Ascii.eqb c TAB); [|done]. by destruct (Z.eqb_spec ts 0).
Qed.

(** Where [editorRowRxToCx] stops: at the first byte whose column count
    passes [rx], or at the end of the row. *)
Lemma rx_to_cx_loop_spec (ts : Z) (cs : list ascii) :
  0 < ts ->
  forall c0 cur rx, 0 <= cur <= rx ->
    exists pre post,
      cs = pre ++ post
      /\ rx_to_cx_loop ts cs c0 cur rx = Some (c0 + Z.of_nat (length pre))
      /\ rx_over ts pre cur <= rx
      /\ match post with
         | [] => True
         | x :: _ => rx < rx_over ts (pre ++ [x]) cur
         end.
Proof.
  intros Hts. induction cs as [|c cs IH]; intros c0 cur rx Hcur.
  - exists [], []. simpl. split; [done|]. split; [f_equal; lia|].
    split; [unfold rx_over; simpl; lia|done].
  - rewrite rx_to_cx_loop_cons by lia.
    destruct (Z.ltb_spec rx (rx_step ts cur c)) as [Hlt|Hge].
    + exists [], (c :: cs). simpl. split; [done|]. split; [f_equal; lia|].
      split; [unfold rx_over; simpl; lia|]. unfold rx_over. simpl. done.
    + pose proof (rx_step_grows ts cur c Hts ltac:(lia)).
      destruct (IH (c0 + 1) (rx_step ts cur c) rx ltac:(lia))
        as (pre & post & -> & Hrun & Hlo & Hhi).
      exists (c :: pre), post. split; [done|]. split.
      { rewrite Hrun. f_equal. simpl length. lia. }
      split; [exact Hlo|]. destruct post; [done|]. exact Hhi.
Qed.

Lemma editorRowCxToRx_fold (E : editorConfig) (r : erow) (cx_ : Z) :
  0 < tab_stop E -> 0 <= cx_ <= size r ->
  editorRowCxToRx E r cx_
  = Some (rx_over (tab_stop E) (take (Z.to_nat cx_) (chars r)) 0).
Proof.
  intros Hts Hcx. unfold editorRowCxToRx.
  rewrite cx_to_rx_loop_fold by (unfold size in Hcx; lia). by rewrite drop_0.
Qed.

Lemma rx_to_cx_loop_exact (ts : Z) (pre : list ascii) :
  0 < ts ->
  forall post c0 cur, 0 <= cur ->
    rx_to_cx_loop ts (pre ++ post) c0 cur (rx_over ts pre cur)
    = Some (c0 + Z.of_nat (length pre)).
Proof.
  intros Hts. induction pre as [|x pre IH]; intros post c0 cur Hcur.
  - unfold rx_over. simpl. destruct post as [|y post]; [simpl; f_equal; lia|].
    rewrite rx_to_cx_loop_cons by lia.
    pose proof (rx_step_grows ts cur y Hts Hcur).
    destruct (Z.ltb_spec cur (rx_step ts cur y)); [f_equal; lia|lia].
  - change ((x :: pre) ++ post) with (x :: (pre ++ post)).
    rewrite rx_to_cx_loop_cons by lia.
    change (rx_over ts (x :: pre) cur) with (rx_over ts pre (rx_step ts cur x)).
    pose proof (rx_step_grows ts cur x Hts Hcur).
    pose proof (rx_over_grows ts pre Hts (rx_step ts cur x) ltac:(lia)).
    destruct (Z.ltb_spec (rx_over ts pre (rx_step ts cur x)) (rx_step ts cur x));
      [lia|].
    rewrite IH by lia. f_equal. simpl length. lia.
Qed.

(** X1. With a positive tab stop, [editorRowRxToCx] undoes
    [editorRowCxToRx] at every raw index of the row, its end included. *)
Theorem rx_to_cx_of_cx_to_rx (E : editorConfig) (r : erow) (cx_ : Z) :
  0 < tab_stop E -> 0 <= cx_ <= size r ->
  exists rx, editorRowCxToRx E r cx_ = Some rx
             /\ editorRowRxToCx E r rx = Some cx_.
Proof.
  intros Hts Hcx. rewrite editorRowCxToRx_fold by done.
  eexists. split; [reflexivity|]. unfold editorRowRxToCx.
  rewrite <- (take_drop (Z.to_nat cx_) (chars r)) at 1.
  rewrite rx_to_cx_loop_exact by lia. f_equal.
  rewrite length_take. unfold size in Hcx. lia.
Qed.

Lemma rx_to_cx_of_cx_to_rx_witness :
  exists rx,
    editorRowCxToRx initEditor (mkRow 0 [TAB; "a"%char] [] [] 0) 1 = Some rx
    /\ editorRowRxToCx initEditor (mkRow 0 [TAB; "a"%char] [] [] 0) rx = Some 1.
Proof.
  apply (rx_to_cx_of_cx_to_rx initEditor (mkRow 0 [TAB; "a"%char] [] [] 0) 1).
  - simpl; lia.
  - unfold size; simpl; lia.
Defined.

(** X2. With a positive tab stop and [rx >= 0], [editorRowRxToCx] returns
    a raw index [c] of the row, its end included, such that the column of
    [c] is at most [rx], and such that, unless [c] is the end of the row,
    the column of [c + 1] is beyond [rx]: a column inside the span of a tab
    snaps to the tab, a column past the rendered row to the end. *)
Theorem rx_to_cx_snaps (E : editorConfig) (r : erow) (rx : Z) :
  0 < tab_stop E -> 0 <= rx ->
  exists c lo,
    editorRowRxToCx E r rx = Some c
    /\ 0 <= c <= size r
    /\ editorRowCxToRx E r c = Some lo /\ lo <= rx
    /\ (c < size r ->
        exists hi, editorRowCxToRx E r (c + 1) = Some hi /\ rx < hi).
Proof.
  intros Hts Hrx. unfold editorRowRxToCx.
  destruct (rx_to_cx_loop_spec (tab_stop E) (chars r) Hts 0 0 rx ltac:(lia))
    as (pre & post & Hsplit & Hrun & Hlo & Hhi).
  rewrite Hrun. simpl.
  assert (Hlen : Z.of_nat (length pre) <= size r)
    by (unfold size; rewrite Hsplit, length_app; lia).
  exists (Z.of_nat (length pre)), (rx_over (tab_stop E) pre 0).
  split; [done|]. split; [lia|]. split.
  { rewrite editorRowCxToRx_fold by lia. f_equal. f_equal.
    by rewrite Nat2Z.id, Hsplit, take_app_length. }
  split; [done|]. intros Hlt.
  destruct post as [|x post].
  { rewrite app_nil_r in Hsplit. unfold size in Hlt. rewrite Hsplit in Hlt. lia. }
  exists (rx_over (tab_stop E) (pre ++ [x]) 0). split; [|done].
  rewrite editorRowCxToRx_fold by lia. f_equal. f_equal.
  replace (Z.to_nat (Z.of_nat (length pre) + 1)) with (length (pre ++ [x]))
    by (rewrite length_app; simpl; lia).
  by rewrite Hsplit, (cons_middle x pre post), app_assoc, take_app_length.
Qed.

Lemma rx_to_cx_snaps_witness :
  exists c lo,
    editorRowRxToCx initEditor (mkRow 0 [TAB; "a"%char] [] [] 0) 2 = Some c
    /\ c = 0
    /\ editorRowCxToRx initEditor (mkRow 0 [TAB; "a"%char] [] [] 0) c = Some lo
    /\ lo <= 2.
Proof.
  destruct (rx_to_cx_snaps initEditor (mkRow 0 [TAB; "a"%char] [] [] 0) 2)
    as (c & lo & Hc & _ & Hlo & Hle & _).
  - simpl; lia.
  - lia.
  - exists c, lo. split; [exact Hc|]. split; [|by split].
    vm_compute in Hc. congruence.
Defined.

(** ** Rendering and the columns *)

(** [tab_fill] pads with spaces up to the next multiple of the tab stop. *)
Lemma tab_fill_spec (ts : Z) (fuel : nat) :
  0 < ts ->
  forall out out', tab_fill fuel ts out = Some out' ->
    out' = out ++ replicate (Z.to_nat ((- Z.of_nat (length out)) mod ts)) " "%char.
Proof.
  intros Hts. induction fuel as [|fuel IH]; intros out out'; simpl;
    rewrite Z.rem_mod_nonneg by lia;
    destruct (Z.eqb_spec (Z.of_nat (length out) mod ts) 0) as [Hz|Hnz];
    intros Hf; simplify_eq.
  - rewrite Z.mod_opp_l_z by lia. simpl. by rewrite app_nil_r.
  - rewrite Z.mod_opp_l_z by lia. simpl. by rewrite app_nil_r.
  - apply IH in Hf. rewrite Hf, <- app_assoc. f_equal.
    rewrite length_app. simpl length.
    pose proof (Z.mod_pos_bound (Z.of_nat (length out)) ts Hts).
    rewrite (Z.mod_opp_l_nz (Z.of_nat (length out)) ts) by lia.
    assert ((- Z.of_nat (length out + 1)) mod ts
            = ts - Z.of_nat (length out) mod ts - 1) as ->.
    { symmetry.
      apply (Z.mod_unique _ _ (- (Z.of_nat (length out) / ts) - 1)); [lia|].
      pose proof (Z.div_mod (Z.of_nat (length out)) ts ltac:(lia)). lia. }
    replace (Z.to_nat (ts - Z.of_nat (length out) mod ts))
      with (S (Z.to_nat (ts - Z.of_nat (length out) mod ts - 1))) by lia.
    done.
Qed.

(** What a tab adds to a row [rx] bytes long is what it adds to the
    column count. *)
Lemma tab_width (ts rx : Z) :
  0 < ts -> 0 <= rx ->
  rx + 1 + (- (rx + 1)) mod ts = rx_step ts rx TAB.
Proof.
  intros Hts Hrx. unfold rx_step. rewrite Ascii.eqb_refl.
  rewrite Z.rem_mod_nonneg by lia.
  pose proof (Z.mod_pos_bound rx ts Hts).
  assert ((- (rx + 1)) mod ts = ts - 1 - rx mod ts) as ->; [|lia].
  symmetry. apply (Z.mod_unique _ _ (- (rx / ts) - 1)); [lia|].
  pose proof (Z.div_mod rx ts ltac:(lia)). lia.
Qed.

(** The second loop of [editorUpdateRow] appends to what is written; what
    it appends holds no tab; and the length it reaches is the column
    count of [editorRowCxToRx]. *)
Lemma expand_tabs_spec (ts : Z) (cs : list ascii) :
  0 < ts ->
  forall out rs, expand_tabs ts cs out = Some rs ->
    exists body,
      rs = out ++ body /\ (TAB ∉ body)
      /\ Z.of_nat (length rs) = rx_over ts cs (Z.of_nat (length out)).
Proof.
  intros Hts. induction cs as [|c cs IH]; intros out rs; simpl.
  - intros [= <-]. exists []. rewrite app_nil_r.
    split; [done|]. split; [apply not_elem_of_nil|done].
  - unfold rx_over. simpl. fold (rx_over ts cs).
    destruct (Ascii.eqb_spec c TAB) as [->|Hc].
    + destruct (Z.eqb_spec ts 0); [lia|].
      destruct (tab_fill (Z.to_nat ts) ts (out ++ [" "%char])) as [out'|] eqn:Hf;
        [|done].
      simpl. intros Hrs. apply tab_fill_spec in Hf; [|done].
      destruct (IH _ _ Hrs) as (body & -> & Hb & Hlen).
      rewrite length_app in Hf. simpl length in Hf.
      exists (" "%char
              :: replicate (Z.to_nat ((- Z.of_nat (length out + 1)) mod ts)) " "%char
              ++ body).
      split; [rewrite Hf; by rewrite <- !app_assoc|]. split.
      { apply not_elem_of_cons. split; [done|].
        intros [Hin|Hin]%elem_of_app; [|done].
        by apply elem_of_replicate in Hin as [? _]. }
      rewrite Hlen. f_equal. rewrite Hf, !length_app, length_replicate.
      simpl length.
      pose proof (Z.mod_pos_bound (- Z.of_nat (length out + 1)) ts Hts).
      rewrite <- (tab_width ts (Z.of_nat (length out))) by lia.
      replace (Z.of_nat (length out + 1)) with (Z.of_nat (length out) + 1) by lia.
      lia.
    + intros Hrs. destruct (IH _ _ Hrs) as (body & -> & Hb & Hlen).
      exists (c :: body). split; [by rewrite <- app_assoc|]. split.
      { apply not_elem_of_cons. split; [congruence|done]. }
      rewrite Hlen. f_equal. rewrite length_app. simpl length.
      unfold rx_step. destruct (Ascii.eqb_spec c TAB); [done|]. lia.
Qed.

(** Rendering a row in two parts. *)
Lemma expand_tabs_app (ts : Z) (cs1 cs2 : list ascii) :
  forall out,
    expand_tabs ts (cs1 ++ cs2) out
    = out' ← expand_tabs ts cs1 out; expand_tabs ts cs2 out'.
Proof.
  induction cs1 as [|c cs1 IH]; intros out; simpl; [done|].
  destruct (Ascii.eqb c TAB); [|apply IH].
  destruct (ts =? 0); [done|].
  destruct (tab_fill (Z.to_nat ts) ts (out ++ [" "%char])); simpl; [apply IH|done].
Qed.

(** The first byte of what the loop appends for a byte [c]. *)
Lemma expand_tabs_head (ts : Z) (c : ascii) (cs out rs : list ascii) :
  0 < ts ->
  expand_tabs ts (c :: cs) out = Some rs ->
  rs !! length out = Some (if Ascii.eqb c TAB then " "%char else c).
Proof.
  intros Hts. simpl. destruct (Ascii.eqb c TAB).
  - destruct (Z.eqb_spec ts 0); [lia|].
    destruct (tab_fill (Z.to_nat ts) ts (out ++ [" "%char])) as [out'|] eqn:Hf;
      [|done].
    simpl. intros Hrs. apply tab_fill_spec in Hf; [|done].
    apply expand_tabs_spec in Hrs as (body & -> & _); [|done].
    rewrite Hf, <- !app_assoc. rewrite lookup_app_r by lia.
    by rewrite Nat.sub_diag.
  - intros Hrs. apply expand_tabs_spec in Hrs as (body & -> & _); [|done].
    rewrite <- app_assoc. rewrite lookup_app_r by lia.
    by rewrite Nat.sub_diag.
Qed.

(** X3. In a row as [editorUpdateRow] renders it, with a positive tab
    stop, the column [editorRowCxToRx] gives for the end of the row is
    [rsize], and the column it gives for a byte of [chars] is where that
    byte stands in [render]: as itself, or as the first space of a tab. *)
Theorem render_columns (E : editorConfig) (r : erow) :
  0 < tab_stop E -> rendered E r ->
  editorRowCxToRx E r (size r) = Some (rsize r)
  /\ forall (k : nat) (c : ascii),
       chars r !! k = Some c ->
       exists rx, editorRowCxToRx E r (Z.of_nat k) = Some rx
                  /\ 0 <= rx
                  /\ render r !! Z.to_nat rx
                     = Some (if Ascii.eqb c TAB then " "%char else c).
Proof.
  intros Hts Hr. unfold rendered in Hr. split.
  - rewrite editorRowCxToRx_fold by (unfold size; lia).
    unfold size. rewrite Nat2Z.id, firstn_all.
    apply expand_tabs_spec in Hr as (body & _ & _ & Hlen); [|done].
    unfold rsize. by rewrite Hlen.
  - intros k c Hk. pose proof (lookup_lt_Some _ _ _ Hk) as Hlt.
    rewrite editorRowCxToRx_fold by (unfold size; lia).
    rewrite Nat2Z.id. eexists. split; [reflexivity|].
    pose proof (rx_over_grows (tab_stop E) (take k (chars r)) Hts 0 ltac:(lia)).
    split; [lia|].
    rewrite <- (take_drop k (chars r)) in Hr. rewrite expand_tabs_app in Hr.
    destruct (expand_tabs (tab_stop E) (take k (chars r)) []) as [out|] eqn:Hout;
      [|done].
    simpl in Hr.
    apply expand_tabs_spec in Hout as (body & -> & _ & Hlen); [|done].
    change (Z.of_nat (length [])) with 0 in Hlen.
    rewrite <- Hlen, Nat2Z.id.
    rewrite (drop_S _ c) in Hr by done.
    by apply (expand_tabs_head _ _ _ _ _ Hts) in Hr.
Qed.

Lemma render_columns_witness :
  editorRowCxToRx initEditor
    (mkRow 0 [TAB; "a"%char] (cstr "    a") [] 0)
    (size (mkRow 0 [TAB; "a"%char] (cstr "    a") [] 0))
  = Some (rsize (mkRow 0 [TAB; "a"%char] (cstr "    a") [] 0)).
Proof.
  apply (render_columns initEditor (mkRow 0 [TAB; "a"%char] (cstr "    a") [] 0)).
  - simpl; lia.
  - reflexivity.
Defined.

Lemma expand_tabs_plain (ts : Z) (cs : list ascii) :
  TAB ∉ cs -> forall out, expand_tabs ts cs out = Some (out ++ cs).
Proof.
  induction cs as [|c cs IH]; intros Hc out; simpl.
  - by rewrite app_nil_r.
  - apply not_elem_of_cons in Hc as [Hc Hcs].
    destruct (Ascii.eqb_spec c TAB); [done|].
    rewrite IH by done. by rewrite <- app_assoc.
Qed.

(** X4. [editorUpdateRow] leaves no tab in [render], and a row without
    tabs is rendered as it is. *)
Theorem render_has_no_tab (E : editorConfig) (r : erow) :
  0 < tab_stop E -> rendered E r ->
  (TAB ∉ render r) /\ (TAB ∉ chars r -> render r = chars r).
Proof.
  intros Hts Hr. unfold rendered in Hr. split.
  - apply expand_tabs_spec in Hr as (body & -> & Hb & _); done.
  - intros Hc. rewrite expand_tabs_plain in Hr by done. by injection Hr as <-.
Qed.

Lemma render_has_no_tab_witness :
  TAB ∉ render (mkRow 0 [TAB; "a"%char] (cstr "    a") [] 0).
Proof.
  apply (render_has_no_tab initEditor (mkRow 0 [TAB; "a"%char] (cstr "    a") [] 0)).
  - simpl; lia.
  - reflexivity.
Defined.

(** ** The shape of a highlighted row *)

Lemma memset_from_length {A} (l : list A) (k i : Z) (v : A) (n : Z) :
  length (memset_from l k i v n) = length l.
Proof. revert k. induction l as [|x l IH]; intros k; simpl; [done|]. by rewrite IH. Qed.

Lemma memset_length {A} (l : list A) (i : Z) (v : A) (n : Z) :
  length (memset l i v n) = length l.
Proof. apply memset_from_length. Qed.

Section Shape.

Variable stray : ascii.
Variable syn : editorSyntax.
Variable rend : list ascii.

Lemma function_walk_length (j : nat) :
  forall h, length (fst (function_walk stray rend j h)) = length h.
Proof.
  induction j as [|j IH]; intros h; simpl.
  - case_match; simpl; by rewrite ?length_insert.
  - case_match; simpl; [done|].
    specialize (IH (<[S j := HL_FUNCTION]> h)).
    destruct (function_walk stray rend j (<[S j := HL_FUNCTION]> h)).
    simpl in *. by rewrite IH, length_insert.
Qed.

Lemma rule_function_length (st : scan) :
  length (fst (rule_function stray syn rend st)) = length (sc_hl st).
Proof.
  unfold rule_function. repeat case_match; simpl; try done.
  pose proof (function_walk_length (Z.to_nat (sc_i st)) (sc_hl st)) as Hw.
  by match goal with H : function_walk _ _ _ _ = _ |- _ => rewrite H in Hw end.
Qed.

Lemma rule_single_comment_length (st : scan) (h : list editorHighlight) :
  length (fst (rule_single_comment syn rend st h)) = length h.
Proof.
  unfold rule_single_comment. repeat case_match; simpl;
    by rewrite ?memset_length.
Qed.

(** A turn of the loop keeps the length of [hl], and leaves
    [in_comment] as it was or sets it to 0 or 1. *)
Lemma scan_step_shape (st : scan) :
  let st' := scan_step stray syn rend st in
  length (sc_hl st') = length (sc_hl st)
  /\ (sc_in_comment st' = sc_in_comment st
      \/ sc_in_comment st' = 0 \/ sc_in_comment st' = 1).
Proof.
  unfold scan_step.
  pose proof (rule_function_length st) as H1.
  destruct (rule_function stray syn rend st) as [h1 rd1].
  pose proof (rule_single_comment_length st h1) as H2.
  destruct (rule_single_comment syn rend st h1) as [h2 rd2].
  simpl in H1, H2.
  repeat match goal with
         | |- context [if ?b then _ else _] =>
             lazymatch b with
             | context [if _ then _ else _] => fail
             | _ => destruct b
             end
         | |- context [let '(_, _) := ?p in _] => destruct p as [[[? ?]|] ?]
         end; simpl;
    rewrite ?memset_length, ?length_insert; split; auto; congruence.
Qed.

Lemma scan_loop_shape (fuel : nat) :
  forall st st',
    scan_loop stray syn rend fuel st = Some st' ->
    length (sc_hl st') = length (sc_hl st)
    /\ (sc_in_comment st' = sc_in_comment st
        \/ sc_in_comment st' = 0 \/ sc_in_comment st' = 1).
Proof.
  induction fuel as [|fuel IH]; intros st st'; simpl.
  - case_match; [done|]. intros [= <-]. auto.
  - case_match; [|intros [= <-]; auto].
    intros Hrun. apply IH in Hrun as [Hl Hc].
    destruct (scan_step_shape st) as [Hl' Hc']. split; [congruence|].
    destruct Hc as [->|Hc]; auto.
Qed.

Lemma syntax_pass_shape (in_comment : Z) (st : scan) :
  syntax_pass stray syn rend in_comment = Some st ->
  length (sc_hl st) = length rend
  /\ (sc_in_comment st = in_comment
      \/ sc_in_comment st = 0 \/ sc_in_comment st = 1).
Proof.
  intros Hrun. apply scan_loop_shape in Hrun as [Hl Hc]. simpl in *.
  by rewrite length_replicate in Hl.
Qed.

End Shape.

Lemma seed_at_bit (E : editorConfig) (j : nat) :
  seed_at E j = 0 \/ seed_at E j = 1.
Proof. destruct j; simpl; repeat case_match; auto. Qed.

(** X5. In a buffer whose highlighting is current every row has one [hl]
    entry for each byte of [render], and under a profile its
    [hl_open_comment] is 0 or 1. *)
Theorem current_row_shape (stray : ascii) (E : editorConfig) (j : nat)
        (r : erow) :
  up_to_date stray E -> row E !! j = Some r ->
  length (hl r) = length (render r)
  /\ (is_Some (syntax E) -> hl_open_comment r = 0 \/ hl_open_comment r = 1).
Proof.
  intros Hup Hr. specialize (Hup j r Hr). unfold row_current in Hup.
  destruct (syntax E) as [syn|].
  - destruct Hup as (st & Hrun & Hh & Ho).
    apply syntax_pass_shape in Hrun as [Hl Hc]. split; [congruence|].
    intros _. rewrite Ho. destruct (seed_at_bit E j); lia.
  - split; [by rewrite Hup, length_replicate|]. by intros [? ?].
Qed.

Lemma current_row_shape_witness :
  length (hl (mkRow 0 (cstr "ab") (cstr "ab") [HL_NORMAL; HL_NORMAL] 0))
  = length (render (mkRow 0 (cstr "ab") (cstr "ab") [HL_NORMAL; HL_NORMAL] 0)).
Proof.
  apply (current_row_shape NUL buffer_ab 0
           (mkRow 0 (cstr "ab") (cstr "ab") [HL_NORMAL; HL_NORMAL] 0)).
  - exact buffer_ab_up_to_date.
  - reflexivity.
Defined.

(** ** What the editing operations do to the text *)

Lemma texts_render (l l' : list erow) :
  map text_of l = map text_of l' -> map render l = map render l'.
Proof.
  intros H. apply (f_equal (map (fun t : Z * list ascii * list ascii => t.2))) in H.
  by rewrite !map_map in H.
Qed.

Lemma texts_rendered (E E' : editorConfig) :
  tab_stop E' = tab_stop E ->
  map text_of (row E') = map text_of (row E) ->
  rows_rendered E -> rows_rendered E'.
Proof.
  intros Hts Ht Hr k r' Hk.
  destruct (texts_lookup _ _ _ _ Ht Hk) as (r & Hr' & Heq).
  injection Heq as _ Hc Hre. specialize (Hr k r Hr').
  unfold rendered in *. by rewrite Hts, Hc, Hre.
Qed.

Lemma consistent_texts (E E' : editorConfig) :
  tab_stop E' = tab_stop E -> numrows E' = numrows E ->
  map text_of (row E') = map text_of (row E) ->
  consistent E -> consistent E'.
Proof.
  intros Hts Hn Ht (Hidx & Hcnt & Hren & Hpos).
  split; [by apply (texts_indexed E)|]. split.
  { unfold counted in *. by rewrite Hn, Hcnt, (texts_length _ _ Ht). }
  split; [by apply (texts_rendered E)|]. by rewrite Hts.
Qed.

Lemma map_insert {A B} (f : A -> B) (l : list A) (i : nat) (x : A) :
  map f (<[i := x]> l) = <[i := f x]> (map f l).
Proof. apply (list_fmap_insert f). Qed.

Section Text.

Variable stray : ascii.
Variable junk : Z.

(** The [chars] of row [j] replaced and the row rendered afresh. *)
Lemma edit_row_text (E : editorConfig) (j : nat) (r : erow) (cs : list ascii) :
  consistent E -> row E !! j = Some r ->
  exists rows',
    editorUpdateRow stray (store_row E (Z.of_nat j) (set_chars r cs)) (Z.of_nat j)
    = Some (set_row E rows')
    /\ consistent (set_row E rows')
    /\ map chars rows' = <[j := cs]> (text E)
    /\ (up_to_date stray E -> up_to_date stray (set_row E rows')).
Proof.
  intros (Hidx & Hcnt & Hren & Hts) Hr. rewrite store_row_nat.
  set (E1 := set_row E (<[j := set_chars r cs]> (row E))).
  pose proof (lookup_lt_Some _ _ _ Hr) as Hj.
  assert (Hr1 : row E1 !! j = Some (set_chars r cs))
    by (subst E1; simpl; by rewrite list_lookup_insert_eq).
  assert (Hidx1 : indexed E1) by (by eapply indexed_store).
  destruct (expand_tabs_total (tab_stop E) cs Hts []) as [rs Hrs].
  destruct (editorUpdateRow_spec stray E1 j (set_chars r cs) rs)
    as (rows' & Hrun & Ht & _); auto.
  { subst E1. simpl. rewrite length_insert, Hcnt. lia. }
  subst E1. simpl in *. rewrite list_insert_insert_eq in Ht.
  exists rows'. split; [exact Hrun|]. split; [|split].
  - apply (consistent_texts
             (set_row E (<[j := set_render (set_chars r cs) rs]> (row E))));
      [done|done|done|].
    split; [by eapply indexed_store|]. split.
    { unfold counted in *. simpl. by rewrite length_insert. }
    split; [|done]. intros k x. simpl. intros Hk.
    destruct (decide (j = k)) as [->|Hne].
    + rewrite list_lookup_insert_eq in Hk by done. by injection Hk as <-.
    + rewrite list_lookup_insert_ne in Hk by done. by apply (Hren k).
  - rewrite (texts_chars _ _ Ht). unfold text.
    change (map chars) with (fmap (M:=list) chars).
    by rewrite list_fmap_insert.
  - intros Hup.
    destruct (edit_row_spec stray E (set_row E rows') j r cs Hidx Hcnt Hup Hr)
      as (_ & _ & Hup' & _); [|done].
    by rewrite store_row_nat.
Qed.

Lemma editorRowInsertChar_text (E : editorConfig) (j : nat) (r : erow)
      (at_ c : Z) :
  consistent E -> row E !! j = Some r -> 0 <= at_ <= size r ->
  exists E',
    editorRowInsertChar stray E (Z.of_nat j) at_ c = Some E'
    /\ consistent E'
    /\ text E' = <[j := take (Z.to_nat at_) (chars r)
                        ++ char_of_int c :: drop (Z.to_nat at_) (chars r)]> (text E)
    /\ same_frame E E' /\ numrows E' = numrows E
    /\ dirty E' = ushort (dirty E + 1)
    /\ (up_to_date stray E -> up_to_date stray E').
Proof.
  intros Hc Hr Hat. unfold editorRowInsertChar.
  rewrite row_at_nat, Hr. cbn [mbind option_bind].
  pose proof Hc as (_ & _ & Hren & _).
  pose proof (rendered_size E r (Hren j r Hr)) as Hsz.
  destruct (Z.ltb_spec at_ 0); [lia|].
  destruct (Z.ltb_spec (rsize r) at_); [lia|]. cbn [orb].
  destruct (Z.ltb_spec (size r + 1) at_); [lia|].
  destruct (Z.ltb_spec (size r) at_); [lia|].
  destruct (edit_row_text E j r
              (take (Z.to_nat at_) (chars r)
               ++ char_of_int c :: drop (Z.to_nat at_) (chars r)) Hc Hr)
    as (rows' & -> & Hc' & Ht & Hup).
  cbn [mbind option_bind]. eexists. split; [reflexivity|].
  split; [by apply (consistent_texts (set_row E rows'))|].
  split; [exact Ht|]. split; [done|]. split; [done|]. split; [done|].
  intros Hu. by apply up_to_date_set_dirty, Hup.
Qed.

Lemma editorRowDelChar_text (E : editorConfig) (j : nat) (r : erow) (at_ : Z) :
  consistent E -> row E !! j = Some r -> 0 <= at_ < size r ->
  exists E',
    editorRowDelChar stray E (Z.of_nat j) at_ = Some E'
    /\ consistent E'
    /\ text E' = <[j := take (Z.to_nat at_) (chars r)
                        ++ drop (S (Z.to_nat at_)) (chars r)]> (text E)
    /\ same_frame E E' /\ numrows E' = numrows E
    /\ dirty E' = ushort (dirty E + 1)
    /\ (up_to_date stray E -> up_to_date stray E').
Proof.
  intros Hc Hr Hat. unfold editorRowDelChar.
  rewrite row_at_nat, Hr. cbn [mbind option_bind].
  destruct (Z.ltb_spec at_ 0); [lia|].
  destruct (Z.leb_spec (size r) at_); [lia|]. cbn [orb].
  destruct (edit_row_text E j r
              (take (Z.to_nat at_) (chars r) ++ drop (S (Z.to_nat at_)) (chars r))
              Hc Hr)
    as (rows' & -> & Hc' & Ht & Hup).
  cbn [mbind option_bind]. eexists. split; [reflexivity|].
  split; [by apply (consistent_texts (set_row E rows'))|].
  split; [exact Ht|]. split; [done|]. split; [done|]. split; [done|].
  intros Hu. by apply up_to_date_set_dirty, Hup.
Qed.

Lemma editorRowAppendString_text (E : editorConfig) (j : nat) (r : erow)
      (s : list ascii) :
  consistent E -> row E !! j = Some r ->
  exists E',
    editorRowAppendString stray E (Z.of_nat j) s = Some E'
    /\ consistent E'
    /\ text E' = <[j := chars r ++ s]> (text E)
    /\ same_frame E E' /\ numrows E' = numrows E
    /\ dirty E' = ushort (dirty E + 1)
    /\ (up_to_date stray E -> up_to_date stray E').
Proof.
  intros Hc Hr. unfold editorRowAppendString.
  rewrite row_at_nat, Hr. cbn [mbind option_bind].
  destruct (edit_row_text E j r (chars r ++ s) Hc Hr)
    as (rows' & -> & Hc' & Ht & Hup).
  cbn [mbind option_bind]. eexists. split; [reflexivity|].
  split; [by apply (consistent_texts (set_row E rows'))|].
  split; [exact Ht|]. split; [done|]. split; [done|]. split; [done|].
  intros Hu. by apply up_to_date_set_dirty, Hup.
Qed.

Lemma editorInsertRow_text (E : editorConfig) (at_ : Z) (s : list ascii) :
  consistent E -> numrows E < 65535 -> 0 <= at_ <= numrows E ->
  exists E',
    editorInsertRow stray junk E at_ s = Some E'
    /\ consistent E'
    /\ text E' = take (Z.to_nat at_) (text E) ++ s :: drop (Z.to_nat at_) (text E)
    /\ same_frame E E' /\ numrows E' = numrows E + 1
    /\ dirty E' = ushort (dirty E + 1).
Proof.
  intros (Hidx & Hcnt & Hren & Hts) Hmax Hat.
  destruct (expand_tabs_total (tab_stop E) s Hts []) as [rs Hrs].
  destruct (editorInsertRow_spec stray junk E at_ s rs Hidx Hcnt Hmax Hat Hrs)
    as (rows' & fresh & Hrun & Hf & Hs & Ht & _).
  simpl in Hf. cbn [row set_row] in Ht.
  assert (Hat' : 0 <= at_ <= Z.of_nat (length (row E)))
    by (unfold counted in Hcnt; lia).
  pose proof (rows_opened_length junk E at_ s Hat') as Hlen.
  pose proof (lookup_lt_Some _ _ _ Hf) as Hk.
  eexists. split; [exact Hrun|]. split; [|split; [|done]].
  - apply (consistent_texts
             (set_numrows
                (set_row E (<[Z.to_nat at_ := set_render fresh rs]>
                              (rows_opened junk E at_ s)))
                (numrows E + 1))); [done|done|exact Ht|].
    split.
    { apply (indexed_store (set_row E (rows_opened junk E at_ s)) _ fresh);
        [by apply rows_opened_indexed|done|done]. }
    split.
    { unfold counted in *. simpl. rewrite length_insert, Hlen. lia. }
    split; [|done]. intros i x. simpl. intros Hi.
    destruct (decide (Z.to_nat at_ = i)) as [<-|Hne].
    + rewrite list_lookup_insert_eq in Hi by done. injection Hi as <-.
      unfold rendered. simpl. by rewrite Hs.
    + rewrite list_lookup_insert_ne in Hi by done.
      destruct (rows_opened_lookup junk E at_ s i x Hat' Hi)
        as [[_ Hx]|[[Hx _]|(_ & y & Hy & ->)]].
      * by apply (Hren i).
      * by subst i.
      * exact (Hren _ _ Hy).
  - unfold text. cbn [row set_dirty set_numrows set_row].
    rewrite (texts_chars _ _ Ht), map_insert, rows_opened_chars. simpl.
    assert (length (take (Z.to_nat at_) (map chars (row E))) = Z.to_nat at_) as Hl
      by (rewrite length_take, length_map; lia).
    rewrite insert_app_r_alt by lia. rewrite Hl, Nat.sub_diag. simpl.
    by rewrite Hs.
Qed.

Lemma editorDelRow_text (E : editorConfig) (at_ : Z) :
  consistent E -> numrows E < 65536 -> 0 <= at_ < numrows E ->
  consistent (editorDelRow E at_)
  /\ text (editorDelRow E at_)
     = take (Z.to_nat at_) (text E) ++ drop (S (Z.to_nat at_)) (text E)
  /\ same_frame E (editorDelRow E at_)
  /\ numrows (editorDelRow E at_) = numrows E - 1
  /\ dirty (editorDelRow E at_) = ushort (dirty E + 1).
Proof.
  intros (Hidx & Hcnt & Hren & Hts) Hmax Hat. unfold editorDelRow.
  destruct (Z.ltb_spec at_ 0); [lia|].
  destruct (Z.leb_spec (numrows E) at_); [lia|]. cbn [orb].
  set (k := Z.to_nat at_).
  assert (Hk : (k < length (row E))%nat) by (unfold counted in Hcnt; lia).
  assert (Hu : ushort (numrows E - 1) = numrows E - 1)
    by (unfold ushort; apply Z.mod_small; lia).
  assert (Hlook : forall i x,
            (take k (row E)
             ++ map (fun r => set_idx r (idx r - 1)) (drop (S k) (row E))) !! i
            = Some x ->
            ((i < k)%nat /\ row E !! i = Some x)
            \/ ((k <= i)%nat
                /\ exists y, row E !! S i = Some y /\ x = set_idx y (idx y - 1))).
  { intros i x. rewrite lookup_app.
    destruct (take k (row E) !! i) as [y|] eqn:Hy.
    - intros [= <-]. left. apply lookup_take_Some in Hy. tauto.
    - apply lookup_ge_None in Hy. rewrite length_take in Hy.
      change (map ?f) with (fmap (M:=list) f).
      rewrite list_lookup_fmap, lookup_drop, length_take.
      replace (S k + (i - k `min` length (row E)))%nat with (S i) by lia.
      destruct (row E !! S i) as [y|]; simpl; [|done].
      intros [= <-]. right. split; [lia|]. by exists y. }
  split; [|split; [|split; [done|split; [done|done]]]].
  - split.
    { intros i x. simpl. intros Hi.
      destruct (Hlook i x Hi) as [[_ Hx]|(_ & y & Hy & ->)].
      - by apply Hidx.
      - simpl. rewrite (Hidx _ _ Hy). lia. }
    split.
    { unfold counted in *. simpl.
      rewrite Hu, length_app, length_take, length_map, length_drop. lia. }
    split; [|done]. intros i x. simpl. intros Hi.
    destruct (Hlook i x Hi) as [[_ Hx]|(_ & y & Hy & ->)].
    + by apply (Hren i).
    + exact (Hren _ _ Hy).
  - unfold text. cbn [row set_dirty set_numrows set_row].
    rewrite map_app, map_map. cbn [chars set_idx].
    change (map ?f) with (fmap (M:=list) f).
    by rewrite fmap_take, fmap_drop.
Qed.

End Text.

Lemma buffer_ab_consistent : consistent buffer_ab.
Proof.
  split; [exact buffer_ab_indexed|]. split; [reflexivity|].
  split; [|simpl; lia].
  intros [|[|k]] r Hk; simpl in Hk; by simplify_eq.
Qed.

Lemma ushort_twice (d : Z) : ushort (ushort (d + 1) + 1) = ushort (d + 2).
Proof.
  unfold ushort. rewrite Z.add_mod_idemp_l by lia. f_equal. lia.
Qed.

(** Consistent buffers with the same contents have the same text in the
    sense of [same_text]: indices and rendering follow from the
    contents. *)
Lemma consistent_same_text (E E' : editorConfig) :
  consistent E -> consistent E' -> tab_stop E' = tab_stop E ->
  text E' = text E ->
  map text_of (row E') = map text_of (row E).
Proof.
  intros (Hidx & _ & Hren & _) (Hidx' & _ & Hren' & _) Hts Ht.
  change (map ?f) with (fmap (M:=list) f). apply list_eq. intros i.
  rewrite !list_lookup_fmap.
  assert (chars <$> row E' !! i = chars <$> row E !! i) as Hc.
  { rewrite <- !list_lookup_fmap. change (fmap (M:=list) chars) with (map chars).
    unfold text in Ht. by rewrite Ht. }
  destruct (row E' !! i) as [r'|] eqn:Hr', (row E !! i) as [r|] eqn:Hr;
    simpl in *; simplify_eq; [|done].
  f_equal. unfold text_of.
  rewrite (Hidx' _ _ Hr'), (Hidx _ _ Hr).
  specialize (Hren' _ _ Hr'). specialize (Hren _ _ Hr). unfold rendered in *.
  assert (chars r' = chars r) as Hcr by congruence.
  rewrite Hts, Hcr in Hren'. rewrite Hren in Hren'. injection Hren' as <-.
  by rewrite Hcr.
Qed.

(** X6. [editorDelRow] on a consistent buffer: for [0 <= at < numrows] the
    row at [at] goes, the rows after it move up and are renumbered, the
    count is one less and [dirty] one more; for any other [at] nothing
    changes. *)
Theorem del_row_removes (E : editorConfig) (at_ : Z) :
  consistent E -> numrows E < 65536 ->
  (0 <= at_ < numrows E ->
   consistent (editorDelRow E at_)
   /\ text (editorDelRow E at_) = delete (Z.to_nat at_) (text E)
   /\ numrows (editorDelRow E at_) = numrows E - 1
   /\ dirty (editorDelRow E at_) = ushort (dirty E + 1))
  /\ (at_ < 0 \/ numrows E <= at_ -> editorDelRow E at_ = E).
Proof.
  intros Hc Hmax. split.
  - intros Hat.
    destruct (editorDelRow_text E at_ Hc Hmax Hat) as (H1 & H2 & _ & H3 & H4).
    rewrite delete_take_drop. auto.
  - intros Hat. unfold editorDelRow.
    destruct (Z.ltb_spec at_ 0); [done|].
    destruct (Z.leb_spec (numrows E) at_); [done|]. lia.
Qed.

Lemma del_row_removes_witness :
  text (editorDelRow buffer_ab 0) = delete (Z.to_nat 0) (text buffer_ab)
  /\ editorDelRow buffer_ab 2 = buffer_ab.
Proof.
  destruct (del_row_removes buffer_ab 0 buffer_ab_consistent) as [Hin _];
    [simpl; lia|].
  destruct (del_row_removes buffer_ab 2 buffer_ab_consistent) as [_ Hout];
    [simpl; lia|].
  split.
  - apply Hin. simpl; lia.
  - apply Hout. right. simpl; lia.
Defined.

(** X7. In a consistent buffer with no syntax profile selected, deleting
    the row that [editorInsertRow] has just put in gives the contents and
    the count back; [dirty] has counted two changes.  (Under a profile the
    new row goes through the scan, whose function-name rule can store in
    front of [hl].) *)
Theorem insert_row_then_del_row (stray : ascii) (junk : Z) (E : editorConfig)
        (at_ : Z) (s : list ascii) :
  syntax E = None ->
  consistent E -> numrows E < 65535 -> 0 <= at_ <= numrows E ->
  exists E1,
    editorInsertRow stray junk E at_ s = Some E1
    /\ consistent (editorDelRow E1 at_)
    /\ text (editorDelRow E1 at_) = text E
    /\ numrows (editorDelRow E1 at_) = numrows E
    /\ dirty (editorDelRow E1 at_) = ushort (dirty E + 2).
Proof.
  intros _ Hc Hmax Hat.
  destruct (editorInsertRow_text stray junk E at_ s Hc Hmax Hat)
    as (E1 & Hrun & Hc1 & Ht1 & _ & Hn1 & Hd1).
  exists E1. split; [exact Hrun|].
  destruct (editorDelRow_text E1 at_ Hc1) as (Hc2 & Ht2 & _ & Hn2 & Hd2);
    [lia|lia|].
  split; [exact Hc2|]. split; [|split; [lia|]].
  - rewrite Ht2, Ht1.
    assert (length (take (Z.to_nat at_) (text E)) = Z.to_nat at_) as Hl.
    { destruct Hc as (_ & Hcnt & _). unfold counted in Hcnt. unfold text.
      rewrite length_take, length_map. lia. }
    rewrite take_app_length' by done.
    rewrite (cons_middle s), app_assoc.
    rewrite drop_app_length' by (rewrite length_app; simpl; lia).
    apply take_drop.
  - rewrite Hd2, Hd1. apply ushort_twice.
Qed.

Lemma insert_row_then_del_row_witness :
  exists E1,
    editorInsertRow NUL 0 buffer_ab 1 (cstr "x") = Some E1
    /\ text (editorDelRow E1 1) = text buffer_ab.
Proof.
  destruct (insert_row_then_del_row NUL 0 buffer_ab 1 (cstr "x")
              eq_refl buffer_ab_consistent)
    as (E1 & Hrun & _ & Ht & _).
  - simpl; lia.
  - simpl; lia.
  - exists E1. by split.
Defined.

(** X8. In a consistent buffer with no syntax profile selected,
    [editorRowDelChar] at the position where [editorRowInsertChar] has
    just put a byte gives the contents of the buffer back, and in a buffer
    whose highlighting was current the highlighting too.  (Under a profile
    the row goes twice through the scan, whose function-name rule can
    store in front of [hl].) *)
Theorem row_insert_then_del_char (stray : ascii) (E : editorConfig) (j : nat)
        (r : erow) (at_ c : Z) :
  syntax E = None ->
  consistent E -> row E !! j = Some r -> 0 <= at_ <= size r ->
  exists E1 E2,
    editorRowInsertChar stray E (Z.of_nat j) at_ c = Some E1
    /\ editorRowDelChar stray E1 (Z.of_nat j) at_ = Some E2
    /\ consistent E2 /\ text E2 = text E
    /\ dirty E2 = ushort (dirty E + 2)
    /\ (up_to_date stray E -> map hl (row E2) = map hl (row E)).
Proof.
  intros _ Hc Hr Hat.
  destruct (editorRowInsertChar_text stray E j r at_ c Hc Hr Hat)
    as (E1 & Hrun1 & Hc1 & Ht1 & Hf1 & Hn1 & Hd1 & Hup1).
  pose proof (lookup_lt_Some _ _ _ Hr) as Hj.
  set (cs1 := take (Z.to_nat at_) (chars r)
              ++ char_of_int c :: drop (Z.to_nat at_) (chars r)) in *.
  assert (Hl : length (take (Z.to_nat at_) (chars r)) = Z.to_nat at_)
    by (rewrite length_take; unfold size in Hat; lia).
  assert (exists r1, row E1 !! j = Some r1 /\ chars r1 = cs1) as (r1 & Hr1 & Hcs1).
  { assert (text E1 !! j = Some cs1) as Hl1.
    { rewrite Ht1. apply list_lookup_insert_eq. unfold text.
      by rewrite length_map. }
    unfold text in Hl1. change (map chars) with (fmap (M:=list) chars) in Hl1.
    rewrite list_lookup_fmap in Hl1.
    destruct (row E1 !! j) as [r1|]; simpl in Hl1; [|done].
    exists r1. split; [done|]. congruence. }
  destruct (editorRowDelChar_text stray E1 j r1 at_ Hc1 Hr1)
    as (E2 & Hrun2 & Hc2 & Ht2 & Hf2 & Hn2 & Hd2 & Hup2).
  { unfold size. rewrite Hcs1. subst cs1. rewrite length_app. simpl. lia. }
  exists E1, E2. split; [exact Hrun1|]. split; [exact Hrun2|].
  split; [exact Hc2|].
  assert (Ht : text E2 = text E).
  { rewrite Ht2, Ht1, list_insert_insert_eq, Hcs1. subst cs1.
    rewrite take_app_length' by done.
    rewrite (cons_middle (char_of_int c)), app_assoc.
    rewrite drop_app_length' by (rewrite length_app; simpl; lia).
    rewrite take_drop. apply list_insert_id. unfold text.
    change (map chars) with (fmap (M:=list) chars).
    by rewrite list_lookup_fmap, Hr. }
  split; [exact Ht|]. split; [rewrite Hd2, Hd1; apply ushort_twice|].
  intros Hup. apply (up_to_date_unique stray).
  - by destruct Hc2 as (_ & ? & _).
  - destruct Hf1 as (? & ? & _), Hf2 as (? & ? & _).
    split; [congruence|]. split; [congruence|]. split; [congruence|].
    apply consistent_same_text; auto. congruence.
  - auto.
  - done.
Qed.

Lemma row_insert_then_del_char_witness :
  exists E1 E2,
    editorRowInsertChar NUL buffer_ab 0 1 120 = Some E1
    /\ editorRowDelChar NUL E1 0 1 = Some E2
    /\ text E2 = text buffer_ab.
Proof.
  destruct (row_insert_then_del_char NUL buffer_ab 0
              (mkRow 0 (cstr "ab") (cstr "ab") [HL_NORMAL; HL_NORMAL] 0) 1 120
              eq_refl buffer_ab_consistent)
    as (E1 & E2 & H1 & H2 & _ & Ht & _).
  - reflexivity.
  - unfold size; simpl; lia.
  - exists E1, E2. auto.
Defined.

(** X9. [editorRowDelChar] on a row of a consistent buffer with no syntax
    profile selected: for [0 <= at < size] the byte at [at] goes and
    nothing else of the contents changes, the row is rendered and the
    highlighting brought up to date again, and [dirty] is one more; for
    any other [at] the buffer is left as it is, [dirty] included.  (Under
    a profile the row goes through the scan, whose function-name rule can
    store in front of [hl].) *)
Theorem row_del_char_removes (stray : ascii) (E : editorConfig) (j : nat)
        (r : erow) (at_ : Z) :
  syntax E = None ->
  consistent E -> row E !! j = Some r ->
  (0 <= at_ < size r ->
   exists E',
     editorRowDelChar stray E (Z.of_nat j) at_ = Some E'
     /\ consistent E'
     /\ text E' = <[j := delete (Z.to_nat at_) (chars r)]> (text E)
     /\ dirty E' = ushort (dirty E + 1)
     /\ (up_to_date stray E -> up_to_date stray E'))
  /\ (at_ < 0 \/ size r <= at_ ->
      editorRowDelChar stray E (Z.of_nat j) at_ = Some E).
Proof.
  intros _ Hc Hr. split.
  - intros Hat.
    destruct (editorRowDelChar_text stray E j r at_ Hc Hr Hat)
      as (E' & Hrun & Hc' & Ht & _ & _ & Hd & Hup).
    exists E'. rewrite delete_take_drop. auto.
  - intros Hat. unfold editorRowDelChar.
    rewrite row_at_nat, Hr. cbn [mbind option_bind].
    destruct (Z.ltb_spec at_ 0); [done|].
    destruct (Z.leb_spec (size r) at_); [done|]. lia.
Qed.

Lemma row_del_char_removes_witness :
  (exists E',
     editorRowDelChar NUL buffer_ab 0 0 = Some E'
     /\ text E' = <[0%nat := delete (Z.to_nat 0) (cstr "ab")]> (text buffer_ab))
  /\ editorRowDelChar NUL buffer_ab 0 2 = Some buffer_ab.
Proof.
  destruct (row_del_char_removes NUL buffer_ab 0
              (mkRow 0 (cstr "ab") (cstr "ab") [HL_NORMAL; HL_NORMAL] 0) 0
              eq_refl buffer_ab_consistent eq_refl) as [Hin _].
  destruct (row_del_char_removes NUL buffer_ab 0
              (mkRow 0 (cstr "ab") (cstr "ab") [HL_NORMAL; HL_NORMAL] 0) 2
              eq_refl buffer_ab_consistent eq_refl) as [_ Hout].
  split.
  - destruct Hin as (E' & Hrun & _ & Ht & _); [unfold size; simpl; lia|].
    exists E'. by split.
  - apply Hout. right. unfold size; simpl; lia.
Defined.

(** X10. [editorRowAppendString] on a row of a consistent buffer with no
    syntax profile selected puts the string after the row's contents and
    leaves the other rows' contents alone; the buffer stays consistent,
    its highlighting current if it was, and [dirty] is one more.  (Under a
    profile the row goes through the scan, whose function-name rule can
    store in front of [hl].) *)
Theorem row_append_string_appends (stray : ascii) (E : editorConfig) (j : nat)
        (r : erow) (s : list ascii) :
  syntax E = None ->
  consistent E -> row E !! j = Some r ->
  exists E',
    editorRowAppendString stray E (Z.of_nat j) s = Some E'
    /\ consistent E'
    /\ text E' = <[j := chars r ++ s]> (text E)
    /\ numrows E' = numrows E
    /\ dirty E' = ushort (dirty E + 1)
    /\ (up_to_date stray E -> up_to_date stray E').
Proof.
  intros _ Hc Hr.
  destruct (editorRowAppendString_text stray E j r s Hc Hr)
    as (E' & Hrun & Hc' & Ht & _ & Hn & Hd & Hup).
  exists E'. auto 10.
Qed.

Lemma row_append_string_appends_witness :
  exists E',
    editorRowAppendString NUL buffer_ab 1 (cstr "cd") = Some E'
    /\ text E' = [cstr "ab"; cstr "cd"].
Proof.
  destruct (row_append_string_appends NUL buffer_ab 1 (mkRow 1 [] [] [] 0)
              (cstr "cd") eq_refl buffer_ab_consistent eq_refl)
    as (E' & Hrun & _ & Ht & _).
  exists E'. split; [exact Hrun|]. exact Ht.
Defined.

(** ** Editing at the cursor *)

Lemma text_lookup (E : editorConfig) (j : nat) (r : erow) :
  row E !! j = Some r -> text E !! j = Some (chars r).
Proof.
  intros Hr. unfold text. change (map chars) with (fmap (M:=list) chars).
  by rewrite list_lookup_fmap, Hr.
Qed.

Lemma text_lookup_row (E : editorConfig) (j : nat) (cs : list ascii) :
  text E !! j = Some cs -> exists r, row E !! j = Some r /\ chars r = cs.
Proof.
  unfold text. change (map chars) with (fmap (M:=list) chars).
  rewrite list_lookup_fmap. destruct (row E !! j) as [r|]; simpl; [|done].
  intros [= <-]. by exists r.
Qed.

Lemma text_length (E : editorConfig) : length (text E) = length (row E).
Proof. unfold text. by rewrite length_map. Qed.

Lemma ushort_small (x : Z) : 0 <= x < 65536 -> ushort x = x.
Proof. intros. unfold ushort. by apply Z.mod_small. Qed.

Lemma consistent_set_cursor (E : editorConfig) (x y off : Z) :
  consistent E -> consistent (set_cursor E x y off).
Proof. by apply consistent_texts. Qed.

Ltac frame_simpl :=
  unfold set_cy, set_cx, set_rowoff, set_cursor, set_dirty, set_numrows,
    set_row, set_syntax;
  cbn [tab_stop row syntax cx cy rowoff numrows dirty].

Section CursorEdits.

Variable stray : ascii.
Variable junk : Z.

Lemma editorInsertNewLine_text (E : editorConfig) (k : nat) (r : erow) :
  consistent E -> numrows E < 65535 ->
  cy E = Z.of_nat k -> row E !! k = Some r -> 0 <= cx E <= size r ->
  exists E',
    editorInsertNewLine stray junk E = Some E'
    /\ consistent E'
    /\ text E' = take k (text E)
                 ++ take (Z.to_nat (cx E)) (chars r)
                 :: drop (Z.to_nat (cx E)) (chars r)
                 :: drop (S k) (text E)
    /\ cx E' = 0 /\ cy E' = cy E + 1 /\ numrows E' = numrows E + 1
    /\ tab_stop E' = tab_stop E /\ syntax E' = syntax E
    /\ rowoff E' = rowoff E.
Proof.
  intros Hc Hmax Hcy Hr Hcx.
  pose proof Hc as (_ & Hcnt & _). unfold counted in Hcnt.
  pose proof (lookup_lt_Some _ _ _ Hr) as Hk.
  pose proof (text_lookup E k r Hr) as Htk.
  assert (Hlk : length (take k (text E)) = k)
    by (rewrite length_take, text_length; lia).
  unfold editorInsertNewLine.
  destruct (Z.eqb_spec (cx E) 0) as [Hz|Hnz].
  - destruct (editorInsertRow_text stray junk E (cy E) [] Hc Hmax)
      as (E1 & -> & Hc1 & Ht1 & (Hts1 & Hsy1 & Hx1 & Hy1 & Ho1) & Hn1 & Hd1);
      [lia|].
    cbn [mbind option_bind]. eexists. split; [reflexivity|].
    split; [by apply consistent_set_cursor|].
    split.
    { change (text (set_cursor E1 0 (ushort (cy E1 + 1)) (rowoff E1)))
        with (text E1).
      rewrite Ht1, Hcy, Nat2Z.id, Hz. simpl.
      by rewrite drop_0, (drop_S _ _ _ Htk). }
    simpl. rewrite Hy1, ushort_small by lia. auto 10.
  - rewrite Hcy, row_at_nat, Hr. cbn [mbind option_bind].
    destruct (Z.ltb_spec (size r) (cx E)); [lia|].
    destruct (editorInsertRow_text stray junk E (Z.of_nat k + 1)
                (drop (Z.to_nat (cx E)) (chars r)) Hc Hmax)
      as (E1 & -> & Hc1 & Ht1 & (Hts1 & Hsy1 & Hx1 & Hy1 & Ho1) & Hn1 & Hd1);
      [lia|].
    cbn [mbind option_bind].
    replace (Z.to_nat (Z.of_nat k + 1)) with (S k) in Ht1 by lia.
    assert (Hl1 : text E1 !! k = Some (chars r)).
    { rewrite Ht1, lookup_app_l by (rewrite length_take, text_length; lia).
      rewrite lookup_take_lt by lia. done. }
    destruct (text_lookup_row E1 k (chars r) Hl1) as (r1 & Hr1 & Hcs1).
    rewrite Hy1, Hcy, row_at_nat, Hr1. cbn [mbind option_bind].
    destruct (edit_row_text stray E1 k r1
                (take (Z.to_nat (cx E1)) (chars r1)) Hc1 Hr1)
      as (rows' & -> & Hc2 & Ht2 & _).
    cbn [mbind option_bind]. eexists. split; [reflexivity|].
    split; [by apply consistent_set_cursor|].
    split.
    { change (text (set_cursor (set_row E1 rows') 0
                      (ushort (cy (set_row E1 rows') + 1))
                      (rowoff (set_row E1 rows'))))
        with (map chars rows').
      rewrite Ht2, Ht1, Hx1, Hcs1.
      rewrite (take_S_r _ _ _ Htk), <- app_assoc. simpl.
      rewrite insert_app_r_alt by lia. rewrite Hlk, Nat.sub_diag. done. }
    simpl. rewrite Hy1, Hcy, ushort_small by lia. auto 10.
Qed.

Lemma editorDelChar_join (E : editorConfig) (k : nat) (prev r : erow) :
  consistent E -> numrows E < 65536 ->
  cx E = 0 -> cy E = Z.of_nat (S k) ->
  row E !! k = Some prev -> row E !! S k = Some r ->
  exists E',
    editorDelChar stray E = Some E'
    /\ consistent E'
    /\ text E' = take k (text E)
                 ++ (chars prev ++ chars r) :: drop (S (S k)) (text E)
    /\ cx E' = ushort (size prev) /\ cy E' = Z.of_nat k
    /\ numrows E' = numrows E - 1
    /\ tab_stop E' = tab_stop E /\ syntax E' = syntax E
    /\ rowoff E' = rowoff E.
Proof.
  intros Hc Hmax Hcx Hcy Hp Hr.
  pose proof Hc as (_ & Hcnt & _). unfold counted in Hcnt.
  pose proof (lookup_lt_Some _ _ _ Hr) as Hk.
  unfold editorDelChar.
  destruct (Z.eqb_spec (cy E) (numrows E)); [lia|].
  destruct (Z.eqb_spec (cx E) 0); [|lia].
  destruct (Z.eqb_spec (cy E) 0); [lia|]. cbn [andb].
  destruct (Z.ltb_spec 0 (cx E)); [lia|].
  rewrite Hcy, row_at_nat, Hr. cbn [mbind option_bind].
  replace (Z.of_nat (S k) - 1) with (Z.of_nat k) by lia.
  rewrite row_at_nat, Hp. cbn [mbind option_bind].
  set (E0 := set_cx E (ushort (size prev))).
  assert (Hc0 : consistent E0) by (by apply consistent_set_cursor).
  replace (cy E0 - 1) with (Z.of_nat k) by (subst E0; simpl; lia).
  destruct (editorRowAppendString_text stray E0 k prev (chars r) Hc0 Hp)
    as (E1 & -> & Hc1 & Ht1 & (Hts1 & Hsy1 & Hx1 & Hy1 & Ho1) & Hn1 & Hd1 & _).
  cbn [mbind option_bind].
  assert (Hy : cy E1 = Z.of_nat (S k)) by (rewrite Hy1; subst E0; simpl; lia).
  destruct (editorDelRow_text E1 (cy E1) Hc1)
    as (Hc2 & Ht2 & (Hts2 & Hsy2 & Hx2 & Hy2 & Ho2) & Hn2 & Hd2).
  { rewrite Hn1. subst E0. simpl. lia. }
  { rewrite Hn1, Hy. subst E0. simpl. lia. }
  eexists. split; [reflexivity|].
  split; [by apply consistent_set_cursor|].
  split.
  { change (text (set_cy (editorDelRow E1 (cy E1))
                    (ushort (cy (editorDelRow E1 (cy E1)) - 1))))
      with (text (editorDelRow E1 (cy E1))).
    rewrite Ht2, Ht1, Hy, Nat2Z.id.
    change (text E0) with (text E).
    pose proof (text_lookup E k prev Hp) as Htk.
    rewrite take_insert_lt by lia. rewrite (take_S_r _ _ _ Htk).
    rewrite insert_app_r_alt by (rewrite length_take, text_length; lia).
    rewrite length_take, text_length.
    replace (k - k `min` length (row E))%nat with 0%nat by lia. simpl.
    rewrite drop_insert_lt by lia. by rewrite <- app_assoc. }
  frame_simpl.
  rewrite Hx2, Hx1, Hn2, Hn1, Hts2, Hts1, Hsy2, Hsy1, Ho2, Ho1.
  rewrite Hy2, Hy, (ushort_small (Z.of_nat (S k) - 1)) by lia.
  subst E0. frame_simpl. repeat split; lia.
Qed.

Lemma editorDelChar_back (E : editorConfig) (k : nat) (r : erow) :
  consistent E ->
  cy E = Z.of_nat k -> row E !! k = Some r ->
  0 < cx E <= size r -> cx E <= 65536 ->
  exists E',
    editorDelChar stray E = Some E'
    /\ consistent E'
    /\ text E' = <[k := take (Z.to_nat (cx E - 1)) (chars r)
                        ++ drop (S (Z.to_nat (cx E - 1))) (chars r)]> (text E)
    /\ cx E' = cx E - 1 /\ cy E' = cy E
    /\ numrows E' = numrows E
    /\ tab_stop E' = tab_stop E /\ syntax E' = syntax E
    /\ rowoff E' = rowoff E
    /\ (up_to_date stray E -> up_to_date stray E').
Proof.
  intros Hc Hcy Hr Hcx Hmax.
  pose proof Hc as (_ & Hcnt & _). unfold counted in Hcnt.
  pose proof (lookup_lt_Some _ _ _ Hr) as Hk.
  unfold editorDelChar.
  destruct (Z.eqb_spec (cy E) (numrows E)); [lia|].
  destruct (Z.eqb_spec (cx E) 0); [lia|]. cbn [andb].
  destruct (Z.ltb_spec 0 (cx E)); [|lia].
  rewrite Hcy.
  destruct (editorRowDelChar_text stray E k r (cx E - 1) Hc Hr)
    as (E1 & -> & Hc1 & Ht1 & (Hts1 & Hsy1 & Hx1 & Hy1 & Ho1) & Hn1 & Hd1 & Hup);
    [lia|].
  cbn [mbind option_bind]. eexists. split; [reflexivity|].
  split; [by apply consistent_set_cursor|].
  split; [exact Ht1|].
  frame_simpl. rewrite Hx1, ushort_small by lia.
  repeat split; try done; try congruence.
Qed.

Lemma editorInsertChar_text (E : editorConfig) (k : nat) (r : erow) (c : Z) :
  consistent E ->
  cy E = Z.of_nat k -> row E !! k = Some r ->
  0 <= cx E <= size r -> cx E < 65535 ->
  exists E',
    editorInsertChar stray junk E c = Some E'
    /\ consistent E'
    /\ text E' = <[k := take (Z.to_nat (cx E)) (chars r)
                        ++ char_of_int c :: drop (Z.to_nat (cx E)) (chars r)]>
                   (text E)
    /\ cx E' = cx E + 1 /\ cy E' = cy E
    /\ numrows E' = numrows E
    /\ tab_stop E' = tab_stop E /\ syntax E' = syntax E
    /\ rowoff E' = rowoff E
    /\ (up_to_date stray E -> up_to_date stray E').
Proof.
  intros Hc Hcy Hr Hcx Hmax.
  pose proof Hc as (_ & Hcnt & _). unfold counted in Hcnt.
  pose proof (lookup_lt_Some _ _ _ Hr) as Hk.
  unfold editorInsertChar.
  destruct (Z.eqb_spec (cy E) (numrows E)); [lia|].
  cbn [mbind option_bind]. rewrite Hcy.
  destruct (editorRowInsertChar_text stray E k r (cx E) c Hc Hr Hcx)
    as (E1 & -> & Hc1 & Ht1 & (Hts1 & Hsy1 & Hx1 & Hy1 & Ho1) & Hn1 & Hd1 & Hup).
  cbn [mbind option_bind]. eexists. split; [reflexivity|].
  split; [by apply consistent_set_cursor|].
  split; [exact Ht1|].
  frame_simpl. rewrite Hx1, ushort_small by lia.
  repeat split; try done; try congruence.
Qed.

End CursorEdits.

(** X11. [editorInsertNewLine] with the cursor on a row of a consistent
    buffer with no syntax profile selected, at a column from 0 to the
    row's length: the row is cut in two at the cursor, the part before it
    stays, the part from it on makes a new row just below, no byte of the
    buffer is lost, and the cursor goes to the start of the new row.
    (Under a profile both rows go through the scan, whose function-name
    rule can store in front of [hl].) *)
Theorem insert_newline_splits (stray : ascii) (junk : Z) (E : editorConfig)
        (k : nat) (r : erow) :
  syntax E = None ->
  consistent E -> numrows E < 65535 ->
  cy E = Z.of_nat k -> row E !! k = Some r -> 0 <= cx E <= size r ->
  exists E',
    editorInsertNewLine stray junk E = Some E'
    /\ consistent E'
    /\ text E' = take k (text E)
                 ++ take (Z.to_nat (cx E)) (chars r)
                 :: drop (Z.to_nat (cx E)) (chars r)
                 :: drop (S k) (text E)
    /\ concat (text E') = concat (text E)
    /\ cx E' = 0 /\ cy E' = cy E + 1 /\ numrows E' = numrows E + 1.
Proof.
  intros _ Hc Hmax Hcy Hr Hcx.
  destruct (editorInsertNewLine_text stray junk E k r Hc Hmax Hcy Hr Hcx)
    as (E' & Hrun & Hc' & Ht & Hx & Hy & Hn & _).
  exists E'. split; [exact Hrun|]. split; [exact Hc'|]. split; [exact Ht|].
  split; [|auto].
  rewrite Ht. rewrite <- (take_drop k (text E)) at 3.
  rewrite (drop_S _ _ _ (text_lookup E k r Hr)).
  rewrite !concat_app. simpl. f_equal.
  by rewrite (app_assoc (take _ (chars r))), take_drop.
Qed.

Lemma insert_newline_splits_witness :
  exists E',
    editorInsertNewLine NUL 0 (set_cursor buffer_ab 1 0 0) = Some E'
    /\ text E' = [cstr "a"; cstr "b"; []].
Proof.
  destruct (insert_newline_splits NUL 0 (set_cursor buffer_ab 1 0 0) 0
              (mkRow 0 (cstr "ab") (cstr "ab") [HL_NORMAL; HL_NORMAL] 0))
    as (E' & Hrun & _ & Ht & _).
  - reflexivity.
  - apply consistent_set_cursor, buffer_ab_consistent.
  - simpl; lia.
  - reflexivity.
  - reflexivity.
  - unfold size; simpl; lia.
  - exists E'. split; [exact Hrun|]. exact Ht.
Defined.

(** X12. [editorDelChar] in a consistent buffer with no syntax profile
    selected, with the cursor at the start of a row that is not the first:
    the row's contents are put after those of the row above, the row
    itself is removed, and the cursor goes to where the two meet.  (Under
    a profile the row above goes through the scan, whose function-name
    rule can store in front of [hl].) *)
Theorem del_char_joins (stray : ascii) (E : editorConfig) (k : nat)
        (prev r : erow) :
  syntax E = None ->
  consistent E -> numrows E < 65536 ->
  cx E = 0 -> cy E = Z.of_nat (S k) ->
  row E !! k = Some prev -> row E !! S k = Some r ->
  exists E',
    editorDelChar stray E = Some E'
    /\ consistent E'
    /\ text E' = take k (text E)
                 ++ (chars prev ++ chars r) :: drop (S (S k)) (text E)
    /\ cx E' = ushort (size prev) /\ cy E' = Z.of_nat k
    /\ numrows E' = numrows E - 1.
Proof.
  intros _ Hc Hmax Hcx Hcy Hp Hr.
  destruct (editorDelChar_join stray E k prev r Hc Hmax Hcx Hcy Hp Hr)
    as (E' & Hrun & Hc' & Ht & Hx & Hy & Hn & _).
  exists E'. auto 10.
Qed.

Lemma del_char_joins_witness :
  exists E',
    editorDelChar NUL (set_cursor buffer_ab 0 1 0) = Some E'
    /\ text E' = [cstr "ab"] /\ cx E' = 2 /\ cy E' = 0.
Proof.
  destruct (del_char_joins NUL (set_cursor buffer_ab 0 1 0) 0
              (mkRow 0 (cstr "ab") (cstr "ab") [HL_NORMAL; HL_NORMAL] 0)
              (mkRow 1 [] [] [] 0))
    as (E' & Hrun & _ & Ht & Hx & Hy & _).
  - reflexivity.
  - apply consistent_set_cursor, buffer_ab_consistent.
  - simpl; lia.
  - reflexivity.
  - reflexivity.
  - reflexivity.
  - reflexivity.
  - exists E'. split; [exact Hrun|]. split; [exact Ht|]. split; [exact Hx|exact Hy].
Defined.

(** X13. In a consistent buffer with no syntax profile selected,
    [editorDelChar] after [editorInsertNewLine] gives the contents of the
    buffer, the count of rows and the cursor back.  (Under a profile the
    rows go through the scan, whose function-name rule can store in front
    of [hl].) *)
Theorem newline_then_backspace (stray : ascii) (junk : Z) (E : editorConfig)
        (k : nat) (r : erow) :
  syntax E = None ->
  consistent E -> numrows E < 65535 ->
  cy E = Z.of_nat k -> row E !! k = Some r ->
  0 <= cx E <= size r -> cx E < 65536 ->
  exists E1 E2,
    editorInsertNewLine stray junk E = Some E1
    /\ editorDelChar stray E1 = Some E2
    /\ consistent E2 /\ text E2 = text E
    /\ cx E2 = cx E /\ cy E2 = cy E /\ numrows E2 = numrows E.
Proof.
  intros _ Hc Hmax Hcy Hr Hcx Hx16.
  pose proof Hc as (_ & Hcnt & _). unfold counted in Hcnt.
  pose proof (lookup_lt_Some _ _ _ Hr) as Hk.
  destruct (editorInsertNewLine_text stray junk E k r Hc Hmax Hcy Hr Hcx)
    as (E1 & Hrun1 & Hc1 & Ht1 & Hx1 & Hy1 & Hn1 & _).
  assert (Hlk : length (take k (text E)) = k)
    by (rewrite length_take, text_length; lia).
  assert (Hl0 : text E1 !! k = Some (take (Z.to_nat (cx E)) (chars r))).
  { rewrite Ht1, lookup_app_r by lia. by rewrite Hlk, Nat.sub_diag. }
  assert (Hl1 : text E1 !! S k = Some (drop (Z.to_nat (cx E)) (chars r))).
  { rewrite Ht1, lookup_app_r by lia. rewrite Hlk.
    by replace (S k - k)%nat with 1%nat by lia. }
  destruct (text_lookup_row E1 k _ Hl0) as (p1 & Hp1 & Hcp).
  destruct (text_lookup_row E1 (S k) _ Hl1) as (r1 & Hr1 & Hcr).
  destruct (editorDelChar_join stray E1 k p1 r1 Hc1)
    as (E2 & Hrun2 & Hc2 & Ht2 & Hx2 & Hy2 & Hn2 & _); try done; try lia.
  exists E1, E2. split; [exact Hrun1|]. split; [exact Hrun2|].
  split; [exact Hc2|]. split; [|split; [|split; lia]].
  - rewrite Ht2, Hcp, Hcr, take_drop, Ht1.
    rewrite take_app_length' by done.
    rewrite (cons_middle (take _ _)), (cons_middle (drop _ (chars r))), !app_assoc.
    rewrite drop_app_length' by (rewrite !length_app; simpl; lia).
    rewrite <- (take_drop k (text E)) at 3.
    by rewrite (drop_S _ _ _ (text_lookup E k r Hr)).
  - rewrite Hx2. unfold size. rewrite Hcp, length_take.
    unfold size in Hcx. rewrite ushort_small; lia.
Qed.

Lemma newline_then_backspace_witness :
  exists E1 E2,
    editorInsertNewLine NUL 0 (set_cursor buffer_ab 1 0 0) = Some E1
    /\ editorDelChar NUL E1 = Some E2
    /\ text E2 = text buffer_ab /\ cx E2 = 1 /\ cy E2 = 0.
Proof.
  destruct (newline_then_backspace NUL 0 (set_cursor buffer_ab 1 0 0) 0
              (mkRow 0 (cstr "ab") (cstr "ab") [HL_NORMAL; HL_NORMAL] 0))
    as (E1 & E2 & H1 & H2 & _ & Ht & Hx & Hy & _).
  - reflexivity.
  - apply consistent_set_cursor, buffer_ab_consistent.
  - simpl; lia.
  - reflexivity.
  - reflexivity.
  - unfold size; simpl; lia.
  - simpl; lia.
  - exists E1, E2. auto.
Defined.

(** X14. In a consistent buffer with no syntax profile selected,
    [editorDelChar] after [editorInsertChar] on a row gives the contents
    of the buffer and the cursor back, and in a buffer whose highlighting
    was current the highlighting too.  (Under a profile the row goes twice
    through the scan, whose function-name rule can store in front of
    [hl].) *)
Theorem insert_char_then_backspace (stray : ascii) (junk : Z)
        (E : editorConfig) (k : nat) (r : erow) (c : Z) :
  syntax E = None ->
  consistent E ->
  cy E = Z.of_nat k -> row E !! k = Some r ->
  0 <= cx E <= size r -> cx E < 65535 ->
  exists E1 E2,
    editorInsertChar stray junk E c = Some E1
    /\ editorDelChar stray E1 = Some E2
    /\ consistent E2 /\ text E2 = text E
    /\ cx E2 = cx E /\ cy E2 = cy E
    /\ (up_to_date stray E -> map hl (row E2) = map hl (row E)).
Proof.
  intros _ Hc Hcy Hr Hcx Hmax.
  pose proof (lookup_lt_Some _ _ _ Hr) as Hk.
  destruct (editorInsertChar_text stray junk E k r c Hc Hcy Hr Hcx Hmax)
    as (E1 & Hrun1 & Hc1 & Ht1 & Hx1 & Hy1 & Hn1 & Hts1 & Hsy1 & _ & Hup1).
  set (cs1 := take (Z.to_nat (cx E)) (chars r)
              ++ char_of_int c :: drop (Z.to_nat (cx E)) (chars r)) in *.
  assert (Hl : length (take (Z.to_nat (cx E)) (chars r)) = Z.to_nat (cx E))
    by (rewrite length_take; unfold size in Hcx; lia).
  assert (Hl1 : text E1 !! k = Some cs1).
  { rewrite Ht1. apply list_lookup_insert_eq. by rewrite text_length. }
  destruct (text_lookup_row E1 k cs1 Hl1) as (r1 & Hr1 & Hcs1).
  destruct (editorDelChar_back stray E1 k r1 Hc1)
    as (E2 & Hrun2 & Hc2 & Ht2 & Hx2 & Hy2 & Hn2 & Hts2 & Hsy2 & _ & Hup2);
    try done; try lia.
  { unfold size. rewrite Hcs1. subst cs1. rewrite length_app. simpl.
    rewrite length_drop. unfold size in Hcx. lia. }
  exists E1, E2. split; [exact Hrun1|]. split; [exact Hrun2|].
  split; [exact Hc2|].
  assert (Ht : text E2 = text E).
  { rewrite Ht2, Ht1, list_insert_insert_eq, Hcs1, Hx1.
    replace (Z.to_nat (cx E + 1 - 1)) with (Z.to_nat (cx E)) by lia.
    subst cs1. rewrite take_app_length' by done.
    rewrite (cons_middle (char_of_int c)), app_assoc.
    rewrite drop_app_length' by (rewrite length_app; simpl; lia).
    rewrite take_drop. apply list_insert_id. by apply text_lookup. }
  split; [exact Ht|]. split; [lia|]. split; [congruence|].
  intros Hup. apply (up_to_date_unique stray).
  - by destruct Hc2 as (_ & ? & _).
  - split; [congruence|]. split; [congruence|]. split; [congruence|].
    apply consistent_same_text; auto. congruence.
  - auto.
  - done.
Qed.

Lemma insert_char_then_backspace_witness :
  exists E1 E2,
    editorInsertChar NUL 0 (set_cursor buffer_ab 1 0 0) 120 = Some E1
    /\ editorDelChar NUL E1 = Some E2
    /\ text E2 = text buffer_ab /\ cx E2 = 1.
Proof.
  destruct (insert_char_then_backspace NUL 0 (set_cursor buffer_ab 1 0 0) 0
              (mkRow 0 (cstr "ab") (cstr "ab") [HL_NORMAL; HL_NORMAL] 0) 120)
    as (E1 & E2 & H1 & H2 & _ & Ht & Hx & _).
  - reflexivity.
  - apply consistent_set_cursor, buffer_ab_consistent.
  - reflexivity.
  - reflexivity.
  - unfold size; simpl; lia.
  - simpl; lia.
  - exists E1, E2. auto.
Defined.

(** X15. [editorInsertChar] with the cursor on the line after the last
    row, at column 0: a row holding just the character is added at the
    end of the buffer, and the cursor stands after the character. *)
Theorem insert_char_past_last_row (stray : ascii) (junk : Z)
        (E : editorConfig) (c : Z) :
  consistent E -> numrows E < 65535 ->
  cy E = numrows E -> cx E = 0 ->
  exists E',
    editorInsertChar stray junk E c = Some E'
    /\ consistent E'
    /\ text E' = text E ++ [[char_of_int c]]
    /\ cx E' = 1 /\ cy E' = cy E /\ numrows E' = numrows E + 1
    /\ dirty E' = ushort (dirty E + 2).
Proof.
  intros Hc Hmax Hcy Hcx.
  pose proof Hc as (_ & Hcnt & _). unfold counted in Hcnt.
  unfold editorInsertChar.
  destruct (Z.eqb_spec (cy E) (numrows E)); [|done].
  destruct (editorInsertRow_text stray junk E (numrows E) [] Hc Hmax)
    as (E1 & -> & Hc1 & Ht1 & (Hts1 & Hsy1 & Hx1 & Hy1 & Ho1) & Hn1 & Hd1);
    [lia|].
  cbn [mbind option_bind].
  rewrite Hcnt, Nat2Z.id in Ht1.
  rewrite <- text_length in Ht1. rewrite firstn_all, drop_all in Ht1.
  assert (Hl1 : text E1 !! length (text E) = Some []).
  { rewrite Ht1, lookup_app_r by lia. by rewrite Nat.sub_diag. }
  destruct (text_lookup_row E1 _ _ Hl1) as (r1 & Hr1 & Hcs1).
  assert (Hy : cy E1 = Z.of_nat (length (text E)))
    by (rewrite text_length; lia).
  rewrite Hy, Hx1, Hcx.
  destruct (editorRowInsertChar_text stray E1 _ r1 0 c Hc1 Hr1)
    as (E2 & -> & Hc2 & Ht2 & (Hts2 & Hsy2 & Hx2 & Hy2 & Ho2) & Hn2 & Hd2 & _).
  { unfold size. rewrite Hcs1. simpl. lia. }
  cbn [mbind option_bind]. eexists. split; [reflexivity|].
  split; [by apply consistent_set_cursor|].
  split.
  { change (text (set_cx E2 (ushort (cx E2 + 1)))) with (text E2).
    rewrite Ht2, Ht1, Hcs1. simpl.
    rewrite insert_app_r_alt by lia. by rewrite Nat.sub_diag. }
  frame_simpl. rewrite Hx2, Hx1, Hcx, Hy2, Hy1, Hn2, Hn1, Hd2, Hd1.
  rewrite ushort_twice. repeat split; try done; by apply ushort_small.
Qed.

Lemma insert_char_past_last_row_witness :
  exists E',
    editorInsertChar NUL 0 initEditor 120 = Some E'
    /\ text E' = [cstr "x"].
Proof.
  destruct (insert_char_past_last_row NUL 0 initEditor 120)
    as (E' & Hrun & _ & Ht & _).
  - split; [exact initEditor_indexed|]. split; [reflexivity|].
    split; [|simpl; lia]. intros j r Hj. simpl in Hj. by destruct j.
  - simpl; lia.
  - reflexivity.
  - reflexivity.
  - exists E'. split; [exact Hrun|]. exact Ht.
Defined.

(** ** Line ends on loading *)

Lemma getlines_rest (l : list ascii) :
  LF ∉ l ->
  forall cur, getlines l cur
              = match cur ++ l with [] => [] | _ => [cur ++ l] end.
Proof.
  induction l as [|c l IH]; intros Hl cur; simpl.
  - rewrite app_nil_r. by destruct cur.
  - apply not_elem_of_cons in Hl as [Hc Hl].
    destruct (Ascii.eqb_spec c LF); [done|].
    rewrite IH by done. by rewrite <- app_assoc.
Qed.

Lemma getlines_file (ls : list (list ascii * bool)) (rest : list ascii) :
  Forall (fun p : list ascii * bool => LF ∉ fst p) ls -> LF ∉ rest ->
  getlines (file_of ls rest) []
  = map (fun p : list ascii * bool =>
           fst p ++ (if snd p then [CR; LF] else [LF])) ls
    ++ match rest with [] => [] | _ => [rest] end.
Proof.
  intros Hls Hrest. unfold file_of.
  induction Hls as [|[l b] ls Hl _ IH]; simpl.
  - by rewrite getlines_rest.
  - destruct b.
    + simpl in Hl. rewrite <- !app_assoc. simpl.
      rewrite (cons_middle CR l), (app_assoc l [CR]), getlines_line.
      * simpl. rewrite IH. by rewrite <- app_assoc.
      * intros [H|H]%elem_of_app; [done|].
        by apply list_elem_of_singleton in H.
    + simpl in Hl. rewrite <- !app_assoc. simpl.
      rewrite getlines_line by done. simpl. by rewrite IH.
Qed.

Lemma strip_eol_rev_keeps (c : ascii) (rl : list ascii) :
  c <> LF -> c <> CR -> strip_eol_rev (c :: rl) = c :: rl.
Proof.
  intros H1 H2. simpl.
  destruct (Ascii.eqb_spec c LF); [done|].
  by destruct (Ascii.eqb_spec c CR).
Qed.

(** A storable row content comes through [strip_eol] as it is, whatever
    line end follows it. *)
Lemma strip_eol_storable (l : list ascii) :
  storable l ->
  strip_eol l = l /\ strip_eol (l ++ [LF]) = l /\ strip_eol (l ++ [CR; LF]) = l.
Proof.
  intros [Hlf Hcr].
  assert (Hrev : strip_eol_rev (rev l) = rev l).
  { destruct (rev l) as [|c rl] eqn:Hrl; [done|].
    assert (l = rev rl ++ [c]) as Hl
      by (by rewrite <- (rev_involutive l), Hrl).
    apply strip_eol_rev_keeps.
    - intros ->. apply Hlf. rewrite Hl. apply elem_of_app. right.
      by apply list_elem_of_singleton.
    - intros ->. apply Hcr. rewrite Hl. by rewrite last_snoc. }
  unfold strip_eol. rewrite !rev_app_distr. simpl.
  rewrite Hrev, rev_involutive. done.
Qed.

Lemma insert_lines_text (stray : ascii) (junk : Z) (lines : list (list ascii)) :
  forall E,
    consistent E ->
    numrows E + Z.of_nat (length lines) < 65536 ->
    exists E',
      insert_lines stray junk lines E = Some E'
      /\ consistent E'
      /\ text E' = text E ++ map strip_eol lines
      /\ (up_to_date stray E -> up_to_date stray E').
Proof.
  induction lines as [|line lines IH]; intros E Hc Hmax; simpl.
  - exists E. rewrite app_nil_r. auto.
  - pose proof Hc as (Hidx & Hcnt & _ & Hts).
    destruct (editorInsertRow_text stray junk E (numrows E) (strip_eol line) Hc)
      as (E1 & Hrun & Hc1 & Ht1 & _ & Hn1 & _);
      [simpl in Hmax; lia|unfold counted in Hcnt; lia|].
    destruct (editorInsertRow_end stray junk E (strip_eol line) Hidx Hcnt)
      as (E1' & Hrun' & _ & _ & _ & _ & _ & _ & Hup1);
      [simpl in Hmax; lia|done|].
    rewrite Hrun in Hrun'. injection Hrun' as <-.
    rewrite Hrun. cbn [mbind option_bind].
    destruct (IH E1 Hc1) as (E' & Hrun2 & Hc2 & Ht2 & Hup2);
      [simpl in Hmax; lia|].
    exists E'. split; [exact Hrun2|]. split; [exact Hc2|]. split; [|auto].
    rewrite Ht2, Ht1. unfold counted in Hcnt.
    rewrite Hcnt, Nat2Z.id, <- text_length, firstn_all, drop_all.
    by rewrite <- app_assoc.
Qed.

(** What [editorOpen] makes of a file, whatever its line ends. *)
Lemma editorOpen_file (stray : ascii) (junk : Z) (E0 : editorConfig)
        (ls : list (list ascii * bool)) (rest : list ascii) :
  row E0 = [] -> numrows E0 = 0 -> 0 < tab_stop E0 ->
  Z.of_nat (length ls) < 65535 ->
  Forall (fun p : list ascii * bool => storable (fst p)) ls -> storable rest ->
  exists E,
    editorOpen stray junk E0 (file_of ls rest) = Some E
    /\ text E = map fst ls ++ match rest with [] => [] | _ => [rest] end
    /\ dirty E = 0
    /\ consistent E /\ up_to_date stray E.
Proof.
  intros Hr0 Hn0 Hts Hlen Hls Hrest.
  assert (Hlines : getlines (file_of ls rest) []
                   = map (fun p : list ascii * bool =>
                            fst p ++ (if snd p then [CR; LF] else [LF])) ls
                     ++ match rest with [] => [] | _ => [rest] end).
  { apply getlines_file; [|by destruct Hrest].
    eapply Forall_impl; [exact Hls|]. by intros p [? _]. }
  assert (Hstrip : map strip_eol (getlines (file_of ls rest) [])
                   = map fst ls ++ match rest with [] => [] | _ => [rest] end).
  { rewrite Hlines, map_app, map_map. f_equal.
    - clear Hlines Hlen. induction Hls as [|[l b] ls Hl _ IH]; simpl; [done|].
      rewrite IH. f_equal.
      destruct (strip_eol_storable l Hl) as (_ & H1 & H2). by destruct b.
    - destruct rest; simpl; [done|].
      by destruct (strip_eol_storable _ Hrest) as (-> & _). }
  assert (Hcount : Z.of_nat (length (getlines (file_of ls rest) [])) < 65536).
  { rewrite Hlines, length_app, length_map. destruct rest; simpl; lia. }
  assert (Hc0 : consistent E0).
  { split; [intros k r; by rewrite Hr0|]. split; [|split; [|done]].
    - unfold counted. by rewrite Hr0, Hn0.
    - intros k r. by rewrite Hr0. }
  unfold editorOpen.
  destruct (insert_lines_text stray junk (getlines (file_of ls rest) []) E0)
    as (E' & -> & Hc' & Hch & Hup); [done|lia|].
  cbn [mbind option_bind]. eexists. split; [reflexivity|].
  unfold text in Hch at 2. rewrite Hr0, Hstrip in Hch. simpl in Hch.
  split; [exact Hch|]. split; [done|]. split.
  - by apply (consistent_texts E').
  - apply up_to_date_set_dirty, Hup. intros j r. by rewrite Hr0.
Qed.


(** X16. [editorOpen] from an empty buffer with no syntax profile selected
    on a file whose lines end in a newline or in a carriage return and a
    newline, in any mixture, and which may end without a newline: the rows
    are the lines without their line ends, the bytes after the last
    newline making a row of their own when there are any; [dirty] is zero
    and the highlighting current.  (Under a profile every row goes through
    the scan, whose function-name rule can store in front of [hl].) *)
Theorem open_strips_line_ends (stray : ascii) (junk : Z) (E0 : editorConfig)
        (ls : list (list ascii * bool)) (rest : list ascii) :
  syntax E0 = None ->
  row E0 = [] -> numrows E0 = 0 -> 0 < tab_stop E0 ->
  Z.of_nat (length ls) < 65535 ->
  Forall (fun p : list ascii * bool => storable (fst p)) ls -> storable rest ->
  exists E,
    editorOpen stray junk E0 (file_of ls rest) = Some E
    /\ text E = map fst ls ++ match rest with [] => [] | _ => [rest] end
    /\ dirty E = 0
    /\ consistent E /\ up_to_date stray E.
Proof. intros _. apply editorOpen_file. Qed.

Lemma open_strips_line_ends_witness :
  exists E,
    editorOpen NUL 0 initEditor
      (file_of [(cstr "a", true); (cstr "b", false)] (cstr "c")) = Some E
    /\ text E = [cstr "a"; cstr "b"; cstr "c"].
Proof.
  destruct (open_strips_line_ends NUL 0 initEditor
              [(cstr "a", true); (cstr "b", false)] (cstr "c"))
    as (E & Hrun & Ht & _).
  - reflexivity.
  - reflexivity.
  - reflexivity.
  - simpl; lia.
  - simpl; lia.
  - repeat constructor; simpl;
      try (intros H; repeat (apply elem_of_cons in H as [H|H]; [done|]);
           by apply elem_of_nil in H); done.
  - split; simpl; [|done].
    intros H; repeat (apply elem_of_cons in H as [H|H]; [done|]);
      by apply elem_of_nil in H.
  - exists E. split; [exact Hrun|]. exact Ht.
Defined.

Lemma editorRowsToString_text (E : editorConfig) :
  counted E ->
  editorRowsToString E = concat (map (fun l => l ++ [LF]) (text E)).
Proof.
  intros Hcnt. unfold editorRowsToString, text.
  rewrite Hcnt, Nat2Z.id, firstn_all. by rewrite map_map.
Qed.

(** X17. Loading a file with no syntax profile selected and writing the
    buffer out again with [editorRowsToString] gives the file with every
    line end turned into a single newline, and a newline put after the
    last line if it had none.  (Under a profile every row goes through the
    scan, whose function-name rule can store in front of [hl].) *)
Theorem open_then_save_normalizes (stray : ascii) (junk : Z)
        (E0 : editorConfig) (ls : list (list ascii * bool))
        (rest : list ascii) :
  syntax E0 = None ->
  row E0 = [] -> numrows E0 = 0 -> 0 < tab_stop E0 ->
  Z.of_nat (length ls) < 65535 ->
  Forall (fun p : list ascii * bool => storable (fst p)) ls -> storable rest ->
  exists E,
    editorOpen stray junk E0 (file_of ls rest) = Some E
    /\ editorRowsToString E
       = concat (map (fun l => l ++ [LF])
                     (map fst ls ++ match rest with [] => [] | _ => [rest] end)).
Proof.
  intros _ Hr0 Hn0 Hts Hlen Hls Hrest.
  destruct (editorOpen_file stray junk E0 ls rest Hr0 Hn0 Hts Hlen Hls Hrest)
    as (E & Hrun & Ht & _ & (_ & Hcnt & _) & _).
  exists E. split; [exact Hrun|].
  by rewrite editorRowsToString_text, Ht.
Qed.

Lemma open_then_save_normalizes_witness :
  exists E,
    editorOpen NUL 0 initEditor
      (file_of [(cstr "a", true); (cstr "b", false)] (cstr "c")) = Some E
    /\ editorRowsToString E
       = cstr "a" ++ [LF] ++ cstr "b" ++ [LF] ++ cstr "c" ++ [LF].
Proof.
  destruct (open_then_save_normalizes NUL 0 initEditor
              [(cstr "a", true); (cstr "b", false)] (cstr "c"))
    as (E & Hrun & Hs).
  - reflexivity.
  - reflexivity.
  - reflexivity.
  - simpl; lia.
  - simpl; lia.
  - repeat constructor; simpl;
      try (intros H; repeat (apply elem_of_cons in H as [H|H]; [done|]);
           by apply elem_of_nil in H); done.
  - split; simpl; [|done].
    intros H; repeat (apply elem_of_cons in H as [H|H]; [done|]);
      by apply elem_of_nil in H.
  - exists E. split; [exact Hrun|]. exact Hs.
Defined.

(** ** The profile of a file name *)







(** Only the first dot counts: [a.tar.c] gets no profile. *)
Example select_syntax_first_dot :
  editorSelectSyntaxHighlight NUL buffer_ab (Some (cstr "a.tar.c"))
  = Some (set_syntax buffer_ab None).
Proof. reflexivity. Qed.

(** ** A search session *)

Lemma set_hl_back (r : erow) (h : list editorHighlight) :
  set_hl (set_hl r h) (hl r) = r.
Proof. by destruct r. Qed.

Lemma find_loop_hit (n : nat) (E : editorConfig) (query : list ascii) (dir : Z) :
  forall cur c off,
    find_loop n E query dir cur = Some (Some (c, off)) ->
    exists r, row_at E c = Some r /\ strstr (render r) query = Some off.
Proof.
  induction n as [|n IH]; intros cur c off; simpl; [done|].
  set (c' := if cur + dir =? -1 then numrows E - 1
             else if cur + dir =? numrows E then 0 else cur + dir).
  destruct (row_at E c') as [r|] eqn:Hr; simpl; [|done].
  destruct (strstr (render r) query) as [o|] eqn:Hs.
  - intros [= <- <-]. by exists r.
  - apply IH.
Qed.

(** The loop of the callback returns, on any buffer and from any anchor
    that is a row of it or -1. *)
Lemma find_loop_total (E : editorConfig) (query : list ascii) (dir lm : Z) :
  counted E -> dir = 1 \/ dir = -1 ->
  lm = -1 \/ 0 <= lm < numrows E -> (lm = -1 -> dir = 1) ->
  exists res,
    find_loop (Z.to_nat (numrows E)) E query dir lm = Some res
    /\ fst <$> res
       = List.find (row_contains E query)
           (map (fun i => (lm + dir * (Z.of_nat i + 1)) mod numrows E)
                (seq 0 (Z.to_nat (numrows E)))).
Proof.
  intros Hcnt Hdir Hlm Hm.
  destruct (Z.le_gt_cases (numrows E) 0) as [Hz|Hpos].
  - replace (Z.to_nat (numrows E)) with 0%nat by lia. by exists None.
  - apply find_loop_spec; auto. lia.
Qed.

(** One call of the callback in a session on [E]. *)
Lemma find_step (E Ei : editorConfig) (fs : findState) (query : list ascii)
      (key : Z) :
  counted E -> 0 < tab_stop E -> rows_shaped E ->
  find_inv E Ei fs ->
  exists Ei' fs',
    editorFindCallback Ei fs query key = Some (Ei', fs')
    /\ find_inv E Ei' fs'
    /\ (key = 13 \/ key = 27 ->
        row Ei' = row E /\ last_match fs' = -1 /\ direction fs' = 1
        /\ saved_hl fs' = None).
Proof.
  intros Hcnt Hts Hsh (Hts_i & Hn_i & Hlm & Hsaved).
  unfold editorFindCallback.
  assert (exists E0,
             match saved_hl fs with
             | Some saved =>
                 r ← row_at Ei (saved_hl_line fs);
                 Some (store_row Ei (saved_hl_line fs)
                         (set_hl r (memcpy (hl r) saved (rsize r))))
             | None => Some Ei
             end = Some E0
             /\ row E0 = row E /\ tab_stop E0 = tab_stop E
             /\ numrows E0 = numrows E) as (E0 & -> & Hr0 & Hts0 & Hn0).
  { destruct (saved_hl fs) as [saved|]; [|by exists Ei].
    destruct Hsaved as (k & r & h & Hline & Hr & -> & Hlen & Hrows).
    pose proof (lookup_lt_Some _ _ _ Hr) as Hk.
    rewrite Hline, row_at_nat, Hrows, list_lookup_insert_eq by done.
    cbn [mbind option_bind]. eexists. split; [reflexivity|].
    split; [|done]. rewrite store_row_nat. cbn [row set_row].
    rewrite Hrows, list_insert_insert_eq.
    assert (memcpy (hl (set_hl r h)) (hl r) (rsize (set_hl r h)) = hl r) as ->.
    { unfold memcpy, rsize. cbn [hl render set_hl]. rewrite Nat2Z.id.
      rewrite <- (Hsh k r Hr), firstn_all.
      rewrite drop_ge by lia. apply app_nil_r. }
    rewrite set_hl_back. by apply list_insert_id. }
  cbn [mbind option_bind].
  assert (Hcnt0 : counted E0) by (unfold counted in *; by rewrite Hn0, Hr0).
  destruct ((key =? 13) || (key =? 27)) eqn:Hexit.
  { eexists _, _. split; [reflexivity|]. split.
    - split; [done|]. split; [done|]. split; [by left|done].
    - intros _. done. }
  set (ld := if (key =? ARROW_RIGHT) || (key =? ARROW_DOWN)
             then (last_match fs, 1)
             else if (key =? ARROW_LEFT) || (key =? ARROW_UP)
                  then (last_match fs, -1) else (-1, 1)).
  assert (Hld : (ld.1 = -1 \/ 0 <= ld.1 < numrows E)
                /\ (ld.2 = 1 \/ ld.2 = -1)).
  { subst ld. repeat case_match; simpl; split; auto. }
  cbn [last_match direction saved_hl_line].
  fold ld. destruct ld as [lm dir]. simpl in Hld. destruct Hld as [Hlm' Hdir].
  set (dir' := if lm =? -1 then 1 else dir).
  assert (Hdir' : dir' = 1 \/ dir' = -1)
    by (subst dir'; destruct (lm =? -1); [by left|exact Hdir]).
  assert (Hm : lm = -1 -> dir' = 1).
  { intros ->. subst dir'. done. }
  destruct (find_loop_total E0 query dir' lm Hcnt0 Hdir')
    as (res & Hres & _); [rewrite Hn0; done|done|].
  rewrite Hres. cbn [mbind option_bind].
  destruct res as [[current off]|].
  - destruct (find_loop_hit _ _ _ _ _ _ _ Hres) as (r & Hr & Hs).
    rewrite Hr. cbn [mbind option_bind].
    destruct (rx_to_cx_loop_total (tab_stop E0) (chars r) ltac:(lia) 0 0 off)
      as [x Hx].
    unfold editorRowRxToCx. rewrite Hx. cbn [mbind option_bind].
    apply row_at_Some in Hr as [Hcur Hr]. rewrite Hr0 in Hr.
    pose proof (lookup_lt_Some _ _ _ Hr) as Hk.
    eexists _, _. split; [reflexivity|]. split.
    + split; [done|]. split; [done|]. split.
      { right. cbn [last_match]. unfold counted in Hcnt. lia. }
      cbn [saved_hl saved_hl_line].
      exists (Z.to_nat current), r,
        (memset (hl r) off HL_MATCH (strlen query)).
      split; [done|]. split; [done|]. split.
      { unfold rsize. rewrite Nat2Z.id, <- (Hsh _ r Hr). apply firstn_all. }
      split; [apply memset_length|].
      unfold store_row. cbn [row set_row set_cursor]. by rewrite Hr0.
    + intros Hk'. exfalso.
      destruct (Z.eqb_spec key 13), (Z.eqb_spec key 27); simpl in Hexit;
        try done; lia.
  - eexists _, _. split; [reflexivity|]. split.
    + split; [done|]. split; [done|]. split; [done|]. done.
    + intros Hk'. exfalso.
      destruct (Z.eqb_spec key 13), (Z.eqb_spec key 27); simpl in Hexit;
        try done; lia.
Qed.

Lemma find_calls_spec (E : editorConfig) (calls : list (list ascii * Z)) :
  counted E -> 0 < tab_stop E -> rows_shaped E ->
  forall Ei fs,
    find_inv E Ei fs ->
    exists Ei' fs',
      find_calls Ei fs calls = Some (Ei', fs') /\ find_inv E Ei' fs'.
Proof.
  intros Hcnt Hts Hsh.
  induction calls as [|[query key] calls IH]; intros Ei fs Hinv; simpl.
  - by exists Ei, fs.
  - destruct (find_step E Ei fs query key Hcnt Hts Hsh Hinv)
      as (E1 & fs1 & -> & Hinv1 & _).
    cbn [mbind option_bind]. by apply IH.
Qed.

Lemma find_calls_app (calls1 calls2 : list (list ascii * Z)) :
  forall E fs,
    find_calls E fs (calls1 ++ calls2)
    = p ← find_calls E fs calls1; find_calls p.1 p.2 calls2.
Proof.
  induction calls1 as [|[query key] calls1 IH]; intros E fs; simpl; [done|].
  destruct (editorFindCallback E fs query key) as [[E' fs']|]; simpl; [|done].
  apply IH.
Qed.

(** X19. A search session on a counted buffer with a positive tab stop
    whose rows have an [hl] entry for each byte of [render]: whatever keys
    and queries the callback has been called with, every call returns, and
    after the call for Enter or Escape the rows are exactly those the
    session started on, the mark of the last match undone, and the
    callback's variables are back at their start. *)
Theorem find_session_restores (E : editorConfig) (calls : list (list ascii * Z))
        (query : list ascii) (key : Z) :
  counted E -> 0 < tab_stop E -> rows_shaped E ->
  key = 13 \/ key = 27 ->
  exists E' fs',
    find_calls E find_init (calls ++ [(query, key)]) = Some (E', fs')
    /\ row E' = row E
    /\ last_match fs' = -1 /\ direction fs' = 1 /\ saved_hl fs' = None.
Proof.
  intros Hcnt Hts Hsh Hkey.
  destruct (find_calls_spec E calls Hcnt Hts Hsh E find_init)
    as (E1 & fs1 & Hrun1 & Hinv1).
  { split; [done|]. split; [done|]. split; [by left|done]. }
  destruct (find_step E E1 fs1 query key Hcnt Hts Hsh Hinv1)
    as (E2 & fs2 & Hrun2 & _ & Hend).
  exists E2, fs2. rewrite find_calls_app, Hrun1. cbn [mbind option_bind].
  simpl. rewrite Hrun2. split; [done|]. by apply Hend.
Qed.

Lemma buffer_foo_shaped : rows_shaped buffer_foo.
Proof. intros [|[|[|k]]] r Hk; simpl in Hk; by simplify_eq. Qed.

Lemma find_session_restores_witness :
  exists E' fs',
    find_calls buffer_foo find_init
      ([(cstr "f", 102); (cstr "fo", 111); (cstr "fo", ARROW_DOWN)]
       ++ [(cstr "fo", 27)]) = Some (E', fs')
    /\ row E' = row buffer_foo.
Proof.
  destruct (find_session_restores buffer_foo
              [(cstr "f", 102); (cstr "fo", 111); (cstr "fo", ARROW_DOWN)]
              (cstr "fo") 27)
    as (E' & fs' & Hrun & Hrow & _).
  - reflexivity.
  - simpl; lia.
  - exact buffer_foo_shaped.
  - by right.
  - exists E', fs'. by split.
Defined.

(** X20. The callback on a key that is neither Enter nor Escape, and if
    it is an arrow then with no match behind it, with no highlighting
    saved: the search starts from the top and goes forward, the match is
    the first row from row 0 down whose [render] holds the query, the
    cursor is put on the match with [rowoff] at [numrows], and the match
    is marked in the row's [hl]; without such a row nothing changes. *)
Theorem find_typed_key_from_top (E : editorConfig) (fs : findState)
        (query : list ascii) (key : Z) :
  counted E -> 0 < tab_stop E -> saved_hl fs = None ->
  key <> 13 -> key <> 27 ->
  (key ∈ [ARROW_LEFT; ARROW_RIGHT; ARROW_UP; ARROW_DOWN] ->
   last_match fs = -1) ->
  exists E' fs',
    editorFindCallback E fs query key = Some (E', fs')
    /\ direction fs' = 1
    /\ match List.find (row_contains E query)
                       (map Z.of_nat (seq 0 (Z.to_nat (numrows E)))) with
       | None => E' = E /\ last_match fs' = -1
       | Some c =>
           last_match fs' = c
           /\ exists r off x,
                row_at E c = Some r
                /\ strstr (render r) query = Some off
                /\ editorRowRxToCx E r off = Some x
                /\ E' = store_row
                          (set_cursor E (ushort x) (ushort c) (numrows E)) c
                          (set_hl r (memset (hl r) off HL_MATCH (strlen query)))
       end.
Proof.
  intros Hcnt Hts Hsaved H13 H27 Harrow. unfold editorFindCallback.
  rewrite Hsaved. cbn [mbind option_bind].
  destruct (Z.eqb_spec key 13); [done|]. destruct (Z.eqb_spec key 27); [done|].
  cbn [orb last_match direction saved_hl_line].
  assert (exists d,
             (if (key =? ARROW_RIGHT) || (key =? ARROW_DOWN)
              then (last_match fs, 1)
              else if (key =? ARROW_LEFT) || (key =? ARROW_UP)
                   then (last_match fs, -1) else (-1, 1)) = (-1, d))
    as [d ->].
  { destruct (Z.eqb_spec key ARROW_RIGHT) as [->|];
      [rewrite Harrow; [by eexists|];
       apply list_elem_of_further, list_elem_of_here|].
    destruct (Z.eqb_spec key ARROW_DOWN) as [->|];
      [rewrite Harrow; [by eexists|];
       do 3 apply list_elem_of_further; apply list_elem_of_here|].
    destruct (Z.eqb_spec key ARROW_LEFT) as [->|];
      [rewrite Harrow; [by eexists|]; apply list_elem_of_here|].
    destruct (Z.eqb_spec key ARROW_UP) as [->|];
      [rewrite Harrow; [by eexists|];
       do 2 apply list_elem_of_further; apply list_elem_of_here|].
    by eexists. }
  change (if -1 =? -1 then 1 else d) with 1.
  destruct (find_loop_total E query 1 (-1) Hcnt)
    as (res & Hres & Hfind); [by left|by left|done|].
  rewrite Hres. cbn [mbind option_bind].
  assert (Hlist : map (fun i => (-1 + 1 * (Z.of_nat i + 1)) mod numrows E)
                      (seq 0 (Z.to_nat (numrows E)))
                  = map Z.of_nat (seq 0 (Z.to_nat (numrows E)))).
  { apply map_ext_in. intros i Hi%in_seq.
    replace (-1 + 1 * (Z.of_nat i + 1)) with (Z.of_nat i) by lia.
    apply Z.mod_small. lia. }
  rewrite Hlist in Hfind. rewrite <- Hfind.
  destruct res as [[current off]|]; cbn [fmap option_fmap option_map fst].
  - destruct (find_loop_hit _ _ _ _ _ _ _ Hres) as (r & Hr & Hs).
    rewrite Hr. cbn [mbind option_bind].
    destruct (rx_to_cx_loop_total (tab_stop E) (chars r) Hts 0 0 off) as [x Hx].
    unfold editorRowRxToCx. rewrite Hx. cbn [mbind option_bind].
    eexists _, _. split; [reflexivity|]. split; [done|]. split; [done|].
    exists r, off, x. done.
  - eexists _, _. split; [reflexivity|]. done.
Qed.

Lemma find_typed_key_from_top_witness :
  exists E' fs',
    editorFindCallback buffer_foo find_init (cstr "bar") ARROW_UP
    = Some (E', fs')
    /\ direction fs' = 1 /\ last_match fs' = 1.
Proof.
  destruct (find_typed_key_from_top buffer_foo find_init (cstr "bar") ARROW_UP)
    as (E' & fs' & Hrun & Hdir & Hm).
  - reflexivity.
  - simpl; lia.
  - reflexivity.
  - discriminate.
  - discriminate.
  - reflexivity.
  - exists E', fs'. split; [exact Hrun|]. split; [exact Hdir|].
    exact (proj1 Hm).
Defined.

(** ** The outcomes of [editorReadKey] *)

Lemma decode_escape_no_die (lic : Z) (rest : list read_result) (s : string) :
  decode_escape lic rest <> Die s.
Proof.
  destruct (decode_escape_key lic rest) as (k & rest' & -> & _). done.
Qed.

Lemma decode_escape_no_wait (lic : Z) (rest : list read_result) :
  decode_escape lic rest <> Waiting.
Proof.
  destruct (decode_escape_key lic rest) as (k & rest' & -> & _). done.
Qed.

(** X21. [editorReadKey] lets pass the calls of [read] that give nothing
    or fail with [EAGAIN].  It dies, with the message [read], exactly when
    the first call that is not of that kind is a failure; it waits for ever
    exactly when there is no other kind of call; and when that first call
    gives a byte, what it returns is what it returns on the input from
    that byte on. *)
Theorem read_key_outcomes (lic : Z) (inp : list read_result) :
  (forall s,
     editorReadKey lic inp = Die s
     <-> s = "read"%string
         /\ exists pre e rest,
              inp = pre ++ Failed e :: rest /\ Forall idle pre /\ e <> EAGAIN)
  /\ (editorReadKey lic inp = Waiting <-> Forall idle inp)
  /\ (forall pre c rest,
        inp = pre ++ Got c :: rest -> Forall idle pre ->
        editorReadKey lic inp = editorReadKey lic (Got c :: rest)
        /\ exists k lic' rest', editorReadKey lic inp = Key k lic' rest').
Proof.
  induction inp as [|r inp IH].
  - split; [|split].
    + intros s. split; [done|]. intros (_ & pre & e & rest & H & _).
      by destruct pre.
    + done.
    + intros pre c rest H. by destruct pre.
  - destruct IH as (IHd & IHw & IHk).
    assert (Hgot : forall c, exists k lic' rest',
               editorReadKey lic (Got c :: inp) = Key k lic' rest').
    { intros c. simpl. destruct (Ascii.eqb c ESC); [|eauto].
      destruct (decode_escape_key lic inp) as (k & rest' & -> & _). eauto. }
    split; [|split].
    + intros s. destruct r as [c| |e]; simpl.
      * split.
        { destruct (Ascii.eqb c ESC); [|done].
          intros H. by apply decode_escape_no_die in H. }
        intros (_ & pre & e & rest & H & Hpre & _).
        destruct pre as [|p pre]; cbn [app] in *; simplify_eq.
        apply Forall_cons in Hpre as [[?|?] _]; done.
      * rewrite IHd. split.
        { intros (-> & pre & e & rest & -> & Hpre & He). split; [done|].
          exists (Nothing :: pre), e, rest.
          split; [done|]. split; [|done]. constructor; [by left|done]. }
        intros (-> & pre & e & rest & H & Hpre & He). split; [done|].
        destruct pre as [|p pre]; cbn [app] in *; simplify_eq.
        apply Forall_cons in Hpre as [_ Hpre]. by exists pre, e, rest.
      * destruct (Z.eqb_spec e EAGAIN) as [->|Hne].
        { rewrite IHd. split.
          - intros (-> & pre & e & rest & -> & Hpre & He). split; [done|].
            exists (Failed EAGAIN :: pre), e, rest.
            split; [done|]. split; [|done]. constructor; [by right|done].
          - intros (-> & pre & e & rest & H & Hpre & He). split; [done|].
            destruct pre as [|p pre]; cbn [app] in *; simplify_eq.
            apply Forall_cons in Hpre as [_ Hpre]. by exists pre, e, rest. }
        split.
        { intros [= <-]. split; [done|]. by exists [], e, inp. }
        intros (-> & _). done.
    + destruct r as [c| |e]; simpl.
      * split.
        { destruct (Ascii.eqb c ESC); [|done].
          intros H. by apply decode_escape_no_wait in H. }
        intros [[?|?] _]%Forall_cons; done.
      * rewrite IHw. split; [intros H; constructor; [by left|done]|].
        by intros [_ ?]%Forall_cons.
      * destruct (Z.eqb_spec e EAGAIN) as [->|Hne].
        { rewrite IHw. split; [intros H; constructor; [by right|done]|].
          by intros [_ ?]%Forall_cons. }
        split; [done|]. intros [[?|?] _]%Forall_cons; [done|congruence].
    + intros pre c rest H Hpre. destruct pre as [|p pre]; cbn [app] in *; simplify_eq.
      { split; [done|]. apply Hgot. }
      apply Forall_cons in Hpre as [Hp Hpre].
      destruct (IHk pre c rest eq_refl Hpre) as [Heq Hkey].
      destruct Hp as [->| ->]; simpl; [done|].
      change (EAGAIN =? EAGAIN) with true. cbn iota. done.
Qed.

(** ** The cursor and the window *)

Lemma ushort_range (x : Z) : 0 <= ushort x < 65536.
Proof. unfold ushort. apply Z.mod_pos_bound. lia. Qed.

Lemma ushort_le (x : Z) : 0 <= x -> ushort x <= x.
Proof. intros. unfold ushort. apply Z.mod_le; lia. Qed.

Lemma cursor_row_counted (E : editorConfig) :
  counted E -> 0 <= cy E ->
  (numrows E <= cy E /\ cursor_row E = Some None)
  \/ (cy E < numrows E
      /\ exists r, row_at E (cy E) = Some r /\ cursor_row E = Some (Some r)).
Proof.
  intros Hcnt Hcy. unfold cursor_row.
  destruct (Z.leb_spec (numrows E) (cy E)); [by left|right].
  split; [done|]. unfold row_at. destruct (Z.ltb_spec (cy E) 0); [lia|].
  destruct (row E !! Z.to_nat (cy E)) as [r|] eqn:Hr.
  - by exists r.
  - apply lookup_ge_None in Hr. unfold counted in Hcnt. lia.
Qed.

Lemma cursor_switch_bounds (mode : Z) (E : editorConfig) (row0 : option erow)
      (key : Z) :
  counted E -> numrows E < 65536 ->
  0 <= cx E -> 0 <= cy E <= numrows E ->
  exists E1,
    cursor_switch mode E row0 key = Some E1
    /\ row E1 = row E /\ numrows E1 = numrows E
    /\ 0 <= cx E1 /\ 0 <= cy E1 <= numrows E
    /\ (mode <> 1 -> cy E < numrows E -> cy E1 < numrows E).
Proof.
  intros Hcnt Hmax Hcx Hcy. unfold cursor_switch.
  assert (Hrow : forall y, 0 <= y < numrows E -> is_Some (row_at E y)).
  { intros y Hy. unfold row_at. destruct (Z.ltb_spec y 0); [lia|].
    apply lookup_lt_is_Some_2. unfold counted in Hcnt. lia. }
  pose proof (ushort_range (cx E - 1)).
  pose proof (ushort_range (cx E + 1)).
  destruct ((key =? 104) || (key =? ARROW_LEFT)).
  { destruct (Z.eqb_spec (cx E) 0); cbn [negb].
    - destruct (Z.ltb_spec 0 (cy E)).
      + rewrite (ushort_small (cy E - 1)) by lia.
        destruct (Hrow (cy E - 1) ltac:(lia)) as [p ->].
        cbn [mbind option_bind]. pose proof (ushort_range (size p)).
        eexists. split; [reflexivity|]. frame_simpl. repeat split; try done; lia.
      + eexists. split; [reflexivity|]. repeat split; try done; lia.
    - eexists. split; [reflexivity|]. frame_simpl. repeat split; try done; lia. }
  destruct ((key =? 108) || (key =? ARROW_RIGHT)).
  { destruct row0 as [r|]; [destruct (cx E <? size r - 1)|];
      (eexists; split; [reflexivity|]; frame_simpl; repeat split; try done; lia). }
  destruct ((key =? 107) || (key =? ARROW_UP)).
  { destruct (Z.eqb_spec (cy E) 0); cbn [negb].
    - eexists. split; [reflexivity|]. repeat split; try done; lia.
    - eexists. split; [reflexivity|]. frame_simpl.
      rewrite (ushort_small (cy E - 1)) by lia. repeat split; try done; lia. }
  destruct ((key =? 106) || (key =? ARROW_DOWN)).
  { destruct (Z.eqb_spec mode 1), (Z.ltb_spec (cy E) (numrows E)); cbn [andb].
    - eexists. split; [reflexivity|]. frame_simpl.
      rewrite (ushort_small (cy E + 1)) by lia. repeat split; try done; lia.
    - destruct (Z.eqb_spec mode 0), (Z.ltb_spec (cy E) (numrows E - 1));
        cbn [andb]; try lia;
        (eexists; split; [reflexivity|]; repeat split; try done; lia).
    - destruct (Z.eqb_spec mode 0), (Z.ltb_spec (cy E) (numrows E - 1));
        cbn [andb];
        (eexists; split; [reflexivity|]; frame_simpl;
         rewrite ?(ushort_small (cy E + 1)) by lia;
         repeat split; try done; lia).
    - destruct (Z.eqb_spec mode 0), (Z.ltb_spec (cy E) (numrows E - 1));
        cbn [andb]; try lia;
        (eexists; split; [reflexivity|]; repeat split; try done; lia). }
  eexists. split; [reflexivity|]. repeat split; try done; lia.
Qed.

(** X22. [editorMoveCursor] on a counted buffer with the cursor on a row
    or on the line after the last: whatever the key and the mode, it
    returns, the rows are untouched, the cursor is again on a row or on
    the line after the last, and its column is within the row it is on, at
    most the row's length (0 on the line after the last).  Outside input
    mode a cursor that was on a row stays on a row. *)
Theorem move_cursor_in_bounds (mode : Z) (E : editorConfig) (key : Z) :
  counted E -> numrows E < 65536 ->
  0 <= cx E -> 0 <= cy E <= numrows E ->
  exists E',
    editorMoveCursor mode E key = Some E'
    /\ row E' = row E /\ numrows E' = numrows E
    /\ 0 <= cy E' <= numrows E
    /\ 0 <= cx E' <= match row_at E' (cy E') with
                     | Some r => size r
                     | None => 0
                     end
    /\ (mode <> 1 -> cy E < numrows E -> cy E' < numrows E).
Proof.
  intros Hcnt Hmax Hcx Hcy. unfold editorMoveCursor.
  assert (exists row0, cursor_row E = Some row0) as [row0 ->].
  { destruct (cursor_row_counted E Hcnt ltac:(lia))
      as [[_ ->]|(_ & r & _ & ->)]; eauto. }
  cbn [mbind option_bind].
  destruct (cursor_switch_bounds mode E row0 key Hcnt Hmax Hcx Hcy)
    as (E1 & -> & Hr1 & Hn1 & Hcx1 & Hcy1 & Hm1).
  cbn [mbind option_bind].
  assert (Hcnt1 : counted E1) by (unfold counted in *; by rewrite Hn1, Hr1).
  destruct (cursor_row_counted E1 Hcnt1 ltac:(lia))
    as [[Hlast1 ->]|(Hon1 & r1 & Hrr1 & ->)]; cbn [mbind option_bind].
  - assert (row_at E1 (cy E1) = None) as Hnone.
    { unfold row_at. destruct (cy E1 <? 0); [done|].
      apply lookup_ge_None_2. unfold counted in Hcnt1. lia. }
    eexists. split; [reflexivity|].
    destruct (Z.ltb_spec 0 (cx E1)).
    + change (row_at (set_cx E1 (ushort 0)) (cy (set_cx E1 (ushort 0))))
        with (row_at E1 (cy E1)).
      rewrite Hnone. frame_simpl. rewrite (ushort_small 0) by lia.
      repeat split; try done; lia.
    + rewrite Hnone. repeat split; try done; lia.
  - eexists. split; [reflexivity|].
    pose proof (ushort_range (size r1)).
    assert (0 <= size r1) by (unfold size; lia).
    pose proof (ushort_le (size r1) ltac:(lia)).
    destruct (Z.ltb_spec (size r1) (cx E1)).
    + change (row_at (set_cx E1 (ushort (size r1)))
                (cy (set_cx E1 (ushort (size r1)))))
        with (row_at E1 (cy E1)).
      rewrite Hrr1. frame_simpl. repeat split; try done; lia.
    + rewrite Hrr1. repeat split; try done; lia.
Qed.

Lemma move_cursor_in_bounds_witness :
  exists E',
    editorMoveCursor 0 (set_cursor buffer_ab 2 0 0) ARROW_DOWN = Some E'
    /\ cy E' = 1 /\ cx E' = 0.
Proof.
  destruct (move_cursor_in_bounds 0 (set_cursor buffer_ab 2 0 0) ARROW_DOWN)
    as (E' & Hrun & _).
  - reflexivity.
  - simpl; lia.
  - simpl; lia.
  - simpl; lia.
  - exists E'. split; [exact Hrun|].
    vm_compute in Hrun. injection Hrun as <-. split; reflexivity.
Defined.

(** X23. [editorScroll] on a counted buffer with a positive tab stop, the
    cursor on a row, at a column within it, or on the line after the
    last, and a window of at least one line and one column: it returns,
    and afterwards the cursor's line lies in the window, from [rowoff] to
    less than [rowoff + screenrows], and its column [rx] from [coloff] to
    less than [coloff + screencols].  On a row [rx] is the column of
    [editorRowCxToRx] moved right by [line_indent]. *)
Theorem scroll_shows_cursor (E : editorConfig) (V : editorView) :
  counted E -> 0 < tab_stop E ->
  0 <= cy E <= numrows E -> cy E < 65536 -> 0 <= cx E ->
  (forall r, row_at E (cy E) = Some r -> cx E <= size r) ->
  0 <= rowoff E -> 0 <= coloff V -> 0 <= line_indent V < 65536 ->
  0 < screenrows V -> 0 < screencols V ->
  exists E' V',
    editorScroll E V = Some (E', V')
    /\ row E' = row E /\ cx E' = cx E /\ cy E' = cy E
    /\ rowoff E' <= cy E' < rowoff E' + screenrows V'
    /\ coloff V' <= rx V' < coloff V' + screencols V'
    /\ (forall r, row_at E (cy E) = Some r ->
        exists x, editorRowCxToRx E r (cx E) = Some x
                  /\ rx V' = ushort (x + line_indent V)).
Proof.
  intros Hcnt Hts Hcy Hcy16 Hcx Hin Hoff Hcol Hind Hsr Hsc.
  unfold editorScroll.
  assert (exists rx1,
             (if cy E <? numrows E then
                r ← row_at E (cy E);
                x ← editorRowCxToRx E r (cx E);
                Some (ushort (x + line_indent V))
              else Some (line_indent V)) = Some rx1
             /\ 0 <= rx1 < 65536
             /\ (forall r, row_at E (cy E) = Some r ->
                 exists x, editorRowCxToRx E r (cx E) = Some x
                           /\ rx1 = ushort (x + line_indent V)))
    as (rx1 & -> & Hrx & Hrx').
  { destruct (Z.ltb_spec (cy E) (numrows E)) as [Hon|Hlast].
    - destruct (row_at E (cy E)) as [r|] eqn:Hr.
      2:{ unfold row_at in Hr. destruct (Z.ltb_spec (cy E) 0); [lia|].
          apply lookup_ge_None in Hr. unfold counted in Hcnt. lia. }
      cbn [mbind option_bind]. specialize (Hin r eq_refl).
      rewrite editorRowCxToRx_fold by lia.
      cbn [mbind option_bind]. eexists. split; [reflexivity|].
      split; [apply ushort_range|].
      intros r' [= <-]. rewrite editorRowCxToRx_fold by lia. eauto.
    - exists (line_indent V). split; [done|]. split; [done|].
      intros r Hr. unfold row_at in Hr. destruct (Z.ltb_spec (cy E) 0); [lia|].
      apply lookup_lt_Some in Hr. unfold counted in Hcnt. lia. }
  cbn [mbind option_bind]. eexists _, _. split; [reflexivity|].
  frame_simpl. cbn [rx coloff screenrows screencols].
  split; [done|]. split; [done|]. split; [done|].
  split; [|split; [|exact Hrx']].
  - destruct (Z.ltb_spec (cy E) (rowoff E)).
    + destruct (Z.leb_spec (cy E + screenrows V) (cy E)); [lia|]. lia.
    + destruct (Z.leb_spec (rowoff E + screenrows V) (cy E)); [|lia].
      rewrite ushort_small by lia. lia.
  - destruct (Z.ltb_spec rx1 (coloff V)).
    + destruct (Z.leb_spec (rx1 + screencols V) rx1); [lia|]. lia.
    + destruct (Z.leb_spec (coloff V + screencols V) rx1); [|lia].
      rewrite ushort_small by lia. lia.
Qed.

Lemma scroll_shows_cursor_witness :
  exists E' V',
    editorScroll (set_cursor buffer_ab 2 0 0) (mkView 6 6 0 1 4) = Some (E', V')
    /\ rowoff E' <= cy E' < rowoff E' + screenrows V'
    /\ coloff V' <= rx V' < coloff V' + screencols V'.
Proof.
  destruct (scroll_shows_cursor (set_cursor buffer_ab 2 0 0) (mkView 6 6 0 1 4))
    as (E' & V' & Hrun & _ & _ & _ & Hr & Hc & _).
  - reflexivity.
  - simpl; lia.
  - simpl; lia.
  - simpl; lia.
  - simpl; lia.
  - intros r Hr. vm_compute in Hr. injection Hr as <-. unfold size; simpl; lia.
  - simpl; lia.
  - simpl; lia.
  - simpl; lia.
  - simpl; lia.
  - simpl; lia.
  - exists E', V'. split; [exact Hrun|]. split; [exact Hr|exact Hc].
Defined.

(** ** A row inside a block comment *)

Lemma nth_not_in (l : list ascii) (c : ascii) (j : nat) :
  c ∉ l -> c <> NUL -> Ascii.eqb (nth j l NUL) c = false.
Proof.
  intros Hc Hn. apply Ascii.eqb_neq. intros He.
  destruct (l !! j) as [x|] eqn:Hx.
  - rewrite (nth_lookup_Some _ _ NUL _ Hx) in He. subst x.
    apply Hc. by eapply list_elem_of_lookup_2.
  - apply lookup_ge_None in Hx. rewrite nth_overflow in He by lia. by subst c.
Qed.

Lemma hd_drop_nth (l : list ascii) (j : nat) :
  hd NUL (drop j l) = nth j l NUL.
Proof.
  revert j. induction l as [|x l IH]; intros [|j]; simpl; auto.
Qed.

Section CommentRow.

Variable stray : ascii.
Variable rend : list ascii.

Hypothesis no_paren : "("%char ∉ rend.
Hypothesis no_star : "*"%char ∉ rend.

(** A turn of the loop inside a comment, in the C profile, on a byte of
    such a row: the byte is a comment byte and the scan moves on by one,
    still inside the comment. *)
Lemma scan_step_in_comment (st : scan) :
  0 <= sc_i st -> sc_in_string st = NUL -> sc_in_comment st = 1 ->
  let st' := scan_step stray HLDB_c rend st in
  sc_i st' = sc_i st + 1 /\ sc_in_string st' = NUL /\ sc_in_comment st' = 1
  /\ sc_hl st' = <[Z.to_nat (sc_i st) := HL_COMMENT]> (sc_hl st).
Proof.
  intros Hi Hs Hc. unfold scan_step, rule_function, rule_single_comment.
  rewrite Hs, Hc.
  change (truthy (flags HLDB_c) && truthy HL_HIGHLIGHT_FUNCTIONS) with true.
  change (Ascii.eqb NUL NUL) with true.
  change (truthy (scs_len HLDB_c)) with true.
  change (truthy (mcs_len HLDB_c)) with true.
  change (truthy (mce_len HLDB_c)) with true.
  change (truthy 1) with true. cbn [andb negb].
  assert (Ascii.eqb (render_at stray rend (sc_i st + 1)) "(" = false) as Hp.
  { unfold render_at. destruct (Z.ltb_spec (sc_i st + 1) 0); [lia|].
    by apply nth_not_in. }
  assert (marker_match rend (sc_i st) (multiline_comment_end HLDB_c) = false)
    as Hm.
  { unfold marker_match, render_from.
    change (marker_str (multiline_comment_end HLDB_c)) with (cstr "*/").
    change (Z.to_nat (marker_len (multiline_comment_end HLDB_c))) with 2%nat.
    cbn [strncmp cstr list_ascii_of_string hd].
    rewrite hd_drop_nth, nth_not_in by done. done. }
  rewrite Hm.
  destruct (isalpha (render_at stray rend (sc_i st))); [rewrite Hp|]; done.
Qed.

Lemma scan_loop_in_comment (fuel : nat) :
  forall st st',
    0 <= sc_i st -> sc_in_string st = NUL -> sc_in_comment st = 1 ->
    scan_loop stray HLDB_c rend fuel st = Some st' ->
    sc_in_comment st' = 1
    /\ forall j : nat,
         sc_hl st' !! j
         = if decide (Z.to_nat (sc_i st) <= j < length rend)%nat
           then (fun _ => HL_COMMENT) <$> sc_hl st !! j
           else sc_hl st !! j.
Proof.
  induction fuel as [|fuel IH]; intros st st' Hi Hs Hc; simpl;
    (destruct (Z.ltb_spec (sc_i st) (row_rsize rend)) as [Hlt|Hge];
     [|intros [= <-]; split; [done|];
       intros j; unfold row_rsize in Hge; case_decide; [lia|done]]);
    [done|].
  intros Hrun.
  destruct (scan_step_in_comment st Hi Hs Hc) as (Hi' & Hs' & Hc' & Hh').
  apply IH in Hrun as [Hend Hhl]; [|lia|done|done].
  split; [done|]. intros j. rewrite Hhl, Hi', Hh'.
  unfold row_rsize in Hlt.
  destruct (decide (j = Z.to_nat (sc_i st))) as [->|Hne].
  - repeat case_decide; try lia.
    destruct (decide (Z.to_nat (sc_i st) < length (sc_hl st))%nat).
    + rewrite list_lookup_insert_eq by done.
      destruct (sc_hl st !! Z.to_nat (sc_i st)) eqn:Hl; [done|].
      apply lookup_ge_None in Hl. lia.
    + rewrite list_insert_ge by lia. rewrite lookup_ge_None_2 by lia. done.
  - rewrite list_lookup_insert_ne by done.
    repeat case_decide; try lia; done.
Qed.

Lemma syntax_pass_in_comment :
  exists st,
    syntax_pass stray HLDB_c rend 1 = Some st
    /\ sc_hl st = replicate (length rend) HL_COMMENT
    /\ sc_in_comment st = 1.
Proof.
  destruct (syntax_pass_total stray HLDB_c rend 1) as [st Hst].
  exists st. split; [done|].
  pose proof (syntax_pass_shape _ _ _ _ _ Hst) as [Hlen _].
  apply scan_loop_in_comment in Hst as [Hc Hhl]; [|done..].
  split; [|done]. apply list_eq. intros j. rewrite Hhl. simpl.
  destruct (decide (j < length rend)%nat).
  - rewrite decide_True by lia. by rewrite !lookup_replicate_2.
  - rewrite decide_False by lia.
    by rewrite !lookup_ge_None_2 by (rewrite length_replicate; lia).
Qed.

End CommentRow.

(** X24. Under the C profile, in a buffer whose highlighting is current,
    a row that follows a row ending inside a block comment, and whose
    [render] holds neither a star nor an opening parenthesis, is
    highlighted [HL_COMMENT] on every byte and ends inside the comment
    itself. *)
Theorem row_inside_comment (stray : ascii) (E : editorConfig) (j : nat)
        (prev r : erow) :
  syntax E = Some HLDB_c -> up_to_date stray E ->
  row E !! j = Some prev -> row E !! S j = Some r ->
  hl_open_comment prev <> 0 ->
  "("%char ∉ render r -> "*"%char ∉ render r ->
  hl r = replicate (length (render r)) HL_COMMENT /\ hl_open_comment r = 1.
Proof.
  intros Hsyn Hup Hp Hr Hopen Hparen Hstar.
  specialize (Hup (S j) r Hr). unfold row_current in Hup. rewrite Hsyn in Hup.
  destruct Hup as (st & Hrun & Hh & Ho). simpl in Hrun. rewrite Hp in Hrun.
  apply truthy_nonzero in Hopen. rewrite Hopen in Hrun.
  destruct (syntax_pass_in_comment stray (render r) Hparen Hstar)
    as (st' & Hrun' & Hh' & Ho').
  rewrite Hrun in Hrun'. injection Hrun' as <-.
  split; congruence.
Qed.

Lemma comment_loaded_up_to_date : up_to_date NUL comment_loaded.
Proof.
  destruct (editorOpen_spec NUL 0 initEditor_c comment_loaded comment_file)
    as (_ & _ & Hu).
  - reflexivity.
  - reflexivity.
  - simpl; lia.
  - vm_compute; reflexivity.
  - vm_compute; reflexivity.
  - exact Hu.
Qed.

Lemma row_inside_comment_witness :
  exists r,
    row comment_loaded !! 1%nat = Some r
    /\ chars r = cstr "plain text"
    /\ hl r = replicate (length (render r)) HL_COMMENT
    /\ hl_open_comment r = 1.
Proof.
  destruct (row comment_loaded !! 0%nat) as [prev|] eqn:Hp;
    [|vm_compute in Hp; discriminate].
  destruct (row comment_loaded !! 1%nat) as [r|] eqn:Hr;
    [|vm_compute in Hr; discriminate].
  exists r. split; [reflexivity|].
  assert (Hc : chars r = cstr "plain text" /\ render r = cstr "plain text"
               /\ hl_open_comment prev = 1).
  { vm_compute in Hp, Hr. injection Hp as <-. injection Hr as <-. done. }
  destruct Hc as (Hc & Hre & Ho). split; [exact Hc|].
  apply (row_inside_comment NUL comment_loaded 0 prev r).
  - reflexivity.
  - exact comment_loaded_up_to_date.
  - exact Hp.
  - exact Hr.
  - rewrite Ho. lia.
  - rewrite Hre. intros H.
    repeat (apply elem_of_cons in H as [H|H]; [done|]). by apply elem_of_nil in H.
  - rewrite Hre. intros H.
    repeat (apply elem_of_cons in H as [H|H]; [done|]). by apply elem_of_nil in H.
Defined.

(** ** Replacing the byte under the cursor *)

Lemma editorMoveCursor_left (mode : Z) (E : editorConfig) (r : erow) :
  counted E -> row_at E (cy E) = Some r -> cy E < numrows E ->
  0 < cx E <= size r + 1 -> cx E <= 65536 ->
  editorMoveCursor mode E ARROW_LEFT = Some (set_cx E (cx E - 1)).
Proof.
  intros Hcnt Hr Hcy Hcx Hmax. unfold editorMoveCursor, cursor_row.
  destruct (Z.leb_spec (numrows E) (cy E)); [lia|].
  rewrite Hr. cbn [mbind option_bind]. unfold cursor_switch.
  change ((ARROW_LEFT =? 104) || (ARROW_LEFT =? ARROW_LEFT)) with true.
  cbn iota. destruct (Z.eqb_spec (cx E) 0); [lia|]. cbn [negb].
  cbn [mbind option_bind]. rewrite ushort_small by lia.
  change (numrows (set_cx E (cx E - 1))) with (numrows E).
  change (cy (set_cx E (cx E - 1))) with (cy E).
  destruct (Z.leb_spec (numrows E) (cy E)); [lia|].
  change (row_at (set_cx E (cx E - 1)) (cy E)) with (row_at E (cy E)).
  rewrite Hr. cbn [mbind option_bind].
  change (cx (set_cx E (cx E - 1))) with (cx E - 1).
  destruct (Z.ltb_spec (size r) (cx E - 1)); [lia|]. done.
Qed.

(** X25. The command [r] of normal mode with the cursor on a row of a
    consistent buffer with no syntax profile selected, at a column from 0
    to the row's length: the byte under the cursor is replaced by the low
    eight bits of the key, or, with the cursor at the end of the row, the
    byte is put there; the rest of the buffer's contents and the cursor
    stay.  (Under a profile the row goes through the scan, whose
    function-name rule can store in front of [hl].) *)
Theorem replace_under_cursor (stray : ascii) (junk : Z) (E : editorConfig)
        (k : nat) (r : erow) (c : Z) :
  syntax E = None ->
  consistent E ->
  cy E = Z.of_nat k -> row E !! k = Some r ->
  0 <= cx E <= size r -> cx E < 65535 ->
  exists E',
    normal_mode_r stray junk E c = Some E'
    /\ consistent E'
    /\ text E' = <[k := take (Z.to_nat (cx E)) (chars r)
                        ++ char_of_int c :: drop (S (Z.to_nat (cx E))) (chars r)]>
                   (text E)
    /\ cx E' = cx E /\ cy E' = cy E.
Proof.
  intros _ Hc Hcy Hr Hcx Hmax.
  pose proof (lookup_lt_Some _ _ _ Hr) as Hk.
  set (cs1 := take (Z.to_nat (cx E)) (chars r)
              ++ drop (S (Z.to_nat (cx E))) (chars r)).
  assert (Hl : length (take (Z.to_nat (cx E)) (chars r)) = Z.to_nat (cx E))
    by (rewrite length_take; unfold size in Hcx; lia).
  assert (exists E1,
             editorRowDelChar stray E (cy E) (cx E) = Some E1
             /\ consistent E1 /\ text E1 = <[k := cs1]> (text E)
             /\ cx E1 = cx E /\ cy E1 = cy E)
    as (E1 & Hrun1 & Hc1 & Ht1 & Hx1 & Hy1).
  { rewrite Hcy. destruct (Z.eq_dec (cx E) (size r)) as [Heq|Hne].
    - exists E. split.
      { unfold editorRowDelChar. rewrite row_at_nat, Hr.
        cbn [mbind option_bind].
        destruct (Z.ltb_spec (cx E) 0); [lia|].
        destruct (Z.leb_spec (size r) (cx E)); [done|lia]. }
      split; [done|]. split; [|done].
      subst cs1. unfold size in Heq.
      rewrite firstn_all2, drop_ge, app_nil_r by lia.
      symmetry. apply list_insert_id. by apply text_lookup.
    - destruct (editorRowDelChar_text stray E k r (cx E) Hc Hr)
        as (E1 & Hrun1 & Hc1 & Ht1 & (_ & _ & Hx1 & Hy1 & _) & _); [lia|].
      exists E1. split; [done|]. split; [done|]. split; [done|].
      split; congruence. }
  assert (Hl1 : text E1 !! k = Some cs1).
  { rewrite Ht1. apply list_lookup_insert_eq. by rewrite text_length. }
  destruct (text_lookup_row E1 k cs1 Hl1) as (r1 & Hr1 & Hcs1).
  assert (Hsz1 : cx E <= size r1).
  { unfold size. rewrite Hcs1. subst cs1. rewrite length_app, Hl. lia. }
  destruct (editorInsertChar_text stray junk E1 k r1 c Hc1)
    as (E2 & Hrun2 & Hc2 & Ht2 & Hx2 & Hy2 & Hn2 & _); try congruence; try lia.
  set (cs2 := take (Z.to_nat (cx E)) (chars r)
              ++ char_of_int c :: drop (S (Z.to_nat (cx E))) (chars r)).
  assert (Ht2' : text E2 = <[k := cs2]> (text E)).
  { rewrite Ht2, Ht1, list_insert_insert_eq, Hcs1, Hx1. subst cs1 cs2.
    rewrite take_app_length' by done. by rewrite drop_app_length' by done. }
  assert (Hl2 : text E2 !! k = Some cs2).
  { rewrite Ht2'. apply list_lookup_insert_eq. by rewrite text_length. }
  destruct (text_lookup_row E2 k cs2 Hl2) as (r2 & Hr2 & Hcs2).
  pose proof Hc2 as (_ & Hcnt2 & _).
  assert (Hlast : editorMoveCursor 0 E2 ARROW_LEFT
                  = Some (set_cx E2 (cx E2 - 1))).
  { apply (editorMoveCursor_left 0 E2 r2); try done.
    - rewrite Hy2, Hy1, Hcy. by rewrite row_at_nat.
    - apply lookup_lt_Some in Hr2. unfold counted in Hcnt2. lia.
    - unfold size. rewrite Hcs2. subst cs2. rewrite length_app, Hl. simpl. lia.
    - lia. }
  exists (set_cx E2 (cx E2 - 1)). split.
  { unfold normal_mode_r. rewrite Hrun1. cbn [mbind option_bind].
    rewrite Hrun2. cbn [mbind option_bind]. exact Hlast. }
  split; [by apply consistent_set_cursor|]. split; [exact Ht2'|].
  frame_simpl. split; [lia|congruence].
Qed.

Lemma replace_under_cursor_witness :
  exists E',
    normal_mode_r NUL 0 (set_cursor buffer_ab 1 0 0) 120 = Some E'
    /\ text E' = [cstr "ax"; []] /\ cx E' = 1.
Proof.
  destruct (replace_under_cursor NUL 0 (set_cursor buffer_ab 1 0 0) 0
              (mkRow 0 (cstr "ab") (cstr "ab") [HL_NORMAL; HL_NORMAL] 0) 120)
    as (E' & Hrun & _ & Ht & Hx & _).
  - reflexivity.
  - apply consistent_set_cursor, buffer_ab_consistent.
  - reflexivity.
  - reflexivity.
  - unfold size; simpl; lia.
  - simpl; lia.
  - exists E'. split; [exact Hrun|]. split; [exact Ht|exact Hx].
Defined.

(** ** Highlighting again what is current *)

Lemma set_row_same (E : editorConfig) : set_row E (row E) = E.
Proof. by destruct E. Qed.

(** X26. [editorUpdateSyntax] on a row of a numbered buffer whose
    highlighting is current for the byte found in front of its [render],
    with no profile selected or no [(] in the row's [render] (so that the
    function-name rule of the scan is not entered), changes nothing: the
    row gets the [hl] and the [hl_open_comment] it has, and the call does
    not go on to the next row. *)
Theorem update_syntax_fixed_point (stray : ascii) (E : editorConfig) (j : nat)
        (r : erow) :
  indexed E -> row E !! j = Some r -> current_at stray E j ->
  syntax E = None \/ "("%char ∉ render r ->
  editorUpdateSyntax stray E (Z.of_nat j) = Some E.
Proof.
  intros Hidx Hr Hup _. unfold editorUpdateSyntax.
  cbn [editorUpdateSyntax_rec]. rewrite row_at_nat, Hr.
  cbn [mbind option_bind].
  specialize (Hup r Hr). unfold row_current in Hup.
  destruct (syntax E) as [syn|].
  - destruct Hup as (st & Hrun & Hh & Ho).
    rewrite (comment_seed_at E j r Hidx Hr). cbn [mbind option_bind].
    rewrite Hrun. cbn [mbind option_bind].
    rewrite <- Ho, <- Hh, Z.eqb_refl. cbn [negb andb].
    rewrite store_row_nat. f_equal.
    replace (mkRow (idx r) (chars r) (render r) (hl r) (hl_open_comment r))
      with r by (by destruct r).
    rewrite list_insert_id by done. apply set_row_same.
  - rewrite <- Hup, store_row_nat. f_equal.
    replace (set_hl r (hl r)) with r by (by destruct r).
    rewrite list_insert_id by done. apply set_row_same.
Qed.

Lemma update_syntax_fixed_point_witness :
  editorUpdateSyntax NUL comment_loaded 0 = Some comment_loaded.
Proof.
  destruct (editorOpen_spec NUL 0 initEditor_c comment_loaded comment_file)
    as (Hi & _ & _).
  - reflexivity.
  - reflexivity.
  - simpl; lia.
  - vm_compute; reflexivity.
  - vm_compute; reflexivity.
  - apply (update_syntax_fixed_point NUL comment_loaded 0
             (mkRow 0 (cstr "/*") (cstr "/*") [HL_MLCOMMENT; HL_MLCOMMENT] 1)
             Hi).
    + reflexivity.
    + apply comment_loaded_up_to_date.
    + right. simpl. intros H.
      repeat (apply elem_of_cons in H as [H|H]; [discriminate|]).
      by apply elem_of_nil in H.
Defined.

(** ** The file name [editorOpen] keeps *)

Lemma open_filename_settled (n : list ascii) :
  settled n -> skip_slash n = Some n /\ skip_dot n = Some n.
Proof.
  destruct n as [|c0 [|c1 n]]; simpl; [done|done|].
  intros [H1 H2]. apply Ascii.eqb_neq in H1, H2. by rewrite H1, H2.
Qed.

(** X27. The name [editorOpen] keeps of the file it is given.  A name
    whose second byte is neither a slash nor a dot is kept as it is, and
    in front of such a name [./] and [../] are dropped.  But the second
    loop drops three bytes from any name whose second byte is a dot, so
    that [a.cpp] is kept as [pp]; and on a name of at most three bytes
    with a dot in second place, such as [a.c], it goes on to read beyond
    the end of the name. *)
Theorem open_filename_skips (n : list ascii) (c0 c2 : ascii) :
  settled n ->
  open_filename n = Some n
  /\ open_filename ("."%char :: "/"%char :: n) = Some n
  /\ open_filename ("."%char :: "."%char :: "/"%char :: n) = Some n
  /\ open_filename (c0 :: "."%char :: c2 :: n) = Some n
  /\ open_filename [c0; "."%char; c2] = None
  /\ open_filename [c0; "."%char] = None.
Proof.
  intros Hn. destruct (open_filename_settled n Hn) as [Hs Hd].
  unfold open_filename.
  split; [by rewrite Hs|]. split; [simpl; by rewrite Hs|].
  split; [simpl; by rewrite Hd|]. split; [simpl; by rewrite Hd|].
  split; reflexivity.
Qed.

Lemma open_filename_skips_witness :
  open_filename (cstr "main.c") = Some (cstr "main.c")
  /\ open_filename (cstr "./main.c") = Some (cstr "main.c")
  /\ open_filename (cstr "../main.c") = Some (cstr "main.c")
  /\ open_filename (cstr "a.cmain.c") = Some (cstr "main.c")
  /\ open_filename (cstr "a.c") = None
  /\ open_filename (cstr "a.") = None.
Proof.
  apply (open_filename_skips (cstr "main.c") "a" "c"). simpl. split; discriminate.
Defined.

(** A file [a.cpp] is kept as [pp], and gets no profile. *)
Example open_filename_a_cpp :
  open_filename (cstr "a.cpp") = Some (cstr "pp")
  /\ editorSelectSyntaxHighlight NUL buffer_ab (Some (cstr "pp"))
     = Some (set_syntax buffer_ab None).
Proof. split; reflexivity. Qed.
